(** * NetworkModule MQTT client: framing, send queue and stream reassembly

    A shallow embedding of [NetworkModule/mqtt.c], with the ARP table of
    [NetworkModule/uip_arp.c], and the properties established (or refuted)
    about them.

    Conventions of the embedding
    - C integers are [Z]; every narrowing store writes its wrap-around out
      ([u8], [u16], [u32], [i16]).
    - C byte arrays ([uip_buf], [mqtt_sendbuf], [parse_buffer], ...) are
      total maps [Z -> Z] from index to byte; a pointer is an index.
    - Functions that mutate memory return the new memory beside their C
      return value.
    - Declarations that live in [mqtt.h] / [main.h] (error enumerators,
      [sizeof(struct mqtt_queued_message)], [mqtt_mq_currsz], a few flag
      constants) are not part of the translated sources; they are collected
      in the class [MqttHeader] and every result is stated for an arbitrary
      instance of it. *)

From Stdlib Require Import ZArith List Lia Bool FMapPositive.
Import ListNotations.
Local Open Scope Z_scope.

(** ** Machine integers *)

Definition u8 (x : Z) : Z := x mod 256.
Definition u16 (x : Z) : Z := x mod 65536.
Definition u32 (x : Z) : Z := x mod 4294967296.
Definition i16 (x : Z) : Z :=
  let y := x mod 65536 in if y <? 32768 then y else y - 65536.

(** ** Byte arrays *)

Definition bytes := Z -> Z.

Definition store (m : bytes) (i v : Z) : bytes :=
  fun j => if j =? i then v else m j.

(** [load_range m off n] reads [n] consecutive bytes starting at [off]. *)
Definition load_range (m : bytes) (off : Z) (n : nat) : list Z :=
  map (fun k => m (off + Z.of_nat k)) (seq 0 n).

(** [store_list m off l] writes [l] at [off], [off+1], ... *)
Fixpoint store_list (m : bytes) (off : Z) (l : list Z) : bytes :=
  match l with
  | [] => m
  | b :: l' => store_list (store m off b) (off + 1) l'
  end.

(** [memmove dst src n] on one array: the [n] bytes at [src] are copied to
    [dst] as if through a temporary. *)
Definition memmove (m : bytes) (dst src n : Z) : bytes :=
  fun j => if (dst <=? j) && (j <? dst + n) then m (src + (j - dst)) else m j.

(** A NUL-terminated C string read from an array, at most [fuel] chars. *)
Fixpoint c_string (fuel : nat) (m : bytes) (i : Z) : list Z :=
  match fuel with
  | O => []
  | S f => if m i =? 0 then [] else m i :: c_string f m (i + 1)
  end.

(** ** Declarations of the missing headers *)

Class MqttHeader := {
  (* enum MQTTErrors *)
  MQTT_OK : Z;
  MQTT_ERROR_CONTROL_FORBIDDEN_TYPE : Z;
  MQTT_ERROR_CONTROL_INVALID_FLAGS : Z;
  MQTT_ERROR_INVALID_REMAINING_LENGTH : Z;
  MQTT_ERROR_CONNACK_FORBIDDEN_FLAGS : Z;
  MQTT_ERROR_CONNACK_FORBIDDEN_CODE : Z;
  MQTT_ERROR_RESPONSE_INVALID_CONTROL_TYPE : Z;
  MQTT_ERROR_CONNECT_NOT_CALLED : Z;
  MQTT_ERROR_SEND_BUFFER_IS_FULL : Z;
  MQTT_ERROR_MALFORMED_REQUEST : Z;
  MQTT_ERROR_MALFORMED_RESPONSE : Z;
  MQTT_ERROR_ACK_OF_UNKNOWN : Z;
  MQTT_ERROR_CONNECT_CLIENT_ID_REFUSED : Z;
  MQTT_ERROR_CONNECTION_REFUSED : Z;
  MQTT_ERROR_SUBSCRIBE_FAILED : Z;
  (* enum MQTTConnackReturnCode, enum MQTTSubackReturnCodes *)
  MQTT_CONNACK_ACCEPTED : Z;
  MQTT_CONNACK_REFUSED_IDENTIFIER_REJECTED : Z;
  MQTT_SUBACK_FAILURE : Z;
  (* enum MQTTConnectFlags, MQTT_PROTOCOL_LEVEL, enum MQTTPublishFlags *)
  MQTT_CONNECT_RESERVED : Z;
  MQTT_CONNECT_WILL_FLAG : Z;
  MQTT_CONNECT_WILL_RETAIN : Z;
  MQTT_CONNECT_PASSWORD : Z;
  MQTT_CONNECT_USER_NAME : Z;
  MQTT_PROTOCOL_LEVEL : Z;
  MQTT_PUBLISH_DUP : Z;
  MQTT_PUBLISH_QOS_MASK : Z;
  MQTT_PUBLISH_RETAIN : Z;
  (* main.h *)
  MQTT_START_COMPLETE : Z;
  MQTT_SENDBUF_SIZE : Z;
  (* sizeof(struct mqtt_queued_message) *)
  msg_sz : Z;
  (* the macro mqtt_mq_currsz, as a function of the arena size, the offset
     of [curr] and the number of queued message headers *)
  mqtt_mq_currsz : Z -> Z -> Z -> Z
}.

(** What the code relies on about the enumerators: every [MQTT_ERROR_*] is a
    negative [int16_t] and [MQTT_OK] is a non-negative one. *)
Definition header_ok (H : MqttHeader) : Prop :=
  Forall (fun e => -32768 <= e < 0)
    [ MQTT_ERROR_CONTROL_FORBIDDEN_TYPE; MQTT_ERROR_CONTROL_INVALID_FLAGS;
      MQTT_ERROR_INVALID_REMAINING_LENGTH; MQTT_ERROR_CONNACK_FORBIDDEN_FLAGS;
      MQTT_ERROR_CONNACK_FORBIDDEN_CODE;
      MQTT_ERROR_RESPONSE_INVALID_CONTROL_TYPE; MQTT_ERROR_CONNECT_NOT_CALLED;
      MQTT_ERROR_SEND_BUFFER_IS_FULL; MQTT_ERROR_MALFORMED_REQUEST;
      MQTT_ERROR_MALFORMED_RESPONSE; MQTT_ERROR_ACK_OF_UNKNOWN;
      MQTT_ERROR_CONNECT_CLIENT_ID_REFUSED; MQTT_ERROR_CONNECTION_REFUSED;
      MQTT_ERROR_SUBSCRIBE_FAILED ]
  /\ 0 <= MQTT_OK <= 32767
  /\ 0 < msg_sz.

(** Modelled from the spec: [mqtt_mq_currsz] is a macro of the missing
    [mqtt.h]; section 4.2 describes it as the capacity minus the bytes in use
    by both frame data and metadata, as a [uint16_t]. *)
Definition spec_currsz (sz : Z) (mem_size curr n : Z) : Z :=
  u16 (Z.max 0 (mem_size - curr - sz * n)).

(** An instance for concrete evaluations: distinct negative 16-bit values for
    the error enumerators, the flag constants of the MQTT 3.1.1 wire format,
    and a 14-byte message header. *)
#[export] Instance std_header : MqttHeader := {|
  MQTT_OK := 1;
  MQTT_ERROR_CONTROL_FORBIDDEN_TYPE := -32766;
  MQTT_ERROR_CONTROL_INVALID_FLAGS := -32765;
  MQTT_ERROR_INVALID_REMAINING_LENGTH := -32753;
  MQTT_ERROR_CONNACK_FORBIDDEN_FLAGS := -32761;
  MQTT_ERROR_CONNACK_FORBIDDEN_CODE := -32760;
  MQTT_ERROR_RESPONSE_INVALID_CONTROL_TYPE := -32757;
  MQTT_ERROR_CONNECT_NOT_CALLED := -32756;
  MQTT_ERROR_SEND_BUFFER_IS_FULL := -32755;
  MQTT_ERROR_MALFORMED_REQUEST := -32749;
  MQTT_ERROR_MALFORMED_RESPONSE := -32751;
  MQTT_ERROR_ACK_OF_UNKNOWN := -32763;
  MQTT_ERROR_CONNECT_CLIENT_ID_REFUSED := -32752;
  MQTT_ERROR_CONNECTION_REFUSED := -32762;
  MQTT_ERROR_SUBSCRIBE_FAILED := -32759;
  MQTT_CONNACK_ACCEPTED := 0;
  MQTT_CONNACK_REFUSED_IDENTIFIER_REJECTED := 2;
  MQTT_SUBACK_FAILURE := 128;
  MQTT_CONNECT_RESERVED := 1;
  MQTT_CONNECT_WILL_FLAG := 4;
  MQTT_CONNECT_WILL_RETAIN := 32;
  MQTT_CONNECT_PASSWORD := 64;
  MQTT_CONNECT_USER_NAME := 128;
  MQTT_PROTOCOL_LEVEL := 4;
  MQTT_PUBLISH_DUP := 8;
  MQTT_PUBLISH_QOS_MASK := 6;
  MQTT_PUBLISH_RETAIN := 1;
  MQTT_START_COMPLETE := 20;
  MQTT_SENDBUF_SIZE := 200;
  msg_sz := 14;
  mqtt_mq_currsz := spec_currsz 14
|}.

(** ** Control packet types

    The enumerators of [enum MQTTControlPacketType], numbered as the rows of
    the three validation tables of [mqtt.c] are labelled. *)

Definition MQTT_CONTROL_CONNECT : Z := 1.
Definition MQTT_CONTROL_CONNACK : Z := 2.
Definition MQTT_CONTROL_PUBLISH : Z := 3.
Definition MQTT_CONTROL_SUBSCRIBE : Z := 8.
Definition MQTT_CONTROL_SUBACK : Z := 9.
Definition MQTT_CONTROL_PINGREQ : Z := 12.
Definition MQTT_CONTROL_PINGRESP : Z := 13.
Definition MQTT_CONTROL_DISCONNECT : Z := 14.

(** * Binary codec *)

Module Codec.

Record mqtt_fixed_header := {
  control_type : Z;
  control_flags : Z;
  remaining_length : Z
}.

Definition control_type_is_valid : list Z :=
  [0; 1; 1; 1; 1; 1; 1; 1; 1; 1; 1; 1; 1; 1; 1; 0].

Definition required_flags : list Z :=
  [0; 0; 0; 0; 0; 0; 2; 0; 2; 0; 2; 0; 0; 0; 0; 0].

Definition mask_required_flags : list Z :=
  [0; 15; 15; 0; 15; 15; 15; 15; 15; 15; 15; 15; 15; 15; 15; 0].

(** Table lookup [t[i]]; the tables have 16 rows and are only indexed with a
    4-bit control type (a read outside a table yields 0 here). *)
Definition tbl (t : list Z) (i : Z) : Z := nth (Z.to_nat i) t 0.

Section WithHeader.
Context {H : MqttHeader}.

Definition mqtt_fixed_header_rule_violation (fh : mqtt_fixed_header) : Z :=
  let ct := u8 (control_type fh) in
  let cf := u8 (control_flags fh) in
  if negb (tbl control_type_is_valid ct =? 1) then
    MQTT_ERROR_CONTROL_FORBIDDEN_TYPE
  else if Z.land (Z.lxor cf (tbl required_flags ct))
                 (tbl mask_required_flags ct) =? 1 then
    MQTT_ERROR_CONTROL_INVALID_FLAGS
  else 0.

(** Outcome of the do-while loops over the length bytes. *)
Inductive unpack_loop_result :=
| UReturn (rv : Z) (rl : Z)
| UDone (pos bufsz rl : Z)
| UFuel.

(** The loop of [mqtt_unpack_fixed_header]; [pos] is [buf] as an index. The
    shift is taken in 32-bit arithmetic, the width of [remaining_length]. *)
Fixpoint unpack_loop (fuel : nat) (mem : bytes)
         (pos bufsz lshift rl : Z) : unpack_loop_result :=
  match fuel with
  | O => UFuel
  | S f =>
    if lshift =? 28 then UReturn MQTT_ERROR_INVALID_REMAINING_LENGTH rl
    else
      let bufsz := u16 (bufsz - 1) in
      let pos := pos + 1 in
      if bufsz =? 0 then UReturn 0 rl
      else
        let rl := u32 (rl + Z.shiftl (Z.land (mem pos) 127) lshift) in
        let lshift := lshift + 7 in
        if negb (Z.land (mem pos) 128 =? 0)
        then unpack_loop f mem pos bufsz lshift rl
        else UDone pos bufsz rl
  end.

(** [mqtt_unpack_fixed_header]: [fh0] is the previous content of
    [response->fixed_header]; the result is the return value and the header
    as the call leaves it. The loop runs at most five times ([lshift] is 28 at
    the fifth entry), see [unpack_loop_fuel]. *)
Definition mqtt_unpack_fixed_header (fh0 : mqtt_fixed_header)
           (mem : bytes) (buf bufsz : Z) : Z * mqtt_fixed_header :=
  if bufsz =? 0 then (0, fh0)
  else
    let ct := u8 (Z.shiftr (mem buf) 4) in
    let cf := u8 (Z.land (mem buf) 15) in
    match unpack_loop 5 mem buf bufsz 0 0 with
    | UFuel => (0, {| control_type := ct; control_flags := cf;
                      remaining_length := 0 |})
    | UReturn rv rl =>
        (rv, {| control_type := ct; control_flags := cf;
                remaining_length := rl |})
    | UDone pos bufsz rl =>
        let fh := {| control_type := ct; control_flags := cf;
                     remaining_length := rl |} in
        let bufsz := u16 (bufsz - 1) in
        let pos := pos + 1 in
        let errcode := mqtt_fixed_header_rule_violation fh in
        if negb (errcode =? 0) then (errcode, fh)
        else if bufsz <? rl then (0, fh)
        else (i16 (pos - buf), fh)
    end.

Inductive pack_loop_result :=
| PReturn (rv : Z) (mem : bytes)
| PDone (mem : bytes) (pos bufsz : Z)
| PFuel (mem : bytes).

(** The loop of [mqtt_pack_fixed_header]. *)
Fixpoint pack_loop (fuel : nat) (mem : bytes)
         (pos bufsz rl : Z) : pack_loop_result :=
  match fuel with
  | O => PFuel mem
  | S f =>
    let bufsz := u16 (bufsz - 1) in
    let pos := pos + 1 in
    if bufsz =? 0 then PReturn 0 mem
    else
      let b := u8 (Z.land rl 127) in
      let b := if 127 <? rl then Z.lor b 128 else b in
      let mem := store mem pos b in
      let rl := Z.shiftr rl 7 in
      if negb (Z.land b 128 =? 0)
      then pack_loop f mem pos bufsz rl
      else PDone mem pos bufsz
  end.

(** [mqtt_pack_fixed_header]: writes into [mem] at index [buf]; returns the C
    return value and the memory. A [uint32_t] is exhausted after five shifts
    by 7, see [pack_loop_fuel]. *)
Definition mqtt_pack_fixed_header (mem : bytes) (buf bufsz : Z)
           (fh : mqtt_fixed_header) : Z * bytes :=
  let errcode := mqtt_fixed_header_rule_violation fh in
  if negb (errcode =? 0) then (errcode, mem)
  else if bufsz =? 0 then (0, mem)
  else
    let mem := store mem buf (u8 (Z.land (Z.shiftl (control_type fh) 4) 240)) in
    let mem := store mem buf
                 (Z.lor (mem buf) (u8 (Z.land (control_flags fh) 15))) in
    let rl := u32 (remaining_length fh) in
    match pack_loop 5 mem buf bufsz rl with
    | PFuel mem => (0, mem)
    | PReturn rv mem => (rv, mem)
    | PDone mem pos bufsz =>
        let bufsz := u16 (bufsz - 1) in
        let pos := pos + 1 in
        if bufsz <? u32 (remaining_length fh) then (0, mem)
        else (i16 (pos - buf), mem)
    end.


(** Modelled from the spec: [HTONS] is a macro of the missing [uip.h];
    [mqtt_pack_uint16] / [mqtt_unpack_uint16] are the 16-bit big-endian
    encode and decode (section 4.1). *)
Definition mqtt_pack_uint16 (mem : bytes) (buf integer : Z) : Z * bytes :=
  (2, store (store mem buf (u8 (Z.shiftr (u16 integer) 8)))
            (buf + 1) (u8 (u16 integer))).

Definition mqtt_unpack_uint16 (mem : bytes) (buf : Z) : Z :=
  u16 (Z.shiftl (mem buf) 8 + mem (buf + 1)).

(** A C string is the list of its (non-NUL) characters. *)
Definition strlen (s : list Z) : Z := Z.of_nat (length s).

(** The loop of [mqtt_pack_str] counts in an [int16_t] up to a [uint16_t]
    length: for a string of 32768 characters or more it does not end.  The
    definition gives the result of the calls that return, and the
    statements about it are for shorter strings. *)
Definition mqtt_pack_str (mem : bytes) (buf : Z) (str : list Z) : Z * bytes :=
  let length := u16 (strlen str) in
  let '(n, mem) := mqtt_pack_uint16 mem buf length in
  let buf := buf + n in
  (i16 (length + 2), store_list mem buf (firstn (Z.to_nat length) str)).

(** [memcpy(buf, src, n)] from another object. *)
Definition memcpy (mem : bytes) (buf : Z) (src : bytes) (n : Z) : bytes :=
  store_list mem buf (load_range src 0 (Z.to_nat n)).

Definition mqtt_pack_connection_request (mem : bytes) (buf bufsz : Z)
    (client_id will_topic : list Z)
    (will_message : bytes) (will_message_size : Z)
    (user_name password : option (list Z))
    (connect_flags keep_alive : Z) : Z * bytes :=
  let start := buf in
  let connect_flags := u8 (Z.land connect_flags (Z.lnot MQTT_CONNECT_RESERVED)) in
  let remaining_length := 10 in
  let remaining_length := u16 (remaining_length + (strlen client_id + 2)) in
  let connect_flags := u8 (Z.lor connect_flags MQTT_CONNECT_WILL_FLAG) in
  let connect_flags := u8 (Z.lor connect_flags MQTT_CONNECT_WILL_RETAIN) in
  let remaining_length := u16 (remaining_length + (strlen will_topic + 2)) in
  let remaining_length := u16 (remaining_length + (2 + will_message_size)) in
  let '(connect_flags, remaining_length) :=
    match user_name with
    | Some u => (u8 (Z.lor connect_flags MQTT_CONNECT_USER_NAME),
                 u16 (remaining_length + (strlen u + 2)))
    | None => (Z.land connect_flags (u8 (Z.lnot MQTT_CONNECT_USER_NAME)),
               remaining_length)
    end in
  let '(connect_flags, remaining_length) :=
    match password with
    | Some p => (u8 (Z.lor connect_flags MQTT_CONNECT_PASSWORD),
                 u16 (remaining_length + (strlen p + 2)))
    | None => (Z.land connect_flags (u8 (Z.lnot MQTT_CONNECT_PASSWORD)),
               remaining_length)
    end in
  let fixed_header := {| control_type := MQTT_CONTROL_CONNECT;
                         control_flags := 0;
                         remaining_length := remaining_length |} in
  let '(rv, mem) := mqtt_pack_fixed_header mem buf bufsz fixed_header in
  if rv <=? 0 then (rv, mem)
  else
    let buf := buf + rv in
    let bufsz := u16 (bufsz - rv) in
    if bufsz <? remaining_length then (0, mem)
    else
      let mem := store_list mem buf
                   [0; 4; 77; 81; 84; 84; MQTT_PROTOCOL_LEVEL; connect_flags] in
      let buf := buf + 8 in
      let '(n, mem) := mqtt_pack_uint16 mem buf keep_alive in
      let buf := buf + n in
      let '(n, mem) := mqtt_pack_str mem buf client_id in
      let buf := buf + n in
      let '(buf, mem) :=
        if negb (Z.land connect_flags MQTT_CONNECT_WILL_FLAG =? 0) then
          let '(n, mem) := mqtt_pack_str mem buf will_topic in
          let buf := buf + n in
          let '(n, mem) := mqtt_pack_uint16 mem buf will_message_size in
          let buf := buf + n in
          (buf + will_message_size,
           memcpy mem buf will_message will_message_size)
        else (buf, mem) in
      let '(buf, mem) :=
        match user_name with
        | Some u =>
            if negb (Z.land connect_flags MQTT_CONNECT_USER_NAME =? 0) then
              let '(n, mem) := mqtt_pack_str mem buf u in (buf + n, mem)
            else (buf, mem)
        | None => (buf, mem)
        end in
      let '(buf, mem) :=
        match password with
        | Some p =>
            if negb (Z.land connect_flags MQTT_CONNECT_PASSWORD =? 0) then
              let '(n, mem) := mqtt_pack_str mem buf p in (buf + n, mem)
            else (buf, mem)
        | None => (buf, mem)
        end in
      (i16 (buf - start), mem).

Definition mqtt_pack_disconnect (mem : bytes) (buf bufsz : Z) : Z * bytes :=
  mqtt_pack_fixed_header mem buf bufsz
    {| control_type := MQTT_CONTROL_DISCONNECT; control_flags := 0;
       remaining_length := 0 |}.

Definition mqtt_pack_ping_request (mem : bytes) (buf bufsz : Z) : Z * bytes :=
  mqtt_pack_fixed_header mem buf bufsz
    {| control_type := MQTT_CONTROL_PINGREQ; control_flags := 0;
       remaining_length := 0 |}.

Definition mqtt_pack_publish_request (mem : bytes) (buf bufsz : Z)
    (topic_name : list Z) (packet_id : Z)
    (application_message : bytes) (application_message_size : Z)
    (publish_flags : Z) : Z * bytes :=
  let start := buf in
  let remaining_length := u32 (strlen topic_name + 2) in
  let remaining_length := u32 (remaining_length + application_message_size) in
  let publish_flags := Z.land publish_flags (u8 (Z.lnot MQTT_PUBLISH_DUP)) in
  let fixed_header := {| control_type := MQTT_CONTROL_PUBLISH;
                         control_flags := publish_flags;
                         remaining_length := remaining_length |} in
  let '(rv, mem) := mqtt_pack_fixed_header mem buf bufsz fixed_header in
  if rv <=? 0 then (rv, mem)
  else
    let buf := buf + rv in
    let bufsz := u16 (bufsz - rv) in
    if bufsz <? remaining_length then (0, mem)
    else
      let '(n, mem) := mqtt_pack_str mem buf topic_name in
      let buf := buf + n in
      let mem := memcpy mem buf application_message application_message_size in
      let buf := buf + application_message_size in
      (i16 (buf - start), mem).

Definition mqtt_pack_subscribe_request (mem : bytes) (buf bufsz : Z)
    (packet_id : Z) (topic : list Z) (max_qos_level : Z) : Z * bytes :=
  let start := buf in
  let remaining_length := 2 in
  let remaining_length := u32 (remaining_length + (strlen topic + 2 + 1)) in
  let fixed_header := {| control_type := MQTT_CONTROL_SUBSCRIBE;
                         control_flags := 2;
                         remaining_length := remaining_length |} in
  let '(rv, mem) := mqtt_pack_fixed_header mem buf bufsz fixed_header in
  if rv <=? 0 then (rv, mem)
  else
    let buf := buf + rv in
    let bufsz := u16 (bufsz - rv) in
    if bufsz <? remaining_length then (0, mem)
    else
      let '(n, mem) := mqtt_pack_uint16 mem buf packet_id in
      let buf := buf + n in
      let '(n, mem) := mqtt_pack_str mem buf topic in
      let buf := buf + n in
      let mem := store mem buf (u8 max_qos_level) in
      let buf := buf + 1 in
      (i16 (buf - start), mem).

(** *** Responses *)

Record mqtt_response_connack := {
  session_present_flag : Z;
  return_code : Z
}.

Record mqtt_response_publish := {
  dup_flag : Z;
  qos_level : Z;
  retain_flag : Z;
  topic_name_size : Z;
  topic_name : Z;            (* index into the receive buffer *)
  application_message : Z;   (* index into the receive buffer *)
  application_message_size : Z
}.

Record mqtt_response_suback := {
  suback_packet_id : Z;
  return_codes : Z;          (* index into the receive buffer *)
  num_return_codes : Z
}.

(** [struct mqtt_response]; the members of the C union [decoded] are kept
    side by side. *)
Record mqtt_response := {
  fixed_header : mqtt_fixed_header;
  connack : mqtt_response_connack;
  publish : mqtt_response_publish;
  suback : mqtt_response_suback
}.

Definition set_fixed_header (r : mqtt_response) (fh : mqtt_fixed_header) :=
  {| fixed_header := fh; connack := connack r; publish := publish r;
     suback := suback r |}.

Definition set_connack (r : mqtt_response) (x : mqtt_response_connack) :=
  {| fixed_header := fixed_header r; connack := x; publish := publish r;
     suback := suback r |}.

Definition set_publish (r : mqtt_response) (x : mqtt_response_publish) :=
  {| fixed_header := fixed_header r; connack := connack r; publish := x;
     suback := suback r |}.

Definition set_suback (r : mqtt_response) (x : mqtt_response_suback) :=
  {| fixed_header := fixed_header r; connack := connack r;
     publish := publish r; suback := x |}.

Definition mqtt_unpack_connack_response (r : mqtt_response)
           (mem : bytes) (buf : Z) : Z * mqtt_response :=
  let start := buf in
  if negb (remaining_length (fixed_header r) =? 2) then
    (MQTT_ERROR_MALFORMED_RESPONSE, r)
  else if negb (Z.land (mem buf) 254 =? 0) then
    (MQTT_ERROR_CONNACK_FORBIDDEN_FLAGS, r)
  else
    let spf := mem buf in
    let buf := buf + 1 in
    let r := set_connack r {| session_present_flag := spf;
                              return_code := return_code (connack r) |} in
    if 5 <? mem buf then (MQTT_ERROR_CONNACK_FORBIDDEN_CODE, r)
    else
      let r := set_connack r {| session_present_flag := spf;
                                return_code := mem buf |} in
      let buf := buf + 1 in
      (i16 (buf - start), r).

Definition mqtt_unpack_publish_response (r : mqtt_response)
           (mem : bytes) (buf : Z) : Z * mqtt_response :=
  let start := buf in
  let fh := fixed_header r in
  let dup := u8 (Z.shiftr (Z.land (control_flags fh) MQTT_PUBLISH_DUP) 3) in
  let qos := u8 (Z.shiftr (Z.land (control_flags fh) MQTT_PUBLISH_QOS_MASK) 1) in
  let ret := u8 (Z.land (control_flags fh) MQTT_PUBLISH_RETAIN) in
  let p0 := publish r in
  if remaining_length fh <? 4 then
    (MQTT_ERROR_MALFORMED_RESPONSE,
     set_publish r {| dup_flag := dup; qos_level := qos; retain_flag := ret;
                      topic_name_size := topic_name_size p0;
                      topic_name := topic_name p0;
                      application_message := application_message p0;
                      application_message_size :=
                        application_message_size p0 |})
  else
    let tns := mqtt_unpack_uint16 mem buf in
    let buf := buf + 2 in
    let tn := buf in
    let buf := buf + tns in
    let am := buf in
    let ams := u16 (remaining_length fh - tns - 2) in
    let buf := buf + ams in
    (i16 (buf - start),
     set_publish r {| dup_flag := dup; qos_level := qos; retain_flag := ret;
                      topic_name_size := tns; topic_name := tn;
                      application_message := am;
                      application_message_size := ams |}).

Definition mqtt_unpack_suback_response (r : mqtt_response)
           (mem : bytes) (buf : Z) : Z * mqtt_response :=
  let start := buf in
  let remaining_length := remaining_length (fixed_header r) in
  if remaining_length <? 3 then (MQTT_ERROR_MALFORMED_RESPONSE, r)
  else
    let pid := mqtt_unpack_uint16 mem buf in
    let buf := buf + 2 in
    let remaining_length := u32 (remaining_length - 2) in
    let r := set_suback r {| suback_packet_id := pid;
                             return_codes := buf;
                             num_return_codes := u16 remaining_length |} in
    let buf := buf + remaining_length in
    (i16 (buf - start), r).

Definition mqtt_unpack_response (r : mqtt_response)
           (mem : bytes) (buf bufsz : Z) : Z * mqtt_response :=
  let start := buf in
  let '(rv, fh) := mqtt_unpack_fixed_header (fixed_header r) mem buf bufsz in
  let r := set_fixed_header r fh in
  if rv <=? 0 then (rv, r)
  else
    let buf := buf + rv in
    let finish (x : Z * mqtt_response) :=
      let '(rv, r) := x in
      if rv <? 0 then (rv, r) else (i16 (buf + rv - start), r) in
    let ct := control_type fh in
    if ct =? MQTT_CONTROL_CONNACK then
      finish (mqtt_unpack_connack_response r mem buf)
    else if ct =? MQTT_CONTROL_PUBLISH then
      finish (mqtt_unpack_publish_response r mem buf)
    else if ct =? MQTT_CONTROL_SUBACK then
      finish (mqtt_unpack_suback_response r mem buf)
    else if ct =? MQTT_CONTROL_PINGRESP then (rv, r)
    else (MQTT_ERROR_RESPONSE_INVALID_CONTROL_TYPE, r).

End WithHeader.
End Codec.

(** * Send queue

    [mem] holds the arena with [mem_start] at index 0, [mem_size] is
    [mem_end - mem_start] and [curr] is an index. The array of message
    headers, which C keeps at the top of the arena and grows downwards from
    [mem_end], is the list [queue]: its element [i] is [mqtt_mq_get(mq, i)],
    so the head is the oldest message and the last element is
    [*mq->queue_tail]. *)

Module MQ.

Inductive MQTTQueuedMessageState :=
| MQTT_QUEUED_UNSENT
| MQTT_QUEUED_AWAITING_ACK
| MQTT_QUEUED_COMPLETE.

Definition state_eqb (a b : MQTTQueuedMessageState) : bool :=
  match a, b with
  | MQTT_QUEUED_UNSENT, MQTT_QUEUED_UNSENT
  | MQTT_QUEUED_AWAITING_ACK, MQTT_QUEUED_AWAITING_ACK
  | MQTT_QUEUED_COMPLETE, MQTT_QUEUED_COMPLETE => true
  | _, _ => false
  end.

Record mqtt_queued_message := {
  start : Z;
  size : Z;
  state : MQTTQueuedMessageState;
  time_sent : Z;
  control_type : Z;
  packet_id : Z
}.

Record mqtt_message_queue := {
  mem : bytes;
  mem_size : Z;
  curr : Z;
  queue : list mqtt_queued_message;
  curr_sz : Z
}.

Definition set_start (m : mqtt_queued_message) (v : Z) :=
  {| start := v; size := size m; state := state m; time_sent := time_sent m;
     control_type := control_type m; packet_id := packet_id m |}.

Definition set_state (m : mqtt_queued_message) (v : MQTTQueuedMessageState) :=
  {| start := start m; size := size m; state := v; time_sent := time_sent m;
     control_type := control_type m; packet_id := packet_id m |}.

Definition set_time_sent (m : mqtt_queued_message) (v : Z) :=
  {| start := start m; size := size m; state := state m; time_sent := v;
     control_type := control_type m; packet_id := packet_id m |}.

Definition set_control_type (m : mqtt_queued_message) (v : Z) :=
  {| start := start m; size := size m; state := state m;
     time_sent := time_sent m; control_type := v; packet_id := packet_id m |}.

Definition set_packet_id (m : mqtt_queued_message) (v : Z) :=
  {| start := start m; size := size m; state := state m;
     time_sent := time_sent m; control_type := control_type m;
     packet_id := v |}.

Definition set_mem (q : mqtt_message_queue) (m : bytes) :=
  {| mem := m; mem_size := mem_size q; curr := curr q; queue := queue q;
     curr_sz := curr_sz q |}.

Definition set_queue (q : mqtt_message_queue) (l : list mqtt_queued_message) :=
  {| mem := mem q; mem_size := mem_size q; curr := curr q; queue := l;
     curr_sz := curr_sz q |}.

(** [l[i] := f l[i]] *)
Fixpoint update_nth {A} (i : nat) (f : A -> A) (l : list A) : list A :=
  match l, i with
  | [], _ => []
  | x :: l', O => f x :: l'
  | x :: l', S i' => x :: update_nth i' f l'
  end.

Section WithHeader.
Context {H : MqttHeader}.

Definition mqtt_mq_length (mq : mqtt_message_queue) : Z :=
  Z.of_nat (length (queue mq)).

Definition currsz (mem_size curr : Z) (q : list mqtt_queued_message) : Z :=
  mqtt_mq_currsz mem_size curr (Z.of_nat (length q)).

Definition mqtt_mq_init (buf : bytes) (bufsz : Z) : mqtt_message_queue :=
  {| mem := buf; mem_size := bufsz; curr := 0; queue := [];
     curr_sz := currsz bufsz 0 [] |}.

(** [mqtt_mq_register]: [old] is what the claimed slot held before; only
    [start], [size] and [state] are assigned. The new header is the last
    element of the result's [queue].  In C the header lies in the arena, in
    the [msg_sz] bytes below the headers that are there; [mem] does not show
    these bytes, and a statement about the bytes of a frame needs the slot
    to lie behind the frame. *)
Definition mqtt_mq_register (old : mqtt_queued_message)
           (mq : mqtt_message_queue) (nbytes : Z) : mqtt_message_queue :=
  let msg := {| start := curr mq; size := nbytes;
                state := MQTT_QUEUED_UNSENT; time_sent := time_sent old;
                control_type := control_type old;
                packet_id := packet_id old |} in
  let q := queue mq ++ [msg] in
  let curr := curr mq + nbytes in
  {| mem := mem mq; mem_size := mem_size mq; curr := curr; queue := q;
     curr_sz := currsz (mem_size mq) curr q |}.

(** The scan of [mqtt_mq_clean]: the index at which [new_head] stops, counted
    from [mqtt_mq_get(mq, 0)]. *)
Fixpoint clean_scan (q : list mqtt_queued_message) : nat :=
  match q with
  | [] => O
  | m :: q' =>
      if negb (state_eqb (state m) MQTT_QUEUED_COMPLETE) then O
      else S (clean_scan q')
  end.

Definition mqtt_mq_clean (mq : mqtt_message_queue) : mqtt_message_queue :=
  let k := clean_scan (queue mq) in
  match skipn k (queue mq) with
  | [] =>
      (* new_head < queue_tail: everything can be removed *)
      {| mem := mem mq; mem_size := mem_size mq; curr := 0; queue := [];
         curr_sz := currsz (mem_size mq) 0 [] |}
  | new_head :: _ =>
      if Nat.eqb k 0 then mq
      else
        let n := u16 (curr mq - start new_head) in
        let removing := u16 (start new_head - 0) in
        let mem := memmove (mem mq) 0 (start new_head) n in
        let curr := 0 + n in
        let q := map (fun m => set_start m (start m - removing))
                     (skipn k (queue mq)) in
        {| mem := mem; mem_size := mem_size mq; curr := curr; queue := q;
           curr_sz := currsz (mem_size mq) curr q |}
  end.

(** [mqtt_mq_find]: the index of the first match, scanning from
    [mqtt_mq_get(mq, 0)] towards [queue_tail]; [None] is the C [NULL]. *)
Fixpoint find_from (i : nat) (q : list mqtt_queued_message)
         (ct : Z) (pid : option Z) : option nat :=
  match q with
  | [] => None
  | m :: q' =>
      if (control_type m =? ct) &&
         match pid with
         | None => negb (state_eqb (state m) MQTT_QUEUED_COMPLETE)
         | Some p => p =? packet_id m
         end
      then Some i
      else find_from (S i) q' ct pid
  end.

Definition mqtt_mq_find (mq : mqtt_message_queue) (ct : Z) (pid : option Z)
  : option nat := find_from 0 (queue mq) ct pid.

End WithHeader.
End MQ.

(** * Client control block, send and receive engines *)

Module Client.

(** The globals of [mqtt.c] and the [extern] ones it reads. [uip_buf] is the
    MQTT partial buffer, indexed from [MQTT_PBUF]. The last six fields exist
    in the Domoticz build only; [current_msg_length] is a [uint8_t] in the
    Home Assistant build and a [uint16_t] in the Domoticz build. *)
Inductive filter_step_t :=
| CAPTURE_VARIABLE_HEADER_BYTE1
| CAPTURE_VARIABLE_HEADER_BYTE2
| FIND_COMPONENT_START
| CAPTURE_COMPONENT
| COMPLETE_MSG_RECEIVE.

Record globals := {
  second_counter : Z;
  mqtt_start : Z;
  MQTT_error_status : Z;
  connack_received : Z;
  suback_received : Z;
  uip_buf : bytes;
  mqtt_partial_buffer_length : Z;
  pbi : Z;
  current_msg_length : Z;
  remaining_length_captured_flag : Z;
  parse_buffer : bytes;
  parse_index : Z;
  filter_step : filter_step_t;
  idx_string : bytes;
  nvalue_string : bytes
}.

Definition set_MQTT_error_status (g : globals) (v : Z) :=
  {| second_counter := second_counter g; mqtt_start := mqtt_start g;
     MQTT_error_status := v; connack_received := connack_received g;
     suback_received := suback_received g; uip_buf := uip_buf g;
     mqtt_partial_buffer_length := mqtt_partial_buffer_length g;
     pbi := pbi g; current_msg_length := current_msg_length g;
     remaining_length_captured_flag := remaining_length_captured_flag g;
     parse_buffer := parse_buffer g; parse_index := parse_index g;
     filter_step := filter_step g; idx_string := idx_string g;
     nvalue_string := nvalue_string g |}.

Definition set_connack_received (g : globals) (v : Z) :=
  {| second_counter := second_counter g; mqtt_start := mqtt_start g;
     MQTT_error_status := MQTT_error_status g; connack_received := v;
     suback_received := suback_received g; uip_buf := uip_buf g;
     mqtt_partial_buffer_length := mqtt_partial_buffer_length g;
     pbi := pbi g; current_msg_length := current_msg_length g;
     remaining_length_captured_flag := remaining_length_captured_flag g;
     parse_buffer := parse_buffer g; parse_index := parse_index g;
     filter_step := filter_step g; idx_string := idx_string g;
     nvalue_string := nvalue_string g |}.

Definition set_suback_received (g : globals) (v : Z) :=
  {| second_counter := second_counter g; mqtt_start := mqtt_start g;
     MQTT_error_status := MQTT_error_status g;
     connack_received := connack_received g;
     suback_received := v; uip_buf := uip_buf g;
     mqtt_partial_buffer_length := mqtt_partial_buffer_length g;
     pbi := pbi g; current_msg_length := current_msg_length g;
     remaining_length_captured_flag := remaining_length_captured_flag g;
     parse_buffer := parse_buffer g; parse_index := parse_index g;
     filter_step := filter_step g; idx_string := idx_string g;
     nvalue_string := nvalue_string g |}.

(** The reassembly variables are always written together. *)
Record reassembly := {
  r_uip_buf : bytes;
  r_mqtt_partial_buffer_length : Z;
  r_pbi : Z;
  r_current_msg_length : Z;
  r_remaining_length_captured_flag : Z;
  r_parse_buffer : bytes;
  r_parse_index : Z;
  r_filter_step : filter_step_t;
  r_idx_string : bytes;
  r_nvalue_string : bytes
}.

Definition get_reassembly (g : globals) : reassembly :=
  {| r_uip_buf := uip_buf g;
     r_mqtt_partial_buffer_length := mqtt_partial_buffer_length g;
     r_pbi := pbi g; r_current_msg_length := current_msg_length g;
     r_remaining_length_captured_flag := remaining_length_captured_flag g;
     r_parse_buffer := parse_buffer g; r_parse_index := parse_index g;
     r_filter_step := filter_step g; r_idx_string := idx_string g;
     r_nvalue_string := nvalue_string g |}.

Definition set_reassembly (g : globals) (r : reassembly) : globals :=
  {| second_counter := second_counter g; mqtt_start := mqtt_start g;
     MQTT_error_status := MQTT_error_status g;
     connack_received := connack_received g;
     suback_received := suback_received g; uip_buf := r_uip_buf r;
     mqtt_partial_buffer_length := r_mqtt_partial_buffer_length r;
     pbi := r_pbi r; current_msg_length := r_current_msg_length r;
     remaining_length_captured_flag := r_remaining_length_captured_flag r;
     parse_buffer := r_parse_buffer r; parse_index := r_parse_index r;
     filter_step := r_filter_step r; idx_string := r_idx_string r;
     nvalue_string := r_nvalue_string r |}.

Section WithApplication.

(** The type of the application's callback state. *)
Context {A : Type}.

Record mqtt_client := {
  mq : MQ.mqtt_message_queue;
  error : Z;
  keep_alive : Z;
  response_timeout : Z;
  number_of_timeouts : Z;
  pid_lfsr : Z;
  send_offset : Z;
  time_of_last_send : Z;
  publish_response_callback_state : A
}.

Definition set_mq (c : mqtt_client) (v : MQ.mqtt_message_queue) :=
  {| mq := v; error := error c; keep_alive := keep_alive c;
     response_timeout := response_timeout c;
     number_of_timeouts := number_of_timeouts c; pid_lfsr := pid_lfsr c;
     send_offset := send_offset c; time_of_last_send := time_of_last_send c;
     publish_response_callback_state := publish_response_callback_state c |}.

Definition set_error (c : mqtt_client) (v : Z) :=
  {| mq := mq c; error := v; keep_alive := keep_alive c;
     response_timeout := response_timeout c;
     number_of_timeouts := number_of_timeouts c; pid_lfsr := pid_lfsr c;
     send_offset := send_offset c; time_of_last_send := time_of_last_send c;
     publish_response_callback_state := publish_response_callback_state c |}.

Definition set_keep_alive (c : mqtt_client) (v : Z) :=
  {| mq := mq c; error := error c; keep_alive := v;
     response_timeout := response_timeout c;
     number_of_timeouts := number_of_timeouts c; pid_lfsr := pid_lfsr c;
     send_offset := send_offset c; time_of_last_send := time_of_last_send c;
     publish_response_callback_state := publish_response_callback_state c |}.

Definition set_number_of_timeouts (c : mqtt_client) (v : Z) :=
  {| mq := mq c; error := error c; keep_alive := keep_alive c;
     response_timeout := response_timeout c;
     number_of_timeouts := v; pid_lfsr := pid_lfsr c;
     send_offset := send_offset c; time_of_last_send := time_of_last_send c;
     publish_response_callback_state := publish_response_callback_state c |}.

Definition set_pid_lfsr (c : mqtt_client) (v : Z) :=
  {| mq := mq c; error := error c; keep_alive := keep_alive c;
     response_timeout := response_timeout c;
     number_of_timeouts := number_of_timeouts c; pid_lfsr := v;
     send_offset := send_offset c; time_of_last_send := time_of_last_send c;
     publish_response_callback_state := publish_response_callback_state c |}.

Definition set_send_offset (c : mqtt_client) (v : Z) :=
  {| mq := mq c; error := error c; keep_alive := keep_alive c;
     response_timeout := response_timeout c;
     number_of_timeouts := number_of_timeouts c; pid_lfsr := pid_lfsr c;
     send_offset := v; time_of_last_send := time_of_last_send c;
     publish_response_callback_state := publish_response_callback_state c |}.

Definition set_time_of_last_send (c : mqtt_client) (v : Z) :=
  {| mq := mq c; error := error c; keep_alive := keep_alive c;
     response_timeout := response_timeout c;
     number_of_timeouts := number_of_timeouts c; pid_lfsr := pid_lfsr c;
     send_offset := send_offset c; time_of_last_send := v;
     publish_response_callback_state := publish_response_callback_state c |}.

Definition set_callback_state (c : mqtt_client) (v : A) :=
  {| mq := mq c; error := error c; keep_alive := keep_alive c;
     response_timeout := response_timeout c;
     number_of_timeouts := number_of_timeouts c; pid_lfsr := pid_lfsr c;
     send_offset := send_offset c; time_of_last_send := time_of_last_send c;
     publish_response_callback_state := v |}.

Context {H : MqttHeader}.

(** What is outside [mqtt.c]: the transport primitive (the bytes handed over
    and its [int16_t] result), the application callback (it sees the decoded
    publish and the globals, and must not re-enter the engine), and the
    indeterminate contents of a message-header slot before it is claimed and
    of the [response] local of [mqtt_recv]. *)
Variable mqtt_pal_sendall : list Z -> Z.
Variable publish_response_callback :
  A -> globals -> Codec.mqtt_response_publish -> A.
Variable slot_junk : MQ.mqtt_queued_message.
Variable response_junk : Codec.mqtt_response.

(** ** Packet identifiers *)

(** One round of the Galois LFSR with tap mask 0xB400. *)
Definition lfsr_step (x : Z) : Z :=
  let lsb := Z.land x 1 in
  let x := u16 (Z.shiftr x 1) in
  if negb (lsb =? 0) then u16 (Z.lxor x 46080) else x.

Definition pid_exists (q : list MQ.mqtt_queued_message) (pid : Z) : bool :=
  existsb (fun m => MQ.packet_id m =? pid) q.

(** The do-while loop of [mqtt_next_pid]; [None] when [fuel] rounds did not
    produce a fresh identifier. *)
Fixpoint next_pid_loop (fuel : nat) (q : list MQ.mqtt_queued_message)
         (lfsr : Z) : option Z :=
  match fuel with
  | O => None
  | S f =>
      let lfsr := lfsr_step lfsr in
      if pid_exists q lfsr then next_pid_loop f q lfsr else Some lfsr
  end.

Definition mqtt_next_pid (fuel : nat) (c : mqtt_client)
  : option (mqtt_client * Z) :=
  let c := if pid_lfsr c =? 0 then set_pid_lfsr c 163 else c in
  match next_pid_loop fuel (MQ.queue (mq c)) (pid_lfsr c) with
  | None => None
  | Some pid => Some (set_pid_lfsr c pid, pid)
  end.

(** ** Requests *)

Definition mqtt_init (cb_state : A) (sendbuf : bytes) (sendbufsz : Z)
  : mqtt_client :=
  {| mq := MQ.mqtt_mq_init sendbuf sendbufsz;
     error := MQTT_ERROR_CONNECT_NOT_CALLED;
     keep_alive := 0;
     response_timeout := 30;
     number_of_timeouts := 0;
     pid_lfsr := 0;
     send_offset := 0;
     time_of_last_send := 0;
     publish_response_callback_state := cb_state |}.

(** The common tail of the request functions: register [rv] bytes and
    finish the new header with [fin]. *)
Definition register_as (c : mqtt_client) (packed : bytes) (rv : Z)
           (fin : MQ.mqtt_queued_message -> MQ.mqtt_queued_message)
  : mqtt_client :=
  let q := MQ.mqtt_mq_register slot_junk (MQ.set_mem (mq c) packed) (u16 rv) in
  set_mq c (MQ.set_queue q
              (MQ.update_nth (length (MQ.queue q) - 1) fin (MQ.queue q))).

Definition mqtt_connect (c : mqtt_client)
    (client_id will_topic : list Z)
    (will_message : bytes) (will_message_size : Z)
    (user_name password : option (list Z))
    (connect_flags keep_alive : Z) : mqtt_client * Z :=
  let c := set_keep_alive c keep_alive in
  let c := if error c =? MQTT_ERROR_CONNECT_NOT_CALLED
           then set_error c MQTT_OK else c in
  if error c <? 0 then (c, error c)
  else
    let c := set_mq c (MQ.mqtt_mq_clean (mq c)) in
    let '(rv, packed) :=
      Codec.mqtt_pack_connection_request
        (MQ.mem (mq c)) (MQ.curr (mq c)) (MQ.curr_sz (mq c))
        client_id will_topic will_message will_message_size
        user_name password connect_flags keep_alive in
    if rv <? 0 then (set_error (set_mq c (MQ.set_mem (mq c) packed)) rv, rv)
    else
      (register_as c packed rv
         (fun m => MQ.set_control_type m MQTT_CONTROL_CONNECT), MQTT_OK).

Definition mqtt_publish (fuel : nat) (c : mqtt_client)
    (topic_name : list Z)
    (application_message : bytes) (application_message_size : Z)
    (publish_flags : Z) : option (mqtt_client * Z) :=
  match mqtt_next_pid fuel c with
  | None => None
  | Some (c, packet_id) =>
    Some
      (if error c <? 0 then (c, error c)
       else
         let c := set_mq c (MQ.mqtt_mq_clean (mq c)) in
         let '(rv, packed) :=
           Codec.mqtt_pack_publish_request
             (MQ.mem (mq c)) (MQ.curr (mq c)) (MQ.curr_sz (mq c))
             topic_name packet_id application_message
             application_message_size publish_flags in
         if rv <? 0 then
           (set_error (set_mq c (MQ.set_mem (mq c) packed)) rv, rv)
         else
           (register_as c packed rv
              (fun m => MQ.set_packet_id
                          (MQ.set_control_type m MQTT_CONTROL_PUBLISH)
                          packet_id), MQTT_OK))
  end.

Definition mqtt_subscribe (fuel : nat) (c : mqtt_client)
    (topic_name : list Z) (max_qos_level : Z) : option (mqtt_client * Z) :=
  match mqtt_next_pid fuel c with
  | None => None
  | Some (c, packet_id) =>
    Some
      (if error c <? 0 then (c, error c)
       else
         let c := set_mq c (MQ.mqtt_mq_clean (mq c)) in
         let '(rv, packed) :=
           Codec.mqtt_pack_subscribe_request
             (MQ.mem (mq c)) (MQ.curr (mq c)) (MQ.curr_sz (mq c))
             packet_id topic_name max_qos_level in
         if rv <? 0 then
           (set_error (set_mq c (MQ.set_mem (mq c) packed)) rv, rv)
         else
           (register_as c packed rv
              (fun m => MQ.set_packet_id
                          (MQ.set_control_type m MQTT_CONTROL_SUBSCRIBE)
                          packet_id), MQTT_OK))
  end.

Definition mqtt_ping (c : mqtt_client) : mqtt_client * Z :=
  if error c <? 0 then (c, error c)
  else
    let c := set_mq c (MQ.mqtt_mq_clean (mq c)) in
    let '(rv, packed) :=
      Codec.mqtt_pack_ping_request
        (MQ.mem (mq c)) (MQ.curr (mq c)) (MQ.curr_sz (mq c)) in
    if rv <? 0 then (set_error (set_mq c (MQ.set_mem (mq c) packed)) rv, rv)
    else
      (register_as c packed rv
         (fun m => MQ.set_control_type m MQTT_CONTROL_PINGREQ), MQTT_OK).

Definition mqtt_disconnect (c : mqtt_client) : mqtt_client * Z :=
  if error c <? 0 then (c, error c)
  else
    let c := set_mq c (MQ.mqtt_mq_clean (mq c)) in
    let '(rv, packed) :=
      Codec.mqtt_pack_disconnect
        (MQ.mem (mq c)) (MQ.curr (mq c)) (MQ.curr_sz (mq c)) in
    if rv <? 0 then (set_error (set_mq c (MQ.set_mem (mq c) packed)) rv, rv)
    else
      (register_as c packed rv
         (fun m => MQ.set_control_type m MQTT_CONTROL_DISCONNECT), MQTT_OK).

Definition mqtt_check_sendbuf (c : mqtt_client) : mqtt_client * Z :=
  let c := if negb (MQTT_SENDBUF_SIZE - 15 <? MQ.curr_sz (mq c))
           then set_mq c (MQ.mqtt_mq_clean (mq c)) else c in
  (c, MQ.curr_sz (mq c)).

(** ** Send engine *)

Inductive send_scan_result :=
| ScanReturn (c : mqtt_client) (rv : Z)   (* [return rv] inside the loop *)
| ScanExit (c : mqtt_client).             (* loop left, by [break] or at its end *)

Definition set_msg (c : mqtt_client) (i : nat)
           (f : MQ.mqtt_queued_message -> MQ.mqtt_queued_message) :=
  set_mq c (MQ.set_queue (mq c) (MQ.update_nth i f (MQ.queue (mq c)))).

(** The [for] loop of [mqtt_send] from index [i] on; [todo] are the headers
    [mqtt_mq_get(mq, i)], [mqtt_mq_get(mq, i+1)], ... *)
Fixpoint send_scan (g : globals) (c : mqtt_client) (i : nat)
         (todo : list MQ.mqtt_queued_message) : send_scan_result :=
  match todo with
  | [] => ScanExit c
  | msg :: rest =>
    let '(resend, c) :=
      match MQ.state msg with
      | MQ.MQTT_QUEUED_UNSENT => (true, c)
      | MQ.MQTT_QUEUED_AWAITING_ACK =>
          if u32 (MQ.time_sent msg + response_timeout c) <? second_counter g
          then (true,
                set_send_offset
                  (set_number_of_timeouts c (number_of_timeouts c + 1)) 0)
          else (false, c)
      | MQ.MQTT_QUEUED_COMPLETE => (false, c)
      end in
    if negb resend then send_scan g c (S i) rest
    else
      let tmp :=
        mqtt_pal_sendall
          (load_range (MQ.mem (mq c)) (MQ.start msg + send_offset c)
                      (Z.to_nat (MQ.size msg - send_offset c))) in
      if tmp <? 0 then ScanReturn (set_error c tmp) tmp
      else
        let c := set_send_offset c (send_offset c + tmp) in
        if send_offset c <? MQ.size msg then ScanExit c
        else
          let c := set_send_offset c 0 in
          let c := set_time_of_last_send c (second_counter g) in
          let c := set_msg c i
                     (fun m => MQ.set_time_sent m (time_of_last_send c)) in
          let ct := MQ.control_type msg in
          if (ct =? MQTT_CONTROL_DISCONNECT) || (ct =? MQTT_CONTROL_PUBLISH)
          then
            ScanExit
              (set_msg c i (fun m => MQ.set_state m MQ.MQTT_QUEUED_COMPLETE))
          else if (ct =? MQTT_CONTROL_CONNECT)
                  || (ct =? MQTT_CONTROL_SUBSCRIBE)
                  || (ct =? MQTT_CONTROL_PINGREQ)
          then
            ScanExit
              (set_msg c i
                 (fun m => MQ.set_state m MQ.MQTT_QUEUED_AWAITING_ACK))
          else
            ScanReturn (set_error c MQTT_ERROR_MALFORMED_REQUEST)
                       MQTT_ERROR_MALFORMED_REQUEST
  end.

Definition mqtt_send (g : globals) (c : mqtt_client) : mqtt_client * Z :=
  if (error c <? 0) && negb (error c =? MQTT_ERROR_SEND_BUFFER_IS_FULL)
  then (c, error c)
  else
    match send_scan g c 0 (MQ.queue (mq c)) with
    | ScanReturn c rv => (c, rv)
    | ScanExit c =>
        let keep_alive_timeout :=
          u32 (time_of_last_send c + u32 ((keep_alive c * 3) / 4)) in
        if (keep_alive_timeout <? second_counter g)
           && (mqtt_start g =? MQTT_START_COMPLETE)
        then
          let '(c, rv) := mqtt_ping c in
          if negb (rv =? MQTT_OK) then (set_error c rv, rv)
          else (c, MQTT_OK)
        else (c, MQTT_OK)
    end.

(** ** Receive engine *)

Definition mqtt_recv (g : globals) (c : mqtt_client)
  : mqtt_client * globals * Z :=
  let '(consumed, response) :=
    Codec.mqtt_unpack_response response_junk (uip_buf g) 0
      (mqtt_partial_buffer_length g) in
  if consumed <? 0 then (set_error c consumed, g, consumed)
  else
    let ct := Codec.control_type (Codec.fixed_header response) in
    if ct =? MQTT_CONTROL_CONNACK then
      let msg := MQ.mqtt_mq_find (mq c) MQTT_CONTROL_CONNECT None in
      let g := set_connack_received g 1 in
      match msg with
      | None => (set_error c MQTT_ERROR_ACK_OF_UNKNOWN, g,
                 MQTT_ERROR_ACK_OF_UNKNOWN)
      | Some i =>
          let c := set_msg c i
                     (fun m => MQ.set_state m MQ.MQTT_QUEUED_COMPLETE) in
          let rc := Codec.return_code (Codec.connack response) in
          if negb (rc =? MQTT_CONNACK_ACCEPTED) then
            if rc =? MQTT_CONNACK_REFUSED_IDENTIFIER_REJECTED then
              (set_error c MQTT_ERROR_CONNECT_CLIENT_ID_REFUSED, g,
               MQTT_ERROR_CONNECT_CLIENT_ID_REFUSED)
            else
              (set_error c MQTT_ERROR_CONNECTION_REFUSED, g,
               MQTT_ERROR_CONNECTION_REFUSED)
          else (c, g, MQTT_OK)
      end
    else if ct =? MQTT_CONTROL_PUBLISH then
      (set_callback_state c
         (publish_response_callback (publish_response_callback_state c) g
            (Codec.publish response)),
       g, MQTT_OK)
    else if ct =? MQTT_CONTROL_SUBACK then
      let msg := MQ.mqtt_mq_find (mq c) MQTT_CONTROL_SUBSCRIBE
                   (Some (Codec.suback_packet_id (Codec.suback response))) in
      let g := set_suback_received g 1 in
      match msg with
      | None => (set_error c MQTT_ERROR_ACK_OF_UNKNOWN, g,
                 MQTT_ERROR_ACK_OF_UNKNOWN)
      | Some i =>
          let c := set_msg c i
                     (fun m => MQ.set_state m MQ.MQTT_QUEUED_COMPLETE) in
          if uip_buf g (Codec.return_codes (Codec.suback response))
             =? MQTT_SUBACK_FAILURE
          then (set_error c MQTT_ERROR_SUBSCRIBE_FAILED, g,
                MQTT_ERROR_SUBSCRIBE_FAILED)
          else (c, g, MQTT_OK)
      end
    else if ct =? MQTT_CONTROL_PINGRESP then
      match MQ.mqtt_mq_find (mq c) MQTT_CONTROL_PINGREQ None with
      | None => (set_error c MQTT_ERROR_ACK_OF_UNKNOWN, g,
                 MQTT_ERROR_ACK_OF_UNKNOWN)
      | Some i =>
          (set_msg c i (fun m => MQ.set_state m MQ.MQTT_QUEUED_COMPLETE),
           g, MQTT_OK)
      end
    else
      (set_error c MQTT_ERROR_MALFORMED_RESPONSE, g,
       MQTT_ERROR_MALFORMED_RESPONSE).

(** ** Stream reassembly

    A chunk is the content of [uip_appdata], [uip_len] bytes long; [flags] is
    [uip_newdata() || uip_acked()]. The loops return, beside the state,
    the list of partial-buffer contents ([mqtt_partial_buffer_length] bytes
    from [MQTT_PBUF]) at each call of [mqtt_recv], in call order: this list
    is an observation of the run, it is not a variable of the program. *)

Definition snapshot (g : globals) : list Z :=
  load_range (uip_buf g) 0 (Z.to_nat (mqtt_partial_buffer_length g)).

Inductive loop_result :=
| LoopReturn (c : mqtt_client) (g : globals) (rv : Z) (log : list (list Z))
| LoopEnd (c : mqtt_client) (g : globals) (log : list (list Z)).

(** After a complete message: [mqtt_recv], reset, [mqtt_send]. [reset]
    clears the reassembly counters of the build. Yields [inl] of the
    function's result when the C code returns, [inr] to go on looping. *)
Definition deliver (reset : globals -> globals)
           (c : mqtt_client) (g : globals) (log : list (list Z))
  : loop_result + (mqtt_client * globals * list (list Z)) :=
  let log := log ++ [snapshot g] in
  let '(c, g, err) := mqtt_recv g c in
  let g := reset g in
  if negb (err =? MQTT_OK) then inl (LoopReturn c g err log)
  else
    let '(c, err) := mqtt_send g c in
    let g := set_MQTT_error_status g (if err =? MQTT_OK then 1 else 0) in
    if negb (err =? MQTT_OK) then inl (LoopReturn c g err log)
    else inr (c, g, log).

(** The final [mqtt_send] of [mqtt_sync]. *)
Definition final_send (c : mqtt_client) (g : globals) (log : list (list Z))
  : mqtt_client * globals * Z * list (list Z) :=
  let '(c, err) := mqtt_send g c in
  (c, set_MQTT_error_status g (if err =? MQTT_OK then 1 else 0), err, log).

(** *** Home Assistant build *)

Definition ha_reset (g : globals) : globals :=
  let r := get_reassembly g in
  set_reassembly g
    {| r_uip_buf := r_uip_buf r; r_mqtt_partial_buffer_length := 0;
       r_pbi := 0; r_current_msg_length := r_current_msg_length r;
       r_remaining_length_captured_flag := r_remaining_length_captured_flag r;
       r_parse_buffer := r_parse_buffer r; r_parse_index := r_parse_index r;
       r_filter_step := r_filter_step r; r_idx_string := r_idx_string r;
       r_nvalue_string := r_nvalue_string r |}.

(** The statements of the loop body up to the first decision: capture one
    byte and maintain [current_msg_length]. *)
Definition ha_capture (r : reassembly) (b : Z) : reassembly :=
  let buf := store (r_uip_buf r) (r_pbi r) b in
  let pbi := u8 (r_pbi r + 1) in
  let pbl := u8 (r_mqtt_partial_buffer_length r + 1) in
  let cml := r_current_msg_length r in
  let cml := if pbl =? 2 then buf 1 else cml in
  let cml := if 2 <? pbl then u8 (cml - 1) else cml in
  {| r_uip_buf := buf; r_mqtt_partial_buffer_length := pbl; r_pbi := pbi;
     r_current_msg_length := cml;
     r_remaining_length_captured_flag := r_remaining_length_captured_flag r;
     r_parse_buffer := r_parse_buffer r; r_parse_index := r_parse_index r;
     r_filter_step := r_filter_step r; r_idx_string := r_idx_string r;
     r_nvalue_string := r_nvalue_string r |}.

(** [while (total_msg_length > 0)] over the rest of the chunk. *)
Fixpoint ha_loop (c : mqtt_client) (g : globals) (chunk : list Z)
         (log : list (list Z)) : loop_result :=
  match chunk with
  | [] => LoopEnd c g log
  | b :: rest =>
    let g := set_reassembly g (ha_capture (get_reassembly g) b) in
    if mqtt_partial_buffer_length g =? 1 then
      match rest with
      | [] => LoopReturn c g MQTT_OK log
      | _ :: _ => ha_loop c g rest log
      end
    else if current_msg_length g =? 0 then
      match deliver ha_reset c g log with
      | inl r => r
      | inr (c, g, log) => ha_loop c g rest log
      end
    else ha_loop c g rest log
  end.

Definition finish_sync (r : loop_result)
  : mqtt_client * globals * Z * list (list Z) :=
  match r with
  | LoopReturn c g rv log => (c, g, rv, log)
  | LoopEnd c g log => final_send c g log
  end.

Definition mqtt_sync_ha (flags : bool) (chunk : list Z)
           (c : mqtt_client) (g : globals)
  : mqtt_client * globals * Z * list (list Z) :=
  if flags && (0 <? Z.of_nat (length chunk))
  then finish_sync (ha_loop c g chunk [])
  else final_send c g [].

(** *** Domoticz build *)

Definition domoticz_reset (g : globals) : globals :=
  let r := get_reassembly g in
  set_reassembly g
    {| r_uip_buf := r_uip_buf r; r_mqtt_partial_buffer_length := 0;
       r_pbi := 0; r_current_msg_length := r_current_msg_length r;
       r_remaining_length_captured_flag := 0;
       r_parse_buffer := r_parse_buffer r; r_parse_index := r_parse_index r;
       r_filter_step := r_filter_step r; r_idx_string := r_idx_string r;
       r_nvalue_string := r_nvalue_string r |}.

(** [strncmp(m, lit, n) == 0] against a string literal. *)
Fixpoint strncmp_eq0 (m : bytes) (i : Z) (lit : list Z) (n : nat) : bool :=
  match n with
  | O => true
  | S n' =>
      let c2 := hd 0 lit in
      if m i =? c2
      then if c2 =? 0 then true else strncmp_eq0 m (i + 1) (tl lit) n'
      else false
  end.

(** The two TEMPTEXT literals: LF, TAB, a double quote and then either
    [idx] with its closing double quote, or [nval]; both end with NUL. *)
Definition TEMPTEXT_idx : list Z := [10; 9; 34; 105; 100; 120; 34; 0].
Definition TEMPTEXT_nval : list Z := [10; 9; 34; 110; 118; 97; 108; 0].

(** [for (k=10; k<16; k++)]: copy up to the comma, keeping [idx_string]
    terminated; [n] is the number of rounds left. *)
Fixpoint idx_copy (pb idx : bytes) (k m : Z) (n : nat) : bytes :=
  match n with
  | O => idx
  | S n' =>
      if pb k =? 44 then idx
      else idx_copy pb (store (store idx m (pb k)) (m + 1) 0) (k + 1) (m + 1) n'
  end.

(** [switch (filter_step)], entered after [pbi--] and
    [mqtt_partial_buffer_length--]. *)
Definition domoticz_filter (r : reassembly) : reassembly :=
  let buf := r_uip_buf r in
  let pbi := r_pbi r in
  let pbl := r_mqtt_partial_buffer_length r in
  let with_buf buf pbl pbi step pidx :=
    {| r_uip_buf := buf; r_mqtt_partial_buffer_length := pbl; r_pbi := pbi;
       r_current_msg_length := r_current_msg_length r;
       r_remaining_length_captured_flag := r_remaining_length_captured_flag r;
       r_parse_buffer := r_parse_buffer r; r_parse_index := pidx;
       r_filter_step := step; r_idx_string := r_idx_string r;
       r_nvalue_string := r_nvalue_string r |} in
  match r_filter_step r with
  | CAPTURE_VARIABLE_HEADER_BYTE1 =>
      with_buf (store buf pbi 0) (u8 (pbl + 1)) (u8 (pbi + 1))
               CAPTURE_VARIABLE_HEADER_BYTE2 (r_parse_index r)
  | CAPTURE_VARIABLE_HEADER_BYTE2 =>
      with_buf (store (store buf pbi 1) (pbi + 1) 100)
               (u8 (pbl + 2)) (u8 (pbi + 2)) FIND_COMPONENT_START 0
  | FIND_COMPONENT_START =>
      if buf pbi =? 10 then
        {| r_uip_buf := buf; r_mqtt_partial_buffer_length := pbl;
           r_pbi := pbi; r_current_msg_length := r_current_msg_length r;
           r_remaining_length_captured_flag :=
             r_remaining_length_captured_flag r;
           r_parse_buffer := store (r_parse_buffer r) (r_parse_index r)
                                   (buf pbi);
           r_parse_index := u8 (r_parse_index r + 1);
           r_filter_step := CAPTURE_COMPONENT;
           r_idx_string := r_idx_string r;
           r_nvalue_string := r_nvalue_string r |}
      else r
  | CAPTURE_COMPONENT =>
      let pb := store (r_parse_buffer r) (r_parse_index r) (buf pbi) in
      let pidx := u8 (r_parse_index r + 1) in
      let r1 :=
        if pb (pidx - 1) =? 44 then
          if strncmp_eq0 pb 0 TEMPTEXT_idx 7 then
            {| r_uip_buf := buf; r_mqtt_partial_buffer_length := pbl;
               r_pbi := pbi; r_current_msg_length := r_current_msg_length r;
               r_remaining_length_captured_flag :=
                 r_remaining_length_captured_flag r;
               r_parse_buffer := pb; r_parse_index := 0;
               r_filter_step := FIND_COMPONENT_START;
               r_idx_string := idx_copy pb (r_idx_string r) 10 0 6;
               r_nvalue_string := r_nvalue_string r |}
          else if strncmp_eq0 pb 0 TEMPTEXT_nval 7 then
            {| r_uip_buf := store buf (u8 (pbi + 1)) 125;
               r_mqtt_partial_buffer_length := u8 (pbl + 1);
               r_pbi := u8 (pbi + 1);
               r_current_msg_length := r_current_msg_length r;
               r_remaining_length_captured_flag :=
                 r_remaining_length_captured_flag r;
               r_parse_buffer := pb; r_parse_index := pidx;
               r_filter_step := COMPLETE_MSG_RECEIVE;
               r_idx_string := r_idx_string r;
               r_nvalue_string :=
                 store (store (r_nvalue_string r) 0 (pb 13)) 1 0 |}
          else
            {| r_uip_buf := buf; r_mqtt_partial_buffer_length := pbl;
               r_pbi := pbi; r_current_msg_length := r_current_msg_length r;
               r_remaining_length_captured_flag :=
                 r_remaining_length_captured_flag r;
               r_parse_buffer := pb; r_parse_index := 0;
               r_filter_step := FIND_COMPONENT_START;
               r_idx_string := r_idx_string r;
               r_nvalue_string := r_nvalue_string r |}
        else
          {| r_uip_buf := buf; r_mqtt_partial_buffer_length := pbl;
             r_pbi := pbi; r_current_msg_length := r_current_msg_length r;
             r_remaining_length_captured_flag :=
               r_remaining_length_captured_flag r;
             r_parse_buffer := pb; r_parse_index := pidx;
             r_filter_step := CAPTURE_COMPONENT;
             r_idx_string := r_idx_string r;
             r_nvalue_string := r_nvalue_string r |} in
      if r_parse_index r1 =? 19 then
        {| r_uip_buf := r_uip_buf r1;
           r_mqtt_partial_buffer_length := r_mqtt_partial_buffer_length r1;
           r_pbi := r_pbi r1; r_current_msg_length := r_current_msg_length r1;
           r_remaining_length_captured_flag :=
             r_remaining_length_captured_flag r1;
           r_parse_buffer := r_parse_buffer r1; r_parse_index := 0;
           r_filter_step := FIND_COMPONENT_START;
           r_idx_string := r_idx_string r1;
           r_nvalue_string := r_nvalue_string r1 |}
      else r1
  | COMPLETE_MSG_RECEIVE => r
  end.

Inductive step_outcome :=
| Continue (r : reassembly)   (* go on with the next byte *)
| Break (r : reassembly)      (* [break]: leave the loop *)
| Complete (r : reassembly).  (* [current_msg_length == 0]: deliver *)

Definition set_counters (r : reassembly) (pbl pbi cml cap : Z) : reassembly :=
  {| r_uip_buf := r_uip_buf r; r_mqtt_partial_buffer_length := pbl;
     r_pbi := pbi; r_current_msg_length := cml;
     r_remaining_length_captured_flag := cap;
     r_parse_buffer := r_parse_buffer r; r_parse_index := r_parse_index r;
     r_filter_step := r_filter_step r; r_idx_string := r_idx_string r;
     r_nvalue_string := r_nvalue_string r |}.

Definition set_uip_buf (r : reassembly) (buf : bytes) : reassembly :=
  {| r_uip_buf := buf;
     r_mqtt_partial_buffer_length := r_mqtt_partial_buffer_length r;
     r_pbi := r_pbi r; r_current_msg_length := r_current_msg_length r;
     r_remaining_length_captured_flag := r_remaining_length_captured_flag r;
     r_parse_buffer := r_parse_buffer r; r_parse_index := r_parse_index r;
     r_filter_step := r_filter_step r; r_idx_string := r_idx_string r;
     r_nvalue_string := r_nvalue_string r |}.

(** The decision [if (current_msg_length == 0)] that ends the loop body;
    on completion the Remaining Length byte is rewritten first. *)
Definition domoticz_finish (r : reassembly) : step_outcome :=
  if r_current_msg_length r =? 0 then
    Complete (set_uip_buf r
                (store (r_uip_buf r) 1
                       (u8 (r_mqtt_partial_buffer_length r - 2))))
  else Continue r.

(** One round of the [while] loop of the Domoticz [mqtt_sync], up to the
    call of [mqtt_recv]. *)
Definition domoticz_step (r : reassembly) (b : Z) : step_outcome :=
  let r :=
    if r_mqtt_partial_buffer_length r =? 0 then
      {| r_uip_buf := r_uip_buf r;
         r_mqtt_partial_buffer_length := r_mqtt_partial_buffer_length r;
         r_pbi := r_pbi r; r_current_msg_length := r_current_msg_length r;
         r_remaining_length_captured_flag := 0;
         r_parse_buffer := r_parse_buffer r; r_parse_index := r_parse_index r;
         r_filter_step := CAPTURE_VARIABLE_HEADER_BYTE1;
         r_idx_string := store (r_idx_string r) 0 0;
         r_nvalue_string := store (r_nvalue_string r) 0 0 |}
    else r in
  let r := set_uip_buf r (store (r_uip_buf r) (r_pbi r) b) in
  let r := set_counters r (u8 (r_mqtt_partial_buffer_length r + 1))
                        (u8 (r_pbi r + 1)) (r_current_msg_length r)
                        (r_remaining_length_captured_flag r) in
  let buf := r_uip_buf r in
  if r_mqtt_partial_buffer_length r =? 1 then Continue r
  else
    let at2 := r_mqtt_partial_buffer_length r =? 2 in
    let r :=
      if at2 then
        set_counters r (r_mqtt_partial_buffer_length r) (r_pbi r)
          (u16 (Z.land (buf 1) 127))
          (if Z.land (buf 1) 128 =? 0 then 1
           else r_remaining_length_captured_flag r)
      else r in
    if at2 && negb (buf 1 =? 0) then Continue r
    else if (r_mqtt_partial_buffer_length r =? 3)
            && (r_remaining_length_captured_flag r =? 0) then
      Continue (set_counters r 2 2
                  (u16 (r_current_msg_length r + u16 (buf 2 * 128))) 1)
    else
      let filtered :=
        (2 <? r_mqtt_partial_buffer_length r)
        && (Z.land (buf 0) 240 =? 48) in
      let r :=
        if filtered then
          let r := set_counters r (u8 (r_mqtt_partial_buffer_length r - 1))
                                (u8 (r_pbi r - 1)) (r_current_msg_length r)
                                (r_remaining_length_captured_flag r) in
          let r := domoticz_filter r in
          set_counters r (r_mqtt_partial_buffer_length r) (r_pbi r)
                       (u16 (r_current_msg_length r - 1))
                       (r_remaining_length_captured_flag r)
        else r in
      if filtered && negb (r_current_msg_length r =? 0) then Continue r
      else if (2 <? r_mqtt_partial_buffer_length r)
              && negb (Z.land (r_uip_buf r 0) 240 =? 48) then
        if 59 <? r_current_msg_length r then Break r
        else
          domoticz_finish
            (set_counters r (r_mqtt_partial_buffer_length r) (r_pbi r)
                          (u16 (r_current_msg_length r - 1))
                          (r_remaining_length_captured_flag r))
      else domoticz_finish r.

Fixpoint domoticz_loop (c : mqtt_client) (g : globals) (chunk : list Z)
         (log : list (list Z)) : loop_result :=
  match chunk with
  | [] => LoopEnd c g log
  | b :: rest =>
    match domoticz_step (get_reassembly g) b with
    | Continue r => domoticz_loop c (set_reassembly g r) rest log
    | Break r => LoopEnd c (set_reassembly g r) log
    | Complete r =>
        match deliver domoticz_reset c (set_reassembly g r) log with
        | inl res => res
        | inr (c, g, log) => domoticz_loop c g rest log
        end
    end
  end.

Definition mqtt_sync_domoticz (flags : bool) (chunk : list Z)
           (c : mqtt_client) (g : globals)
  : mqtt_client * globals * Z * list (list Z) :=
  if flags && (0 <? Z.of_nat (length chunk))
  then finish_sync (domoticz_loop c g chunk [])
  else final_send c g [].

(** Feeding a sequence of chunks, one [mqtt_sync] call per chunk; the
    observations of the calls are concatenated. *)
Fixpoint feed (sync : list Z -> mqtt_client -> globals ->
                      mqtt_client * globals * Z * list (list Z))
         (chunks : list (list Z)) (c : mqtt_client) (g : globals)
  : mqtt_client * globals * list (list Z) :=
  match chunks with
  | [] => (c, g, [])
  | ch :: chunks' =>
      let '(c, g, _, log) := sync ch c g in
      let '(c, g, log') := feed sync chunks' c g in
      (c, g, log ++ log')
  end.

End WithApplication.

Arguments mqtt_client : clear implicits.

End Client.

(** * ARP table

    [uip_arp.c]: the table of IP to Ethernet address mappings, its
    initialisation, its periodic ageing and the update on an incoming ARP
    packet.  [arp_table] is the list of its [UIP_ARPTAB_SIZE] entries, and a
    loop [for(i = 0; i < UIP_ARPTAB_SIZE; ++i)] is a recursion over that
    list.  The index [i] is a [uint8_t], so the loops end for tables of at
    most 255 entries only.  The file-scope scratch variables [i], [c] and
    [tmpage] are written before they are read in every function and are
    local values here. *)

Module Arp.

(** [struct arp_entry]: the IP address as its two 16-bit halves, the six
    bytes of the Ethernet address, the value of [arptime] at the last
    update. *)
Record arp_entry := {
  ipaddr : Z * Z;
  ethaddr : list Z;
  time : Z
}.

(** The statics [arp_table] and [arptime]. *)
Record arp_state := {
  arp_table : list arp_entry;
  arptime : Z
}.

(** [memset(tabptr->ipaddr, 0, 4)]. *)
Definition clear_ipaddr (e : arp_entry) : arp_entry :=
  {| ipaddr := (0, 0); ethaddr := ethaddr e; time := time e |}.

Definition uip_arp_init (s : arp_state) : arp_state :=
  {| arp_table := map clear_ipaddr (arp_table s); arptime := arptime s |}.

Section WithOptions.
(** [UIP_ARP_MAXAGE] of [uipopt.h]. *)
Variable UIP_ARP_MAXAGE : Z.

(** [arptime - tabptr->time] is computed in [int]: the operands are promoted
    and the difference of two bytes does not wrap. *)
Definition uip_arp_timer (s : arp_state) : arp_state :=
  let arptime := u8 (arptime s + 1) in
  {| arp_table :=
       map (fun tabptr =>
              if negb (Z.lor (fst (ipaddr tabptr)) (snd (ipaddr tabptr)) =? 0)
                 && (UIP_ARP_MAXAGE <=? arptime - time tabptr)
              then clear_ipaddr tabptr else tabptr)
           (arp_table s);
     arptime := arptime |}.

End WithOptions.

(** First loop of [uip_arp_update]: the first entry in use that holds the
    address gets the Ethernet address and the time, and the function
    returns; [None] when the loop ends without a match. *)
Fixpoint refresh (ip : Z * Z) (eth : list Z) (now : Z)
         (table : list arp_entry) : option (list arp_entry) :=
  match table with
  | [] => None
  | tabptr :: rest =>
      if negb (fst (ipaddr tabptr) =? 0) && negb (snd (ipaddr tabptr) =? 0)
         && ((fst ip =? fst (ipaddr tabptr))
             && (snd ip =? snd (ipaddr tabptr)))
      then Some ({| ipaddr := ipaddr tabptr; ethaddr := firstn 6 eth;
                    time := now |} :: rest)
      else option_map (cons tabptr) (refresh ip eth now rest)
  end.

(** Second loop: the index of the first unused entry, the size of the table
    when there is none. *)
Fixpoint first_unused (i : nat) (table : list arp_entry) : nat :=
  match table with
  | [] => i
  | tabptr :: rest =>
      if (fst (ipaddr tabptr) =? 0) && (snd (ipaddr tabptr) =? 0) then i
      else first_unused (S i) rest
  end.

(** Third loop: the index of the oldest entry. *)
Fixpoint oldest (now : Z) (i : nat) (table : list arp_entry)
         (tmpage : Z) (c : nat) : nat :=
  match table with
  | [] => c
  | tabptr :: rest =>
      if tmpage <? now - time tabptr
      then oldest now (S i) rest (u8 (now - time tabptr)) i
      else oldest now (S i) rest tmpage c
  end.

Definition uip_arp_update (s : arp_state) (ip : Z * Z) (eth : list Z)
  : arp_state :=
  match refresh ip eth (arptime s) (arp_table s) with
  | Some table => {| arp_table := table; arptime := arptime s |}
  | None =>
      let i := first_unused 0 (arp_table s) in
      let i := if Nat.eqb i (length (arp_table s))
               then oldest (arptime s) 0 (arp_table s) 0 0
               else i in
      {| arp_table :=
           MQ.update_nth i
             (fun _ => {| ipaddr := ip; ethaddr := firstn 6 eth;
                          time := arptime s |})
             (arp_table s);
         arptime := arptime s |}
  end.

End Arp.

(** * Vocabulary of the statements *)

(** [all_from n x P]: [P] holds on the [n] integers from [x] on. *)
Fixpoint all_from (n : nat) (x : Z) (P : Z -> bool) : bool :=
  match n with
  | O => true
  | S n' => P x && all_from n' (x + 1) P
  end.

(** The variable-length encoding of the Remaining Length, at most [n] bytes:
    seven bits per byte, least significant group first, bit 7 set on every
    byte but the last. *)
Fixpoint varint (n : nat) (x : Z) : list Z :=
  match n with
  | O => []
  | S n' =>
      if 127 <? x then (x mod 128 + 128) :: varint n' (x / 128)
      else [x mod 128]
  end.

(** [holds m off l]: the array [m] contains [l] from index [off] on. *)
Fixpoint holds (m : bytes) (off : Z) (l : list Z) : Prop :=
  match l with
  | [] => True
  | b :: l' => m off = b /\ holds m (off + 1) l'
  end.

Definition zeros : bytes := fun _ => 0.

Definition mk_fixed_header (ct cf rl : Z) : Codec.mqtt_fixed_header :=
  {| Codec.control_type := ct; Codec.control_flags := cf;
     Codec.remaining_length := rl |}.

(** The bytes the headers [l] account for. *)
Definition sum_sizes (l : list MQ.mqtt_queued_message) : Z :=
  fold_right (fun m a => MQ.size m + a) 0 l.

(** The frames of [q] lie back to back from [off] up to [curr], in the order
    of registration. *)
Fixpoint laid_out (off : Z) (q : list MQ.mqtt_queued_message) (curr : Z) : Prop :=
  match q with
  | [] => off = curr
  | m :: q' => MQ.start m = off /\ 0 <= MQ.size m /\ laid_out (off + MQ.size m) q' curr
  end.

(** The layout [mqtt_mq_register] maintains; the arena size is a
    [uint16_t]. *)
Definition wf_queue (mq : MQ.mqtt_message_queue) : Prop :=
  laid_out 0 (MQ.queue mq) (MQ.curr mq) /\ MQ.curr mq <= 65535.

(** A retained header after [removed] bytes were reclaimed below it. *)
Definition rebase (removed : Z) (m : MQ.mqtt_queued_message) :=
  MQ.set_start m (MQ.start m - removed).

(** The frame a header refers to. *)
Definition msg_bytes (mem : bytes) (m : MQ.mqtt_queued_message) : list Z :=
  load_range mem (MQ.start m) (Z.to_nat (MQ.size m)).

(** ** Sample queues and the identifier table *)

(** Concrete queues for concrete evaluations: frames of 2, 3 and 4 bytes
    registered in this order over the arena bytes 1..9. *)
Definition sample_msg (start size : Z) (st : MQ.MQTTQueuedMessageState)
  : MQ.mqtt_queued_message :=
  {| MQ.start := start; MQ.size := size; MQ.state := st; MQ.time_sent := 0;
     MQ.control_type := MQTT_CONTROL_PUBLISH; MQ.packet_id := 0 |}.

Definition sample_queue (s0 s1 s2 : MQ.MQTTQueuedMessageState)
  : MQ.mqtt_message_queue :=
  {| MQ.mem := store_list zeros 0 [1; 2; 3; 4; 5; 6; 7; 8; 9];
     MQ.mem_size := 100; MQ.curr := 9;
     MQ.queue := [sample_msg 0 2 s0; sample_msg 2 3 s1; sample_msg 5 4 s2];
     MQ.curr_sz := 49 |}.

(** A table that maps each state on the cycle of the LFSR through 1 to its
    position on that cycle. *)
Fixpoint orbit_table (n : nat) (x k : Z) (t : PositiveMap.t Z)
  : PositiveMap.t Z :=
  match n with
  | O => t
  | S n' =>
      orbit_table n' (Client.lfsr_step x) (k + 1)
                  (PositiveMap.add (Z.to_pos x) k t)
  end.

Definition lfsr_table : PositiveMap.t Z :=
  orbit_table (Z.to_nat 65535) 1 0 (PositiveMap.empty Z).

Definition lfsr_index (t : PositiveMap.t Z) (x : Z) : Z :=
  match PositiveMap.find (Z.to_pos x) t with Some k => k | None => -1 end.

(** One step of the LFSR stays among the nonzero 16-bit values and advances
    the position by one, modulo the period 65535. *)
Definition lfsr_index_ok (t : PositiveMap.t Z) (x : Z) : bool :=
  let y := Client.lfsr_step x in
  (0 <? y) && (y <? 65536) && (0 <=? lfsr_index t x)
  && (lfsr_index t x <? 65535)
  && (lfsr_index t y =? (lfsr_index t x + 1) mod 65535).

(** A client over a given queue, for concrete evaluations. *)
Definition sample_client (q : MQ.mqtt_message_queue) (err lfsr : Z)
  : Client.mqtt_client unit :=
  {| Client.mq := q; Client.error := err; Client.keep_alive := 60;
     Client.response_timeout := 30; Client.number_of_timeouts := 0;
     Client.pid_lfsr := lfsr; Client.send_offset := 0;
     Client.time_of_last_send := 0;
     Client.publish_response_callback_state := tt |}.

(** A queue of two frames whose first header carries the identifier [pid]. *)
Definition sample_queue2 (pid : Z) : MQ.mqtt_message_queue :=
  {| MQ.mem := store_list zeros 0 [1; 2; 3; 4; 5];
     MQ.mem_size := 100; MQ.curr := 5;
     MQ.queue := [MQ.set_packet_id
                    (sample_msg 0 2 MQ.MQTT_QUEUED_AWAITING_ACK) pid;
                  sample_msg 2 3 MQ.MQTT_QUEUED_UNSENT];
     MQ.curr_sz := 67 |}.

Definition packet_ids (q : list MQ.mqtt_queued_message) : list Z :=
  map MQ.packet_id q.

(** ** Requests *)

(** What a request function reports to its caller and leaves in the queue. *)
Definition outcome {A : Type} (r : option (Client.mqtt_client A * Z))
  : option (Z * list (Z * Z * Z)) :=
  match r with
  | None => None
  | Some (c, rv) =>
      Some (rv, map (fun m => (MQ.start m, MQ.size m, MQ.control_type m))
                    (MQ.queue (Client.mq c)))
  end.

(** A ten-byte application message. *)
Definition ten_bytes : bytes :=
  store_list zeros 0 [48; 49; 50; 51; 52; 53; 54; 55; 56; 57].

(** ** The receive engine *)

(** Globals with a given partial buffer and reassembly counters, everything
    else cleared. *)
Definition sample_globals (buf : bytes) (pbl pbi cml : Z) : Client.globals :=
  {| Client.second_counter := 0; Client.mqtt_start := 0;
     Client.MQTT_error_status := 0; Client.connack_received := 0;
     Client.suback_received := 0; Client.uip_buf := buf;
     Client.mqtt_partial_buffer_length := pbl; Client.pbi := pbi;
     Client.current_msg_length := cml;
     Client.remaining_length_captured_flag := 0;
     Client.parse_buffer := zeros; Client.parse_index := 0;
     Client.filter_step := Client.CAPTURE_VARIABLE_HEADER_BYTE1;
     Client.idx_string := zeros; Client.nvalue_string := zeros |}.

Definition sample_response : Codec.mqtt_response :=
  {| Codec.fixed_header := mk_fixed_header 0 0 0;
     Codec.connack := {| Codec.session_present_flag := 0;
                         Codec.return_code := 0 |};
     Codec.publish := {| Codec.dup_flag := 0; Codec.qos_level := 0;
                         Codec.retain_flag := 0; Codec.topic_name_size := 0;
                         Codec.topic_name := 0;
                         Codec.application_message := 0;
                         Codec.application_message_size := 0 |};
     Codec.suback := {| Codec.suback_packet_id := 0; Codec.return_codes := 0;
                        Codec.num_return_codes := 0 |} |}.

(** ** Stream reassembly, Home Assistant build *)

(** The Home Assistant reassembler has taken the bytes [pre] of a frame whose
    Remaining Length byte is [L]. *)
Definition ha_reassembling (L : Z) (pre : list Z) (g : Client.globals) : Prop :=
  Client.mqtt_partial_buffer_length g = Z.of_nat (length pre) /\
  Client.pbi g = Z.of_nat (length pre) /\
  holds (Client.uip_buf g) 0 pre /\
  (2 <= Z.of_nat (length pre) ->
   Client.current_msg_length g = L - (Z.of_nat (length pre) - 2)).

Definition log_of {A : Type} (r : Client.loop_result (A := A)) : list (list Z) :=
  match r with
  | Client.LoopReturn _ _ _ log => log
  | Client.LoopEnd _ _ log => log
  end.

Definition globals_of {A : Type} (r : Client.loop_result (A := A)) : Client.globals :=
  match r with
  | Client.LoopReturn _ g _ _ => g
  | Client.LoopEnd _ g _ => g
  end.

(** ** Stream reassembly, Domoticz build *)

(** The payload of the Domoticz scenario: LF TAB ["idx" : 42,] followed by
    LF TAB ["nvalue" : 1,]. *)
Definition domoticz_payload : list Z :=
  [10; 9; 34; 105; 100; 120; 34; 32; 58; 32; 52; 50; 44;
   10; 9; 34; 110; 118; 97; 108; 117; 101; 34; 32; 58; 32; 49; 44].


(** The Domoticz loop body iterated over bytes none of which completes a
    message or leaves the loop. *)
Fixpoint domoticz_run (r : Client.reassembly) (bs : list Z)
  : option Client.reassembly :=
  match bs with
  | [] => Some r
  | b :: bs' =>
      match Client.domoticz_step r b with
      | Client.Continue r' => domoticz_run r' bs'
      | _ => None
      end
  end.

(** The loop body as it runs inside the variable header and payload of a
    PUBLISH: the byte is captured, uncounted, filtered, and the countdown
    decides. *)
Definition publish_step (r : Client.reassembly) (b : Z) : Client.step_outcome :=
  let r := Client.set_uip_buf r (store (Client.r_uip_buf r) (Client.r_pbi r) b) in
  let r := Client.set_counters r (Client.r_mqtt_partial_buffer_length r)
             (Client.r_pbi r) (Client.r_current_msg_length r)
             (Client.r_remaining_length_captured_flag r) in
  let r := Client.domoticz_filter r in
  let r := Client.set_counters r (Client.r_mqtt_partial_buffer_length r)
             (Client.r_pbi r) (u16 (Client.r_current_msg_length r - 1))
             (Client.r_remaining_length_captured_flag r) in
  if negb (Client.r_current_msg_length r =? 0) then Client.Continue r
  else Client.domoticz_finish r.

(** The counters are where [publish_step] is the loop body. *)
Definition filtering (r : Client.reassembly) : bool :=
  (2 <=? Client.r_mqtt_partial_buffer_length r)
  && (Client.r_mqtt_partial_buffer_length r <? 200)
  && (1 <=? Client.r_pbi r) && (Client.r_pbi r <? 200)
  && (Client.r_remaining_length_captured_flag r =? 1).

(** [publish_step] over a whole byte sequence whose last byte, and only the
    last, completes the message. *)
Fixpoint publish_all (r : Client.reassembly) (bs : list Z)
  : option Client.reassembly :=
  match bs with
  | [] => None
  | b :: bs' =>
      if filtering r then
        match publish_step r b, bs' with
        | Client.Continue r', _ :: _ => publish_all r' bs'
        | Client.Complete r', [] => Some r'
        | _, _ => None
        end
      else None
  end.

(** The state between two components: five bytes of the reduced message are
    in place and the filter looks for the next LF. *)
Definition finding (buf : bytes) (cml : Z) (pb idx nv : bytes)
  : Client.reassembly :=
  {| Client.r_uip_buf := buf; Client.r_mqtt_partial_buffer_length := 5;
     Client.r_pbi := 5; Client.r_current_msg_length := cml;
     Client.r_remaining_length_captured_flag := 1;
     Client.r_parse_buffer := pb; Client.r_parse_index := 0;
     Client.r_filter_step := Client.FIND_COMPONENT_START;
     Client.r_idx_string := idx; Client.r_nvalue_string := nv |}.




(** ** Stream reassembly, Domoticz build: the filter *)









(** The reassembly state with another countdown. *)
Definition with_cml (r : Client.reassembly) (cml : Z) : Client.reassembly :=
  Client.set_counters r (Client.r_mqtt_partial_buffer_length r)
    (Client.r_pbi r) cml (Client.r_remaining_length_captured_flag r).











(** ** Frames on the wire *)

(** Two arrays with the same content. *)
Definition mem_eq (m1 m2 : bytes) : Prop := forall j, m1 j = m2 j.

(** A 16-bit value in network byte order. *)
Definition be16 (x : Z) : list Z := [x / 256; x mod 256].

(** A control packet: control byte, Remaining Length, and the [body] the
    Remaining Length counts. *)
Definition frame (ctl : Z) (body : list Z) : list Z :=
  ctl :: varint 5 (Z.of_nat (length body)) ++ body.

(** ** The send queue, continued *)

(** A header whose message is still to be sent or acknowledged. *)
Definition pending (m : MQ.mqtt_queued_message) : bool :=
  negb (MQ.state_eqb (MQ.state m) MQ.MQTT_QUEUED_COMPLETE).

(** A header without its position in the arena. *)
Definition unplaced (m : MQ.mqtt_queued_message) :=
  (MQ.size m, MQ.state m, MQ.time_sent m, MQ.control_type m, MQ.packet_id m).

(** The test of [mqtt_mq_find] on one header. *)
Definition found (ct : Z) (pid : option Z) (m : MQ.mqtt_queued_message) : bool :=
  (MQ.control_type m =? ct)
  && match pid with
     | None => pending m
     | Some p => p =? MQ.packet_id m
     end.

(** ** The error discipline *)

(** A string the loop of [mqtt_pack_str] gets through: its counter is an
    [int16_t]. *)
Definition short_string (s : list Z) : Prop := Z.of_nat (length s) <= 32767.

Definition short_option (s : option (list Z)) : Prop :=
  match s with Some x => short_string x | None => True end.

(** What an engine function reports: [MQTT_OK], or a negative value that it
    has also left in [client->error]. *)
Definition reported {A : Type} {H : MqttHeader}
           (r : Client.mqtt_client A * Z) : Prop :=
  (snd r = MQTT_OK /\ 0 <= Client.error (fst r)) \/
  (snd r < 0 /\ Client.error (fst r) = snd r).

(** ** The engines *)

(** A header [mqtt_send] passes over: sent and complete, or awaiting an
    acknowledgement that is not overdue. *)
Definition passed_over {A : Type} (g : Client.globals)
           (c : Client.mqtt_client A) (x : MQ.mqtt_queued_message) : Prop :=
  MQ.state x = MQ.MQTT_QUEUED_COMPLETE \/
  (MQ.state x = MQ.MQTT_QUEUED_AWAITING_ACK /\
   Client.second_counter g
   <= u32 (MQ.time_sent x + Client.response_timeout c)).

(** The state [mqtt_send] gives a message of control type [ct] once it is
    handed to the transport. *)
Definition state_after_send (ct : Z) : MQ.MQTTQueuedMessageState :=
  if (ct =? MQTT_CONTROL_DISCONNECT) || (ct =? MQTT_CONTROL_PUBLISH)
  then MQ.MQTT_QUEUED_COMPLETE
  else MQ.MQTT_QUEUED_AWAITING_ACK.

(** No keep-alive ping is due. *)
Definition no_ping_due {A : Type} {H : MqttHeader} (g : Client.globals)
           (c : Client.mqtt_client A) (last_send : Z) : Prop :=
  (u32 (last_send + u32 (Client.keep_alive c * 3 / 4))
   <? Client.second_counter g)
  && (Client.mqtt_start g =? MQTT_START_COMPLETE) = false.

(** The client with the queue entries replaced. *)
Definition with_queue {A : Type} (c : Client.mqtt_client A)
           (q : list MQ.mqtt_queued_message) : Client.mqtt_client A :=
  Client.set_mq c (MQ.set_queue (Client.mq c) q).

(** ** Stream reassembly, Domoticz build: other control packets *)

(** The reassembler inside a frame that is not a PUBLISH: [n] bytes are in
    the partial buffer and [cml] bytes are still to come. *)
Definition passing (buf : bytes) (n cml : Z) (pb : bytes) (pidx : Z)
           (fs : Client.filter_step_t) (idx nv : bytes) : Client.reassembly :=
  {| Client.r_uip_buf := buf; Client.r_mqtt_partial_buffer_length := n;
     Client.r_pbi := n; Client.r_current_msg_length := cml;
     Client.r_remaining_length_captured_flag := 1;
     Client.r_parse_buffer := pb; Client.r_parse_index := pidx;
     Client.r_filter_step := fs; Client.r_idx_string := idx;
     Client.r_nvalue_string := nv |}.

(** ** The CONNECT frame *)

(** The enumerators the CONNECT packer uses have the values of the MQTT
    3.1.1 wire format. *)
Definition connect_constants (H : MqttHeader) : Prop :=
  MQTT_CONNECT_RESERVED = 1 /\ MQTT_CONNECT_WILL_FLAG = 4 /\
  MQTT_CONNECT_WILL_RETAIN = 32 /\ MQTT_CONNECT_PASSWORD = 64 /\
  MQTT_CONNECT_USER_NAME = 128 /\ MQTT_PROTOCOL_LEVEL = 4.

(** The Connect Flags byte: Clean Session and Will QoS as the caller gave
    them, Will Flag and Will Retain set, User Name and Password by the
    presence of the strings, the reserved bit clear. *)
Definition connect_flags_byte (cf : Z) (user pw : bool) : Z :=
  Z.lor (Z.land cf 26)
        (36 + (if user then 128 else 0) + (if pw then 64 else 0)).

(** A length-prefixed string, and one that may be absent. *)
Definition mqtt_string (s : list Z) : list Z :=
  be16 (Z.of_nat (length s)) ++ s.

Definition optional_string (s : option (list Z)) : list Z :=
  match s with Some x => mqtt_string x | None => [] end.

Definition present {T} (s : option T) : bool :=
  match s with Some _ => true | None => false end.

(** Variable header and payload of a CONNECT. *)
Definition connect_body (cf ka : Z) (client_id will_topic : list Z)
           (will_message : bytes) (will_message_size : Z)
           (user_name password : option (list Z)) : list Z :=
  [0; 4; 77; 81; 84; 84; 4;
   connect_flags_byte cf (present user_name) (present password)]
  ++ be16 ka ++ mqtt_string client_id ++ mqtt_string will_topic
  ++ be16 will_message_size
  ++ load_range will_message 0 (Z.to_nat will_message_size)
  ++ optional_string user_name ++ optional_string password.

(** ** The ARP table *)

(** The entries of a table that hold the address [ip]. *)
Definition entries_for (ip : Z * Z) (table : list Arp.arp_entry) : nat :=
  length (filter (fun e => (fst ip =? fst (Arp.ipaddr e))
                           && (snd ip =? snd (Arp.ipaddr e))) table).

(** An entry is in use for the timer when its address is not 0.0.0.0. *)
Definition in_use (e : Arp.arp_entry) : Prop :=
  Z.lor (fst (Arp.ipaddr e)) (snd (Arp.ipaddr e)) <> 0.

Definition sample_arp_entry (a b t : Z) : Arp.arp_entry :=
  {| Arp.ipaddr := (a, b); Arp.ethaddr := [0; 17; 34; 51; 68; 85];
     Arp.time := t |}.

Definition sample_arp_state : Arp.arp_state :=
  {| Arp.arp_table := [sample_arp_entry 49320 257 3;
                       sample_arp_entry 0 0 0;
                       sample_arp_entry 49320 258 200];
     Arp.arptime := 130 |}.

(** ** Samples for the engines *)

(** A two-byte frame of control type [ct] at the start of the arena. *)
Definition sample_header (ct pid : Z) (st : MQ.MQTTQueuedMessageState)
  : MQ.mqtt_queued_message :=
  {| MQ.start := 0; MQ.size := 2; MQ.state := st; MQ.time_sent := 0;
     MQ.control_type := ct; MQ.packet_id := pid |}.

(** A queue that holds one header. *)
Definition sample_queue1 (m : MQ.mqtt_queued_message)
  : MQ.mqtt_message_queue :=
  {| MQ.mem := store_list zeros 0 [1; 2]; MQ.mem_size := 100; MQ.curr := 2;
     MQ.queue := [m]; MQ.curr_sz := 84 |}.

(** A transport that takes every byte it is given. *)
Definition sample_transport (l : list Z) : Z := Z.of_nat (length l).

(** Globals of a running connection at second 100. *)
Definition sample_running_globals : Client.globals :=
  {| Client.second_counter := 100; Client.mqtt_start := 20;
     Client.MQTT_error_status := 0; Client.connack_received := 0;
     Client.suback_received := 0; Client.uip_buf := zeros;
     Client.mqtt_partial_buffer_length := 0; Client.pbi := 0;
     Client.current_msg_length := 0;
     Client.remaining_length_captured_flag := 0;
     Client.parse_buffer := zeros; Client.parse_index := 0;
     Client.filter_step := Client.CAPTURE_VARIABLE_HEADER_BYTE1;
     Client.idx_string := zeros; Client.nvalue_string := zeros |}.

(** * Properties *)

(** ** Arithmetic and memory lemmas *)

Lemma all_from_spec (P : Z -> bool) :
  forall n x, all_from n x P = true ->
  forall y, x <= y < x + Z.of_nat n -> P y = true.
Proof.
  induction n as [|n IH]; intros x Hall y Hy.
  - simpl in Hy. lia.
  - simpl in Hall. apply andb_prop in Hall as [Hx Hrest].
    destruct (Z.eq_dec y x) as [->|Hne]; [assumption|].
    apply (IH (x + 1) Hrest). lia.
Qed.

Lemma store_eq m i v : store m i v i = v.
Proof. unfold store. now rewrite Z.eqb_refl. Qed.

Lemma store_neq m i v j : j <> i -> store m i v j = m j.
Proof. intro Hne. unfold store. apply Z.eqb_neq in Hne. now rewrite Hne. Qed.

Lemma store_list_below : forall l m off j,
  j < off -> store_list m off l j = m j.
Proof.
  induction l as [|b l IH]; intros m off j Hj; simpl; [reflexivity|].
  rewrite IH by lia. apply store_neq. lia.
Qed.

Lemma store_list_holds : forall l m off, holds (store_list m off l) off l.
Proof.
  induction l as [|b l IH]; intros m off; simpl; [exact I|].
  split; [|apply IH].
  rewrite store_list_below by lia. apply store_eq.
Qed.

Lemma holds_load_range : forall l m off,
  holds m off l -> load_range m off (length l) = l.
Proof.
  unfold load_range.
  induction l as [|b l IH]; intros m off Hh; simpl; [reflexivity|].
  destruct Hh as [Hb Hl]. f_equal.
  - now rewrite Z.add_0_r.
  - rewrite <- seq_shift, map_map.
    etransitivity; [|exact (IH m (off + 1) Hl)].
    apply map_ext. intro k. f_equal. lia.
Qed.

Lemma u8_small x : 0 <= x < 256 -> u8 x = x.
Proof. intro Hx. unfold u8. now apply Z.mod_small. Qed.

Lemma u16_small x : 0 <= x < 65536 -> u16 x = x.
Proof. intro Hx. unfold u16. now apply Z.mod_small. Qed.

Lemma u32_small x : 0 <= x < 4294967296 -> u32 x = x.
Proof. intro Hx. unfold u32. now apply Z.mod_small. Qed.

Lemma u16_range x : 0 <= u16 x < 65536.
Proof. unfold u16. apply Z.mod_pos_bound. lia. Qed.

Lemma i16_small x : 0 <= x < 32768 -> i16 x = x.
Proof.
  intro Hx. unfold i16. rewrite Z.mod_small by lia.
  destruct (Z.ltb_spec x 32768); lia.
Qed.

Lemma land_127 x : 0 <= x -> Z.land x 127 = x mod 128.
Proof.
  intros _. change 127 with (Z.ones 7). rewrite Z.land_ones by lia.
  reflexivity.
Qed.

Lemma shiftr_7 x : Z.shiftr x 7 = x / 128.
Proof. rewrite Z.shiftr_div_pow2 by lia. reflexivity. Qed.

(** Bit facts about a 7-bit group, checked on all 128 values. *)
Lemma low7_facts b : 0 <= b < 128 ->
  Z.land b 127 = b /\ Z.land b 128 = 0 /\ Z.lor b 128 = b + 128 /\
  Z.land (b + 128) 127 = b /\ Z.land (b + 128) 128 = 128.
Proof.
  intro Hb.
  assert (Hall : all_from 128 0 (fun b =>
            (Z.land b 127 =? b) && (Z.land b 128 =? 0) &&
            (Z.lor b 128 =? b + 128) && (Z.land (b + 128) 127 =? b) &&
            (Z.land (b + 128) 128 =? 128)) = true) by (vm_compute; reflexivity).
  pose proof (all_from_spec _ _ _ Hall b ltac:(lia)) as Hc.
  cbv beta in Hc.
  repeat (apply andb_prop in Hc as [Hc ?]).
  repeat match goal with
         | Hq : (_ =? _) = true |- _ => apply Z.eqb_eq in Hq
         end.
  repeat split; assumption.
Qed.

(** The first header byte holds the type in its high and the flags in its
    low nibble, checked on all 256 combinations. *)
Lemma byte0_facts ct cf : 0 <= ct < 16 -> 0 <= cf < 16 ->
  let b := Z.lor (u8 (Z.land (Z.shiftl ct 4) 240)) (u8 (Z.land cf 15)) in
  u8 (Z.shiftr b 4) = ct /\ u8 (Z.land b 15) = cf.
Proof.
  intros Hct Hcf.
  assert (Hall : all_from 256 0 (fun x =>
            let ct := x / 16 in let cf := x mod 16 in
            let b := Z.lor (u8 (Z.land (Z.shiftl ct 4) 240))
                           (u8 (Z.land cf 15)) in
            (u8 (Z.shiftr b 4) =? ct) && (u8 (Z.land b 15) =? cf)) = true)
    by (vm_compute; reflexivity).
  pose proof (all_from_spec _ _ _ Hall (16 * ct + cf) ltac:(lia)) as Hc.
  cbv beta zeta in Hc.
  replace ((16 * ct + cf) / 16) with ct in Hc
    by (apply Z.div_unique with cf; lia).
  replace ((16 * ct + cf) mod 16) with cf in Hc
    by (apply Z.mod_unique with ct; lia).
  apply andb_prop in Hc as [H1 H2].
  apply Z.eqb_eq in H1, H2. cbv zeta. split; assumption.
Qed.

(** ** The codec *)

Section CodecProofs.
Context {H : MqttHeader}.

Lemma varint_length_pos : forall n x, (0 < n)%nat -> (1 <= length (varint n x))%nat.
Proof.
  intros [|n] x Hn; [lia|]. simpl. destruct (127 <? x); simpl; lia.
Qed.

Lemma varint_length_le : forall n x, (length (varint n x) <= n)%nat.
Proof.
  induction n as [|n IH]; intro x; simpl; [lia|].
  destruct (127 <? x); simpl; [specialize (IH (x / 128))|]; lia.
Qed.

Lemma pack_loop_varint : forall f mem pos bufsz rl,
  (0 < f)%nat ->
  0 <= rl < 128 ^ Z.of_nat f ->
  Z.of_nat (length (varint f rl)) < bufsz <= 65535 ->
  Codec.pack_loop f mem pos bufsz rl =
  Codec.PDone (store_list mem (pos + 1) (varint f rl))
              (pos + Z.of_nat (length (varint f rl)))
              (bufsz - Z.of_nat (length (varint f rl))).
Proof.
  induction f as [|f IH]; intros mem pos bufsz rl Hf Hrl Hsz.
  - lia.
  - cbn [Codec.pack_loop varint] in *.
    assert (Hm : 0 <= rl mod 128 < 128) by (apply Z.mod_pos_bound; lia).
    destruct (low7_facts _ Hm) as (_ & Hl128 & Hlor & _ & Hl128').
    rewrite land_127 by lia. rewrite (u8_small (rl mod 128)) by lia.
    rewrite shiftr_7.
    destruct (Z.ltb_spec 127 rl) as [Hbig|Hsmall].
    + cbn [length] in Hsz |- *.
      rewrite u16_small by lia.
      destruct (Z.eqb_spec (bufsz - 1) 0) as [E|_]; [lia|].
      rewrite Hlor, Hl128'. cbn [Z.eqb negb].
      assert (Hdiv : 0 <= rl / 128 < 128 ^ Z.of_nat f).
      { rewrite Nat2Z.inj_succ, Z.pow_succ_r in Hrl by lia.
        split; [apply Z.div_pos; lia|apply Z.div_lt_upper_bound; lia]. }
      assert (Hf' : (0 < f)%nat).
      { destruct f; [simpl in Hdiv; lia|lia]. }
      rewrite IH by lia. cbn [store_list]. f_equal; lia.
    + cbn [length] in Hsz |- *.
      rewrite u16_small by lia.
      destruct (Z.eqb_spec (bufsz - 1) 0) as [E|_]; [lia|].
      rewrite Hl128. cbn [Z.eqb negb store_list]. f_equal; lia.
Qed.

Lemma unpack_loop_varint : forall f mem pos bufsz k acc rl,
  (0 < f)%nat ->
  0 <= rl < 128 ^ Z.of_nat f ->
  holds mem (pos + 1) (varint f rl) ->
  Z.of_nat (length (varint f rl)) < bufsz <= 65535 ->
  0 <= k -> k + Z.of_nat (length (varint f rl)) <= 4 ->
  0 <= acc -> acc + rl * 2 ^ (7 * k) < 4294967296 ->
  Codec.unpack_loop f mem pos bufsz (7 * k) acc =
  Codec.UDone (pos + Z.of_nat (length (varint f rl)))
              (bufsz - Z.of_nat (length (varint f rl)))
              (acc + rl * 2 ^ (7 * k)).
Proof.
  induction f as [|f IH]; intros mem pos bufsz k acc rl Hf Hrl Hmem Hsz Hk Hk4 Hacc Hbound.
  - lia.
  - cbn [Codec.unpack_loop varint] in *.
    assert (Hm : 0 <= rl mod 128 < 128) by (apply Z.mod_pos_bound; lia).
    destruct (low7_facts _ Hm) as (Hl127 & Hl128 & _ & Hl127' & Hl128').
    assert (Hp : 0 < 2 ^ (7 * k)) by (apply Z.pow_pos_nonneg; lia).
    assert (Hrl_eq : rl = 128 * (rl / 128) + rl mod 128) by (apply Z.div_mod; lia).
    assert (Hdivnn : 0 <= rl / 128) by (apply Z.div_pos; lia).
    destruct (Z.eqb_spec (7 * k) 28) as [E|_].
    { pose proof (varint_length_pos (S f) rl ltac:(lia)) as Hl.
      cbn [varint] in Hl. lia. }
    destruct (Z.ltb_spec 127 rl) as [Hbig|Hsmall].
    + cbn [length holds] in Hsz, Hk4, Hmem |- *. destruct Hmem as [Hb Hrest].
      rewrite u16_small by lia.
      destruct (Z.eqb_spec (bufsz - 1) 0) as [E|_]; [lia|].
      rewrite Hb, Hl127', Hl128'. cbn [Z.eqb negb].
      rewrite Z.shiftl_mul_pow2 by lia.
      assert (Hstep : rl * 2 ^ (7 * k) =
                rl mod 128 * 2 ^ (7 * k) + rl / 128 * 2 ^ (7 * (k + 1))).
      { replace (7 * (k + 1)) with (7 * k + 7) by lia.
        rewrite Z.pow_add_r by lia. change (2 ^ 7) with 128.
        rewrite Hrl_eq at 1. ring. }
      assert (0 <= rl / 128 * 2 ^ (7 * (k + 1))).
      { apply Z.mul_nonneg_nonneg; [lia|]. apply Z.pow_nonneg. lia. }
      assert (0 <= rl mod 128 * 2 ^ (7 * k)) by (apply Z.mul_nonneg_nonneg; lia).
      rewrite u32_small by lia.
      replace (7 * k + 7) with (7 * (k + 1)) by lia.
      assert (Hdiv : 0 <= rl / 128 < 128 ^ Z.of_nat f).
      { rewrite Nat2Z.inj_succ, Z.pow_succ_r in Hrl by lia.
        split; [lia|apply Z.div_lt_upper_bound; lia]. }
      assert (Hf' : (0 < f)%nat).
      { destruct f; [simpl in Hdiv; lia|lia]. }
      rewrite (IH mem (pos + 1) (bufsz - 1) (k + 1)
                  (acc + rl mod 128 * 2 ^ (7 * k)) (rl / 128)); try lia; try assumption.
      f_equal; lia.
    + cbn [length holds] in Hsz, Hk4, Hmem |- *. destruct Hmem as [Hb _].
      rewrite u16_small by lia.
      destruct (Z.eqb_spec (bufsz - 1) 0) as [E|_]; [lia|].
      rewrite Hb, Hl127, Hl128. cbn [Z.eqb negb].
      rewrite Z.shiftl_mul_pow2 by lia.
      rewrite Z.mod_small in * by lia.
      rewrite u32_small by nia.
      f_equal; lia.
Qed.

Lemma varint_length_bound : forall n f rl,
  (1 <= n <= f)%nat -> 0 <= rl < 128 ^ Z.of_nat n ->
  (length (varint f rl) <= n)%nat.
Proof.
  induction n as [|n IH]; intros f rl Hn Hrl; [lia|].
  destruct f as [|f]; [lia|]. cbn [varint].
  destruct (Z.ltb_spec 127 rl) as [Hbig|Hsmall]; cbn [length]; [|lia].
  assert (Hdiv : 1 <= rl / 128 < 128 ^ Z.of_nat n).
  { rewrite Nat2Z.inj_succ, Z.pow_succ_r in Hrl by lia.
    split; [apply Z.div_le_lower_bound; lia|apply Z.div_lt_upper_bound; lia]. }
  assert (1 <= n)%nat by (destruct n; [simpl in Hdiv; lia|lia]).
  specialize (IH f (rl / 128) ltac:(lia) ltac:(lia)). lia.
Qed.

Lemma legal_type_range ct :
  Codec.tbl Codec.control_type_is_valid ct = 1 -> 1 <= ct <= 14.
Proof.
  unfold Codec.tbl. intro Ht.
  destruct (Z.ltb_spec ct 1) as [Hlo|Hlo].
  { destruct ct as [|p|p]; cbv in Ht; try discriminate.
    pose proof (Pos2Z.is_pos p). lia. }
  destruct (Z.ltb_spec 14 ct) as [Hhi|Hhi]; [|lia].
  destruct (Z.eq_dec ct 15) as [->|Hne]; [cbv in Ht; discriminate|].
  rewrite nth_overflow in Ht; [discriminate|].
  change (length Codec.control_type_is_valid) with 16%nat. lia.
Qed.

(** C7. Round trip of the fixed header: for a header [x] with a legal
    control type, flags that pass the validation of the code, 4-bit flags
    and a Remaining Length of at most 2^28-1, and a destination of [bufsz]
    bytes that can hold the encoded header and the payload,
    [mqtt_pack_fixed_header] returns the header length and
    [mqtt_unpack_fixed_header] on the packed bytes returns the same count
    and yields [x]. *)
Theorem fixed_header_roundtrip :
  forall mem buf bufsz x fh0,
  Codec.tbl Codec.control_type_is_valid (Codec.control_type x) = 1 ->
  Codec.mqtt_fixed_header_rule_violation x = 0 ->
  0 <= Codec.control_flags x < 16 ->
  0 <= Codec.remaining_length x <= 2 ^ 28 - 1 ->
  1 + Z.of_nat (length (varint 5 (Codec.remaining_length x)))
    + Codec.remaining_length x <= bufsz <= 65535 ->
  let p := Codec.mqtt_pack_fixed_header mem buf bufsz x in
  fst p = 1 + Z.of_nat (length (varint 5 (Codec.remaining_length x))) /\
  Codec.mqtt_unpack_fixed_header fh0 (snd p) buf bufsz = (fst p, x).
Proof.
  intros mem buf bufsz [ct cf rl] fh0 Hlegal Hrule Hcf Hrl Hsz.
  cbn [Codec.control_type Codec.control_flags Codec.remaining_length] in *.
  apply legal_type_range in Hlegal.
  set (enc := varint 5 rl) in *.
  assert (Hlen : (1 <= length enc <= 4)%nat).
  { split; [apply varint_length_pos; lia|].
    apply varint_length_bound; [lia|]. change (128 ^ Z.of_nat 4) with (2 ^ 28). lia. }
  assert (H5 : 0 <= rl < 128 ^ Z.of_nat 5).
  { change (128 ^ Z.of_nat 5) with 34359738368. lia. }
  destruct (byte0_facts ct cf ltac:(lia) Hcf) as [Hb0t Hb0f].
  cbv zeta in Hb0t, Hb0f.
  unfold Codec.mqtt_pack_fixed_header.
  rewrite Hrule. cbn [Z.eqb negb].
  cbn [Codec.control_type Codec.control_flags Codec.remaining_length].
  destruct (Z.eqb_spec bufsz 0) as [E|_]; [lia|].
  rewrite u32_small by lia.
  rewrite store_eq.
  rewrite pack_loop_varint by (fold enc; lia). fold enc.
  rewrite u16_small by lia.
  destruct (Z.ltb_spec (bufsz - Z.of_nat (length enc) - 1) rl) as [E|_]; [lia|].
  cbn [fst snd].
  replace (buf + Z.of_nat (length enc) + 1 - buf) with (1 + Z.of_nat (length enc)) by lia.
  rewrite i16_small by lia.
  split; [reflexivity|].
  unfold Codec.mqtt_unpack_fixed_header.
  destruct (Z.eqb_spec bufsz 0) as [E|_]; [lia|].
  rewrite store_list_below by lia. rewrite store_eq.
  rewrite Hb0t, Hb0f.
  change 0 with (7 * 0) at 1.
  rewrite (unpack_loop_varint 5 _ buf bufsz 0 0 rl) by
    (try apply store_list_holds; fold enc; try lia;
     rewrite Z.mul_0_r, Z.pow_0_r; lia).
  fold enc. rewrite Z.mul_0_r, Z.pow_0_r, Z.mul_1_r, Z.add_0_l.
  rewrite Hrule. cbn [Z.eqb negb].
  rewrite u16_small by lia.
  destruct (Z.ltb_spec (bufsz - Z.of_nat (length enc) - 1) rl) as [E|_]; [lia|].
  replace (buf + Z.of_nat (length enc) + 1 - buf) with (1 + Z.of_nat (length enc)) by lia.
  rewrite i16_small by lia. reflexivity.
Qed.
End CodecProofs.

(** Witness of [fixed_header_roundtrip]: a SUBSCRIBE header with Remaining
    Length 200 in a 300-byte buffer. *)
Lemma fixed_header_roundtrip_witness :
  Codec.mqtt_unpack_fixed_header (H := std_header) (mk_fixed_header 0 0 0)
    (snd (Codec.mqtt_pack_fixed_header zeros 0 300 (mk_fixed_header 8 2 200)))
    0 300 = (3, mk_fixed_header 8 2 200).
Proof.
  refine (proj2 (fixed_header_roundtrip (H := std_header) zeros 0 300
                   (mk_fixed_header 8 2 200) (mk_fixed_header 0 0 0)
                   _ _ _ _ _)).
  - reflexivity.
  - reflexivity.
  - simpl. lia.
  - simpl. lia.
  - simpl. lia.
Defined.

(** C1, evaluated on the code: a SUBSCRIBE fixed header (type 8) whose flags
    are 0000, with Remaining Length 0, is not rejected.
    [mqtt_unpack_fixed_header] returns 2, the number of header bytes: the
    masked difference to the required flags 0010 is 2, and
    [mqtt_fixed_header_rule_violation] only reports a difference equal
    to 1. *)
Theorem unpack_subscribe_zero_flags_accepted :
  forall (H : MqttHeader) (fh0 : Codec.mqtt_fixed_header),
  Codec.mqtt_unpack_fixed_header fh0 (store_list zeros 0 [128; 0]) 0 2
  = (2, mk_fixed_header 8 0 0).
Proof. intros H fh0. reflexivity. Qed.

(** ** Remaining Length encoding *)

Section PackLengths.
Context {H : MqttHeader}.

Lemma pack_loop_shape : forall f mem pos bufsz rl,
  match Codec.pack_loop f mem pos bufsz rl with
  | Codec.PReturn rv _ => rv = 0
  | Codec.PDone _ _ b => 0 <= b < 65536
  | Codec.PFuel _ => True
  end.
Proof.
  induction f as [|f IH]; intros mem pos bufsz rl; cbn [Codec.pack_loop];
    [exact I|].
  destruct (u16 (bufsz - 1) =? 0); [reflexivity|].
  destruct (negb _); [apply IH|apply u16_range].
Qed.

(** Five rounds always suffice: the loop of [mqtt_pack_fixed_header] never
    runs out of fuel on a [uint32_t]. *)
Lemma pack_loop_fuel : forall mem pos bufsz rl,
  0 <= rl < 4294967296 ->
  forall m, Codec.pack_loop 5 mem pos bufsz rl <> Codec.PFuel m.
Proof.
  intros mem pos bufsz rl Hrl m.
  assert (Hgen : forall f mem pos bufsz rl,
             0 <= rl < 128 ^ Z.of_nat f -> (0 < f)%nat ->
             Codec.pack_loop f mem pos bufsz rl <> Codec.PFuel m).
  { clear. induction f as [|f IH]; intros mem pos bufsz rl Hrl Hf; [lia|].
    cbn [Codec.pack_loop].
    destruct (u16 (bufsz - 1) =? 0); [discriminate|].
    assert (Hm : 0 <= rl mod 128 < 128) by (apply Z.mod_pos_bound; lia).
    destruct (low7_facts _ Hm) as (_ & Hl128 & Hlor & _ & Hl128').
    rewrite land_127 by lia. rewrite (u8_small (rl mod 128)) by lia.
    rewrite shiftr_7.
    destruct (Z.ltb_spec 127 rl) as [Hbig|Hsmall].
    - rewrite Hlor, Hl128'. cbn [Z.eqb negb].
      assert (Hdiv : 1 <= rl / 128 < 128 ^ Z.of_nat f).
      { rewrite Nat2Z.inj_succ, Z.pow_succ_r in Hrl by lia.
        split; [apply Z.div_le_lower_bound; lia
               |apply Z.div_lt_upper_bound; lia]. }
      apply IH; [lia|]. destruct f; [simpl in Hdiv; lia|lia].
    - rewrite Hl128. cbn [Z.eqb negb]. discriminate. }
  apply Hgen; [|lia]. change (128 ^ Z.of_nat 5) with 34359738368. lia.
Qed.

(** C3, as the code has it. With a legal type and flags:
    - Remaining Lengths 0, 127, 128, 16383 and 16384 are written as 1, 1, 2,
      2 and 3 length bytes and the header length is returned, when the 16-bit
      [bufsz] covers header and payload;
    - 2^28-1 is written as the 4 length bytes FF FF FF 7F when [bufsz] is at
      least 5, and the call returns 0, since no 16-bit [bufsz] covers the
      payload;
    - for a Remaining Length above 2^28-1 the call returns 0 as well: there is
      no MQTT_ERROR_INVALID_REMAINING_LENGTH in the packing direction. *)
Theorem pack_fixed_header_length_bytes :
  forall mem buf bufsz x,
  Codec.mqtt_fixed_header_rule_violation x = 0 ->
  0 <= bufsz <= 65535 ->
  let rl := Codec.remaining_length x in
  let p := Codec.mqtt_pack_fixed_header mem buf bufsz x in
  (forall enc,
     In (rl, enc) [(0, [0]); (127, [127]); (128, [128; 1]);
                   (16383, [255; 127]); (16384, [128; 128; 1])] ->
     1 + Z.of_nat (length enc) + rl <= bufsz ->
     fst p = 1 + Z.of_nat (length enc) /\
     load_range (snd p) (buf + 1) (length enc) = enc) /\
  (rl = 2 ^ 28 - 1 -> 5 <= bufsz ->
     fst p = 0 /\ load_range (snd p) (buf + 1) 4 = [255; 255; 255; 127]) /\
  (2 ^ 28 - 1 < rl < 2 ^ 32 -> fst p = 0).
Proof.
  intros mem buf bufsz [ct cf rl0] Hrule Hsz rl p.
  cbn [Codec.remaining_length] in rl. subst rl.
  assert (Hgen : 0 <= rl0 < 4294967296 ->
            Z.of_nat (length (varint 5 rl0)) < bufsz ->
            p = (if bufsz - Z.of_nat (length (varint 5 rl0)) - 1 <? rl0
                 then 0 else i16 (Z.of_nat (length (varint 5 rl0)) + 1),
                 store_list
                   (store (store mem buf (u8 (Z.land (Z.shiftl ct 4) 240)))
                      buf (Z.lor (u8 (Z.land (Z.shiftl ct 4) 240))
                                 (u8 (Z.land cf 15))))
                   (buf + 1) (varint 5 rl0))).
  { intros Hrl Hlen. subst p. unfold Codec.mqtt_pack_fixed_header.
    rewrite Hrule. cbn [Z.eqb negb].
    cbn [Codec.control_type Codec.control_flags Codec.remaining_length].
    destruct (Z.eqb_spec bufsz 0) as [E|_].
    { pose proof (varint_length_pos 5 rl0 ltac:(lia)). lia. }
    rewrite u32_small by lia. rewrite store_eq.
    rewrite pack_loop_varint;
      [|lia|change (128 ^ Z.of_nat 5) with 34359738368; lia|lia].
    rewrite u16_small
      by (pose proof (varint_length_le 5 rl0); lia).
    destruct (_ <? rl0); [reflexivity|].
    f_equal. f_equal. lia. }
  split; [|split].
  - intros enc Hin Hroom.
    assert (Henc : enc = varint 5 rl0 /\ 0 <= rl0 <= 16384).
    { cbn [In] in Hin.
      repeat (destruct Hin as [Hin|Hin];
              [injection Hin as <- <-; split; [reflexivity|lia]|]).
      contradiction. }
    destruct Henc as [-> Hrl].
    rewrite Hgen by lia.
    cbn [fst snd].
    destruct (Z.ltb_spec (bufsz - Z.of_nat (length (varint 5 rl0)) - 1) rl0)
      as [E|_]; [lia|].
    pose proof (varint_length_le 5 rl0).
    rewrite i16_small by lia.
    split; [lia|].
    apply holds_load_range, store_list_holds.
  - intros -> Hroom.
    rewrite Hgen by (cbn; lia).
    cbn [fst snd].
    change (varint 5 (2 ^ 28 - 1)) with [255; 255; 255; 127].
    cbn [length].
    destruct (Z.ltb_spec (bufsz - Z.of_nat 4 - 1) (2 ^ 28 - 1)) as [_|E];
      [|lia].
    split; [reflexivity|].
    apply (holds_load_range [255; 255; 255; 127]), store_list_holds.
  - intros Hrl. subst p. unfold Codec.mqtt_pack_fixed_header.
    rewrite Hrule. cbn [Z.eqb negb].
    cbn [Codec.control_type Codec.control_flags Codec.remaining_length].
    destruct (bufsz =? 0); [reflexivity|].
    rewrite u32_small by lia.
    match goal with
    | |- context [Codec.pack_loop ?f ?m ?q ?b ?r] =>
        pose proof (pack_loop_shape f m q b r) as Hshape;
        destruct (Codec.pack_loop f m q b r) as [rv m'|m' pos' b'|m']
    end; cbn [fst]; [assumption| |reflexivity].
    pose proof (u16_range (b' - 1)).
    destruct (Z.ltb_spec (u16 (b' - 1)) rl0) as [_|E]; [reflexivity|lia].
Qed.

End PackLengths.

(** Witness of [pack_fixed_header_length_bytes]: a PUBLISH header with
    Remaining Length 128 in a 200-byte buffer takes two length bytes. *)
Lemma pack_fixed_header_length_bytes_witness :
  fst (Codec.mqtt_pack_fixed_header (H := std_header) zeros 0 200
         (mk_fixed_header 3 0 128)) = 3 /\
  load_range (snd (Codec.mqtt_pack_fixed_header (H := std_header) zeros 0 200
                     (mk_fixed_header 3 0 128))) 1 2 = [128; 1].
Proof.
  refine (proj1 (pack_fixed_header_length_bytes (H := std_header) zeros 0 200
                   (mk_fixed_header 3 0 128) _ _) [128; 1] _ _).
  - reflexivity.
  - lia.
  - simpl. right. right. left. reflexivity.
  - simpl. lia.
Defined.

(** C3 fails as stated: a PUBLISH header with Remaining Length 2^28, which
    needs a fifth length byte, is not answered with
    MQTT_ERROR_INVALID_REMAINING_LENGTH. The five length bytes are written and
    the call returns 0. *)
Lemma pack_five_length_bytes_not_rejected :
  Codec.mqtt_pack_fixed_header (H := std_header) zeros 0 65535
    (mk_fixed_header 3 0 (2 ^ 28))
  <> (@MQTT_ERROR_INVALID_REMAINING_LENGTH std_header,
      snd (Codec.mqtt_pack_fixed_header (H := std_header) zeros 0 65535
             (mk_fixed_header 3 0 (2 ^ 28))))
  /\ fst (Codec.mqtt_pack_fixed_header (H := std_header) zeros 0 65535
            (mk_fixed_header 3 0 (2 ^ 28))) = 0
  /\ load_range (snd (Codec.mqtt_pack_fixed_header (H := std_header) zeros 0
                        65535 (mk_fixed_header 3 0 (2 ^ 28)))) 0 6
     = [48; 128; 128; 128; 128; 1].
Proof.
  split; [|split].
  - intro E. apply (f_equal fst) in E. vm_compute in E. discriminate.
  - vm_compute. reflexivity.
  - vm_compute. reflexivity.
Qed.

(** ** Send queue compaction *)

Section QueueProofs.
Context {H : MqttHeader}.

Lemma clean_scan_app : forall done rest,
  Forall (fun m => MQ.state m = MQ.MQTT_QUEUED_COMPLETE) done ->
  match rest with [] => True | m :: _ => MQ.state m <> MQ.MQTT_QUEUED_COMPLETE end ->
  MQ.clean_scan (done ++ rest) = length done.
Proof.
  induction done as [|d done IH]; intros rest Hdone Hrest.
  - destruct rest as [|m r]; [reflexivity|]. cbn.
    destruct (MQ.state m); try reflexivity. congruence.
  - inversion Hdone as [|? ? Hd Hdone']; subst. cbn.
    rewrite Hd. cbn. f_equal. now apply IH.
Qed.

Lemma laid_out_app : forall done rest off curr,
  laid_out off (done ++ rest) curr ->
  0 <= sum_sizes done /\ laid_out (off + sum_sizes done) rest curr.
Proof.
  induction done as [|d done IH]; intros rest off curr Hl.
  - change (sum_sizes []) with 0. cbn [app] in Hl.
    split; [lia|]. now rewrite Z.add_0_r.
  - change (sum_sizes (d :: done)) with (MQ.size d + sum_sizes done).
    cbn [app laid_out] in Hl.
    destruct Hl as (Hs & Hsz & Hl). apply IH in Hl as [Hnn Hl].
    split; [lia|]. now rewrite Z.add_assoc.
Qed.

Lemma laid_out_bounds : forall q off curr,
  laid_out off q curr ->
  off <= curr /\ Forall (fun m => off <= MQ.start m /\ 0 <= MQ.size m /\ MQ.start m + MQ.size m <= curr) q.
Proof.
  induction q as [|m q IH]; intros off curr Hl; cbn [laid_out] in *.
  - split; [lia|constructor].
  - destruct Hl as (Hs & Hsz & Hl). apply IH in Hl as [Hle Hall].
    split; [lia|]. constructor; [lia|].
    eapply Forall_impl; [|exact Hall]. cbv beta. intros a Ha. lia.
Qed.

Lemma load_range_ext : forall n m1 m2 o1 o2,
  (forall i, 0 <= i < Z.of_nat n -> m1 (o1 + i) = m2 (o2 + i)) ->
  load_range m1 o1 n = load_range m2 o2 n.
Proof.
  intros n m1 m2 o1 o2 Hext. unfold load_range.
  apply map_ext_in. intros k Hk. apply in_seq in Hk. apply Hext. lia.
Qed.

(** C4, as the code has it. [mqtt_mq_clean] scans from [mqtt_mq_get(mq, 0)],
    the oldest header, towards [queue_tail]. When the [k] oldest headers
    [done] are MQTT_QUEUED_COMPLETE and the next one is not, the occupied
    bytes shrink by exactly the sizes of [done], the surviving headers [rest]
    keep their order and all fields but [start], which is rebased by the
    amount removed, and each surviving frame is byte-identical. When every
    header is complete the queue is empty afterwards ([curr] is [mem_start]
    and no header is left, so [queue_tail] is [mem_end]). *)
Theorem clean_removes_oldest_completed :
  forall mq done rest,
  wf_queue mq ->
  MQ.queue mq = done ++ rest ->
  Forall (fun m => MQ.state m = MQ.MQTT_QUEUED_COMPLETE) done ->
  match rest with [] => True | m :: _ => MQ.state m <> MQ.MQTT_QUEUED_COMPLETE end ->
  let mq' := MQ.mqtt_mq_clean mq in
  let removed := sum_sizes done in
  MQ.curr mq' = MQ.curr mq - removed /\
  MQ.queue mq' = map (rebase removed) rest /\
  Forall (fun m => msg_bytes (MQ.mem mq') (rebase removed m) = msg_bytes (MQ.mem mq) m) rest /\
  (rest = [] -> MQ.curr mq' = 0 /\ MQ.queue mq' = []).
Proof.
  intros [mem msz curr q csz] done rest [Hlay Hcurr] Hq Hdone Hrest mq' removed.
  cbn [MQ.queue MQ.curr MQ.mem] in *. subst q.
  pose proof (clean_scan_app done rest Hdone Hrest) as Hscan.
  apply laid_out_app in Hlay as [Hnn Hlay]. cbn in Hlay. fold removed in Hlay, Hnn.
  subst mq'. unfold MQ.mqtt_mq_clean. cbn [MQ.queue MQ.curr MQ.mem MQ.mem_size].
  rewrite Hscan.
  rewrite skipn_app, skipn_all, Nat.sub_diag. cbn [app skipn].
  destruct rest as [|m rest'].
  - cbn [laid_out] in Hlay. cbn [MQ.curr MQ.queue MQ.mem map].
    split; [lia|]. split; [reflexivity|]. split; [constructor|].
    intros _. split; reflexivity.
  - destruct (Nat.eqb_spec (length done) 0) as [E|E].
    + apply length_zero_iff_nil in E. subst done. subst removed.
      change (sum_sizes []) with 0.
      cbn [MQ.curr MQ.queue MQ.mem].
      assert (Hid : forall l, map (rebase 0) l = l).
      { induction l as [|[s z st t c p] l IHl]; [reflexivity|]. cbn. rewrite IHl.
        unfold rebase, MQ.set_start. cbn. now rewrite Z.sub_0_r. }
      split; [lia|]. split; [now rewrite Hid|]. split; [|discriminate].
      apply Forall_forall. intros [s z st t c p] _. unfold rebase, MQ.set_start, msg_bytes. cbn.
      now rewrite Z.sub_0_r.
    + pose proof (laid_out_bounds _ _ _ Hlay) as [Hle Hall].
      cbn [laid_out] in Hlay. destruct Hlay as (Hstart & Hsz & _).
      rewrite Hstart. rewrite Z.sub_0_r.
      rewrite (u16_small removed) by lia.
      rewrite (u16_small (curr - removed)) by lia.
      cbn [MQ.curr MQ.queue MQ.mem].
      split; [lia|]. split; [reflexivity|]. split; [|discriminate].
      eapply Forall_impl; [|exact Hall]. cbv beta. intros a (Ha1 & Ha2 & Ha3).
      unfold msg_bytes, rebase. cbn [MQ.set_start MQ.start MQ.size].
      apply load_range_ext. intros i Hi. unfold memmove.
      rewrite Z2Nat.id in Hi by lia.
      destruct (Z.leb_spec 0 (MQ.start a - removed + i)); [|lia].
      destruct (Z.ltb_spec (MQ.start a - removed + i) (0 + (curr - removed))); [|lia].
      cbn [andb]. f_equal. lia.
Qed.
End QueueProofs.

(** Witness of [clean_removes_oldest_completed]: the two oldest frames are
    complete, the newest is unsent; 5 bytes are reclaimed and the frame
    6 7 8 9 moves to the start of the arena. *)
Lemma clean_removes_oldest_completed_witness :
  let mq := sample_queue MQ.MQTT_QUEUED_COMPLETE MQ.MQTT_QUEUED_COMPLETE
                         MQ.MQTT_QUEUED_UNSENT in
  MQ.curr (MQ.mqtt_mq_clean (H := std_header) mq) = 9 - 5 /\
  MQ.queue (MQ.mqtt_mq_clean (H := std_header) mq)
  = [sample_msg 0 4 MQ.MQTT_QUEUED_UNSENT].
Proof.
  intro mq.
  pose proof (clean_removes_oldest_completed (H := std_header) mq
                [sample_msg 0 2 MQ.MQTT_QUEUED_COMPLETE;
                 sample_msg 2 3 MQ.MQTT_QUEUED_COMPLETE]
                [sample_msg 5 4 MQ.MQTT_QUEUED_UNSENT]) as Hc.
  cbv zeta in Hc.
  destruct Hc as (Hcurr & Hqueue & _).
  - split; [simpl; repeat split; lia|simpl; lia].
  - reflexivity.
  - repeat constructor.
  - discriminate.
  - split; [exact Hcurr|exact Hqueue].
Defined.

(** C4 fails as stated. Here the most recent header is complete and the two
    older ones are not: a run of one completed entry from the most recent
    end. [mqtt_mq_clean] reclaims nothing, because its scan starts at the
    oldest header and stops there. *)
Lemma clean_keeps_most_recent_completed :
  let mq := sample_queue MQ.MQTT_QUEUED_UNSENT MQ.MQTT_QUEUED_UNSENT
                         MQ.MQTT_QUEUED_COMPLETE in
  MQ.curr (MQ.mqtt_mq_clean (H := std_header) mq) = 9 /\
  MQ.curr (MQ.mqtt_mq_clean (H := std_header) mq) <> 9 - 4 /\
  MQ.queue (MQ.mqtt_mq_clean (H := std_header) mq) = MQ.queue mq.
Proof.
  cbv zeta. split; [reflexivity|]. split; [discriminate|reflexivity].
Qed.

(** ** Packet identifiers *)

Section PidProofs.

Lemma lfsr_table_check :
  all_from (Z.to_nat 65535) 1 (lfsr_index_ok lfsr_table) = true.
Proof. vm_compute. reflexivity. Qed.

Lemma lfsr_step_facts x : 1 <= x <= 65535 ->
  1 <= Client.lfsr_step x <= 65535 /\
  0 <= lfsr_index lfsr_table x < 65535 /\
  lfsr_index lfsr_table (Client.lfsr_step x)
  = (lfsr_index lfsr_table x + 1) mod 65535.
Proof.
  intro Hx.
  pose proof (all_from_spec _ _ _ lfsr_table_check x ltac:(lia)) as Hc.
  unfold lfsr_index_ok in Hc. cbv zeta in Hc.
  repeat (apply andb_prop in Hc as [Hc ?]).
  repeat match goal with
         | Hq : (_ =? _) = true |- _ => apply Z.eqb_eq in Hq
         | Hq : (_ <? _) = true |- _ => apply Z.ltb_lt in Hq
         | Hq : (_ <=? _) = true |- _ => apply Z.leb_le in Hq
         end.
  lia.
Qed.

Lemma lfsr_iter_facts : forall n x, 1 <= x <= 65535 ->
  1 <= Nat.iter n Client.lfsr_step x <= 65535 /\
  lfsr_index lfsr_table (Nat.iter n Client.lfsr_step x)
  = (lfsr_index lfsr_table x + Z.of_nat n) mod 65535.
Proof.
  induction n as [|n IH]; intros x Hx.
  - cbn [Nat.iter nat_rect]. split; [lia|].
    destruct (lfsr_step_facts x Hx) as (_ & Hi & _).
    rewrite Z.add_0_r. symmetry. apply Z.mod_small. lia.
  - destruct (IH x Hx) as [Hr Hi].
    destruct (lfsr_step_facts _ Hr) as (Hr' & _ & Hi').
    change (Nat.iter (S n) Client.lfsr_step x)
      with (Client.lfsr_step (Nat.iter n Client.lfsr_step x)).
    split; [exact Hr'|].
    rewrite Hi', Hi. rewrite Z.add_mod_idemp_l by lia.
    f_equal. lia.
Qed.

Lemma lfsr_iter_distinct : forall i j x, 1 <= x <= 65535 ->
  (i < j)%nat -> Z.of_nat j - Z.of_nat i < 65535 ->
  Nat.iter i Client.lfsr_step x <> Nat.iter j Client.lfsr_step x.
Proof.
  intros i j x Hx Hij Hd E.
  destruct (lfsr_iter_facts i x Hx) as [_ Hi].
  destruct (lfsr_iter_facts j x Hx) as [_ Hj].
  rewrite E in Hi. rewrite Hi in Hj. clear Hi E.
  revert Hj. generalize (lfsr_index lfsr_table x). intros d Hj.
  Z.div_mod_to_equations. lia.
Qed.

Lemma pid_exists_false q pid :
  Client.pid_exists q pid = false <-> ~ In pid (packet_ids q).
Proof.
  unfold Client.pid_exists, packet_ids. split.
  - intros Hf Hin. apply in_map_iff in Hin as (m & Hm & Hin).
    assert (existsb (fun m => MQ.packet_id m =? pid) q = true) as Ht.
    { apply existsb_exists. exists m. split; [assumption|]. now apply Z.eqb_eq. }
    congruence.
  - intros Hn. destruct (existsb _ q) eqn:E; [|reflexivity].
    apply existsb_exists in E as (m & Hin & Hm). apply Z.eqb_eq in Hm.
    exfalso. apply Hn. apply in_map_iff. exists m. split; assumption.
Qed.

(** Among the first [N+1] successors of a nonzero state, one is not among
    [N] given identifiers. *)
Lemma lfsr_fresh_within : forall (l : list Z) x, 1 <= x <= 65535 ->
  Z.of_nat (length l) < 65535 ->
  exists i, (1 <= i <= S (length l))%nat /\
            ~ In (Nat.iter i Client.lfsr_step x) l.
Proof.
  intros l x Hx Hlen.
  set (cand := map (fun i => Nat.iter i Client.lfsr_step x)
                   (seq 1 (S (length l)))).
  assert (Hnd : NoDup cand).
  { subst cand. apply NoDup_map_NoDup_ForallPairs; [|apply seq_NoDup].
    intros i j Hi Hj E. apply in_seq in Hi, Hj.
    destruct (Nat.lt_total i j) as [Hlt|[Heq|Hgt]]; [|assumption|].
    - exfalso. apply (lfsr_iter_distinct i j x Hx Hlt); [lia|exact E].
    - exfalso. apply (lfsr_iter_distinct j i x Hx Hgt); [lia|now symmetry]. }
  destruct (Forall_Exists_dec (fun y => In y l)
              (fun y => In_dec Z.eq_dec y l) cand) as [Hall|Hex].
  - exfalso. assert (Hincl : incl cand l).
    { intros a Ha. exact (proj1 (Forall_forall _ _) Hall a Ha). }
    pose proof (NoDup_incl_length Hnd Hincl) as Hle.
    subst cand. rewrite length_map, length_seq in Hle. lia.
  - apply Exists_exists in Hex as (y & Hy & Hny).
    subst cand. apply in_map_iff in Hy as (i & <- & Hi). apply in_seq in Hi.
    exists i. split; [lia|assumption].
Qed.

Lemma next_pid_loop_finds : forall fuel q x,
  (exists i, (1 <= i <= fuel)%nat /\
             ~ In (Nat.iter i Client.lfsr_step x) (packet_ids q)) ->
  exists i, (1 <= i <= fuel)%nat /\
    Client.next_pid_loop fuel q x = Some (Nat.iter i Client.lfsr_step x) /\
    ~ In (Nat.iter i Client.lfsr_step x) (packet_ids q).
Proof.
  induction fuel as [|fuel IH]; intros q x (i & Hi & Hfresh); [lia|].
  cbn [Client.next_pid_loop].
  destruct (Client.pid_exists q (Client.lfsr_step x)) eqn:E.
  - assert (Hi1 : i <> 1%nat).
    { intros ->. cbn in Hfresh. apply pid_exists_false in Hfresh. congruence. }
    destruct (IH q (Client.lfsr_step x)) as (k & Hk & Hres & Hnk).
    { exists (i - 1)%nat. split; [lia|].
      rewrite <- Nat.iter_succ_r. replace (S (i - 1)) with i by lia. exact Hfresh. }
    exists (S k). rewrite Nat.iter_succ_r. split; [lia|]. split; assumption.
  - exists 1%nat. split; [lia|]. split; [reflexivity|].
    now apply pid_exists_false.
Qed.


(** [mqtt_next_pid] terminates as soon as the fuel exceeds the number of
    queued headers, and what it returns. *)
Lemma mqtt_next_pid_spec :
  forall (A : Type) (c : Client.mqtt_client A) (fuel : nat),
  0 <= Client.pid_lfsr c < 65536 ->
  Z.of_nat (length (MQ.queue (Client.mq c))) < 65535 ->
  (length (MQ.queue (Client.mq c)) < fuel)%nat ->
  exists pid,
    Client.mqtt_next_pid fuel c
    = Some (Client.set_pid_lfsr
              (if Client.pid_lfsr c =? 0 then Client.set_pid_lfsr c 163 else c)
              pid, pid) /\
    0 < pid < 65536 /\
    ~ In pid (packet_ids (MQ.queue (Client.mq c))).
Proof.
  intros A c fuel Hl Hq Hfuel. unfold Client.mqtt_next_pid.
  set (c0 := if Client.pid_lfsr c =? 0 then Client.set_pid_lfsr c 163 else c).
  assert (Hc0 : Client.mq c0 = Client.mq c /\ 1 <= Client.pid_lfsr c0 <= 65535).
  { subst c0. destruct (Z.eqb_spec (Client.pid_lfsr c) 0); cbn; split;
      try reflexivity; lia. }
  destruct Hc0 as [Hmq Hx]. rewrite Hmq.
  destruct (lfsr_fresh_within (packet_ids (MQ.queue (Client.mq c)))
              (Client.pid_lfsr c0) Hx) as (i & Hi & Hfresh).
  { unfold packet_ids. now rewrite length_map. }
  unfold packet_ids in Hi. rewrite length_map in Hi.
  destruct (next_pid_loop_finds fuel (MQ.queue (Client.mq c))
              (Client.pid_lfsr c0)) as (k & Hk & Hres & Hnk).
  { exists i. split; [lia|exact Hfresh]. }
  rewrite Hres.
  exists (Nat.iter k Client.lfsr_step (Client.pid_lfsr c0)).
  split; [reflexivity|]. split; [|exact Hnk].
  destruct (lfsr_iter_facts k _ Hx) as [Hr _]. lia.
Qed.

(** C6. A call of [mqtt_next_pid] on a client whose queue holds fewer than
    65535 headers returns, and the identifier it returns is a nonzero 16-bit
    value different from the [packet_id] of every header in the send queue;
    the queue itself is left alone. *)
Theorem next_pid_nonzero_and_fresh :
  forall (A : Type) (c : Client.mqtt_client A) (fuel : nat),
  0 <= Client.pid_lfsr c < 65536 ->
  Z.of_nat (length (MQ.queue (Client.mq c))) < 65535 ->
  (length (MQ.queue (Client.mq c)) < fuel)%nat ->
  exists c' pid,
    Client.mqtt_next_pid fuel c = Some (c', pid) /\
    0 < pid < 65536 /\
    (forall m, In m (MQ.queue (Client.mq c)) -> MQ.packet_id m <> pid) /\
    Client.mq c' = Client.mq c /\
    Client.pid_lfsr c' = pid.
Proof.
  intros A c fuel Hl Hq Hfuel.
  destruct (mqtt_next_pid_spec A c fuel Hl Hq Hfuel) as (pid & Hres & Hr & Hfresh).
  eexists. exists pid. split; [exact Hres|]. split; [exact Hr|].
  split; [|split].
  - intros m Hin E. apply Hfresh. unfold packet_ids. apply in_map_iff.
    exists m. split; assumption.
  - destruct (Client.pid_lfsr c =? 0); reflexivity.
  - reflexivity.
Qed.

End PidProofs.

(** Witness of [next_pid_nonzero_and_fresh]: the first candidate after the
    seed 163 is 46161, which a queued header already carries; the generator
    goes on to the next state. *)
Lemma next_pid_nonzero_and_fresh_witness :
  exists c' pid,
    Client.mqtt_next_pid 3 (sample_client (sample_queue2 46161) 1 0)
    = Some (c', pid) /\
    0 < pid < 65536 /\
    (forall m, In m (MQ.queue (sample_queue2 46161)) ->
               MQ.packet_id m <> pid) /\
    Client.mq c' = sample_queue2 46161 /\
    Client.pid_lfsr c' = pid.
Proof.
  apply (next_pid_nonzero_and_fresh unit
           (sample_client (sample_queue2 46161) 1 0) 3).
  - simpl. lia.
  - simpl. lia.
  - simpl. lia.
Defined.

(** ** Requests and the stored error *)

Section ErrorProofs.
Context {H : MqttHeader} {A : Type}.
Variable slot_junk : MQ.mqtt_queued_message.

Lemma header_ok_facts : header_ok H ->
  MQTT_ERROR_CONNECT_NOT_CALLED < 0 /\ 0 <= MQTT_OK /\
  MQTT_ERROR_CONTROL_INVALID_FLAGS < 0 /\
  MQTT_ERROR_INVALID_REMAINING_LENGTH < 0 /\
  MQTT_ERROR_ACK_OF_UNKNOWN < 0.
Proof.
  intros (Herr & Hok & _).
  rewrite Forall_forall in Herr.
  repeat split; try lia; apply Herr; cbn; tauto.
Qed.

(** C8. While the client's error field is negative, [mqtt_publish] and
    [mqtt_subscribe] return the stored error and leave the send queue and the
    error as they are; [mqtt_connect] does the same unless the stored error
    is MQTT_ERROR_CONNECT_NOT_CALLED, which it replaces by MQTT_OK before it
    goes on as for a client without error (after which the error field is
    MQTT_OK, or the negative result of the packing it attempted). *)
Theorem stored_error_short_circuits :
  forall (c : Client.mqtt_client A) (fuel : nat),
  header_ok H ->
  Client.error c < 0 ->
  0 <= Client.pid_lfsr c < 65536 ->
  Z.of_nat (length (MQ.queue (Client.mq c))) < 65535 ->
  (length (MQ.queue (Client.mq c)) < fuel)%nat ->
  (forall topic msg size flags,
     exists c',
       Client.mqtt_publish slot_junk fuel c topic msg size flags
       = Some (c', Client.error c) /\
       Client.mq c' = Client.mq c /\ Client.error c' = Client.error c) /\
  (forall topic qos,
     exists c',
       Client.mqtt_subscribe slot_junk fuel c topic qos
       = Some (c', Client.error c) /\
       Client.mq c' = Client.mq c /\ Client.error c' = Client.error c) /\
  (forall id wt wm wms un pw fl ka,
     Client.error c <> MQTT_ERROR_CONNECT_NOT_CALLED ->
     Client.mqtt_connect slot_junk c id wt wm wms un pw fl ka
     = (Client.set_keep_alive c ka, Client.error c)) /\
  (forall id wt wm wms un pw fl ka,
     Client.error c = MQTT_ERROR_CONNECT_NOT_CALLED ->
     Client.mqtt_connect slot_junk c id wt wm wms un pw fl ka
     = Client.mqtt_connect slot_junk (Client.set_error c MQTT_OK)
         id wt wm wms un pw fl ka /\
     (Client.error
        (fst (Client.mqtt_connect slot_junk c id wt wm wms un pw fl ka))
      = MQTT_OK \/
      Client.error
        (fst (Client.mqtt_connect slot_junk c id wt wm wms un pw fl ka))
      = snd (Client.mqtt_connect slot_junk c id wt wm wms un pw fl ka))).
Proof.
  intros c fuel Hok Herr Hl Hq Hfuel.
  destruct (header_ok_facts Hok) as (Hnc & Hmok & _).
  destruct (mqtt_next_pid_spec A c fuel Hl Hq Hfuel) as (pid & Hres & _ & _).
  assert (Hc' : forall c0 : Client.mqtt_client A,
             c0 = Client.set_pid_lfsr
                    (if Client.pid_lfsr c =? 0
                     then Client.set_pid_lfsr c 163 else c) pid ->
             Client.error c0 = Client.error c /\ Client.mq c0 = Client.mq c).
  { intros c0 ->. destruct (Client.pid_lfsr c =? 0); split; reflexivity. }
  split; [|split; [|split]].
  - intros topic msg size flags. unfold Client.mqtt_publish. rewrite Hres.
    destruct (Hc' _ eq_refl) as [He Hm]. rewrite He.
    destruct (Z.ltb_spec (Client.error c) 0) as [_|E]; [|lia].
    eexists. split; [reflexivity|]. split; assumption.
  - intros topic qos. unfold Client.mqtt_subscribe. rewrite Hres.
    destruct (Hc' _ eq_refl) as [He Hm]. rewrite He.
    destruct (Z.ltb_spec (Client.error c) 0) as [_|E]; [|lia].
    eexists. split; [reflexivity|]. split; assumption.
  - intros id wt wm wms un pw fl ka Hne. unfold Client.mqtt_connect.
    change (Client.error (Client.set_keep_alive c ka)) with (Client.error c).
    destruct (Z.eqb_spec (Client.error c) MQTT_ERROR_CONNECT_NOT_CALLED)
      as [E|_]; [contradiction|].
    change (Client.error (Client.set_keep_alive c ka)) with (Client.error c).
    destruct (Z.ltb_spec (Client.error c) 0) as [_|E]; [|lia]. reflexivity.
  - intros id wt wm wms un pw fl ka Heq.
    assert (Hconv :
      Client.mqtt_connect slot_junk c id wt wm wms un pw fl ka
      = Client.mqtt_connect slot_junk (Client.set_error c MQTT_OK)
          id wt wm wms un pw fl ka).
    { unfold Client.mqtt_connect.
      change (Client.error (Client.set_keep_alive c ka)) with (Client.error c).
      change (Client.error (Client.set_keep_alive (Client.set_error c MQTT_OK)
                              ka)) with MQTT_OK.
      rewrite Heq, Z.eqb_refl.
      destruct (Z.eqb_spec MQTT_OK MQTT_ERROR_CONNECT_NOT_CALLED) as [E|_];
        [lia|]. reflexivity. }
    split; [exact Hconv|]. rewrite Hconv.
    unfold Client.mqtt_connect.
    change (Client.error (Client.set_keep_alive (Client.set_error c MQTT_OK)
                            ka)) with MQTT_OK.
    destruct (Z.eqb_spec MQTT_OK MQTT_ERROR_CONNECT_NOT_CALLED) as [E|_];
      [lia|].
    change (Client.error (Client.set_keep_alive (Client.set_error c MQTT_OK)
                            ka)) with MQTT_OK.
    destruct (Z.ltb_spec MQTT_OK 0) as [E|_]; [lia|].
    destruct (Codec.mqtt_pack_connection_request _ _ _ _ _ _ _ _ _ _ _)
      as [rv packed].
    destruct (rv <? 0); [right|left]; reflexivity.
Qed.

End ErrorProofs.

(** Witness of [stored_error_short_circuits]: a client whose error field
    holds MQTT_ERROR_ACK_OF_UNKNOWN. *)
Lemma stored_error_short_circuits_witness :
  exists c',
    Client.mqtt_publish (H := std_header)
      (sample_msg 0 0 MQ.MQTT_QUEUED_COMPLETE) 3
      (sample_client (sample_queue2 7) (-32763) 0) [116] ten_bytes 10 0
    = Some (c', -32763) /\
    Client.mq c' = sample_queue2 7 /\ Client.error c' = -32763.
Proof.
  refine (proj1 (stored_error_short_circuits (H := std_header)
                   (sample_msg 0 0 MQ.MQTT_QUEUED_COMPLETE)
                   (sample_client (sample_queue2 7) (-32763) 0) 3
                   _ _ _ _ _) [116] ten_bytes 10 0).
  - unfold header_ok. split; [|simpl; lia].
    repeat (apply Forall_cons; [simpl; lia|]). apply Forall_nil.
  - simpl. lia.
  - simpl. lia.
  - simpl. lia.
  - simpl. lia.
Defined.

(** C2, evaluated on the code. The frame of a publish with topic [t] and a
    ten-byte message takes 15 bytes. With 15 free bytes [mqtt_publish]
    returns MQTT_OK and registers the 15-byte frame. With 14 free bytes
    [mqtt_pack_publish_request] returns 0, which the test [rv < 0] of
    [mqtt_publish] lets through: the call returns MQTT_OK as well and
    registers a header of size 0. *)
Theorem publish_one_byte_short_still_registers :
  fst (Codec.mqtt_pack_publish_request (H := std_header) zeros 0 15
         [116] 7 ten_bytes 10 0) = 15 /\
  outcome (Client.mqtt_publish (H := std_header)
             (sample_msg 0 0 MQ.MQTT_QUEUED_COMPLETE) 1
             (sample_client (MQ.mqtt_mq_init (H := std_header) zeros 15) 1 0)
             [116] ten_bytes 10 0)
  = Some (@MQTT_OK std_header, [(0, 15, MQTT_CONTROL_PUBLISH)]) /\
  fst (Codec.mqtt_pack_publish_request (H := std_header) zeros 0 14
         [116] 7 ten_bytes 10 0) = 0 /\
  outcome (Client.mqtt_publish (H := std_header)
             (sample_msg 0 0 MQ.MQTT_QUEUED_COMPLETE) 1
             (sample_client (MQ.mqtt_mq_init (H := std_header) zeros 14) 1 0)
             [116] ten_bytes 10 0)
  = Some (@MQTT_OK std_header, [(0, 0, MQTT_CONTROL_PUBLISH)]).
Proof. repeat split; vm_compute; reflexivity. Qed.

(** ** Receive engine *)

Section RecvProofs.
Context {H : MqttHeader} {A : Type}.
Variable publish_response_callback :
  A -> Client.globals -> Codec.mqtt_response_publish -> A.
Variable response_junk : Codec.mqtt_response.


End RecvProofs.



(** ** Stream reassembly, Home Assistant build *)

Section ReassemblyHA.
Context {H : MqttHeader} {A : Type}.
Variable mqtt_pal_sendall : list Z -> Z.
Variable publish_response_callback :
  A -> Client.globals -> Codec.mqtt_response_publish -> A.
Variable slot_junk : MQ.mqtt_queued_message.
Variable response_junk : Codec.mqtt_response.

Local Abbreviation ha_loop :=
  (Client.ha_loop mqtt_pal_sendall publish_response_callback slot_junk
                  response_junk).
Local Abbreviation deliver :=
  (Client.deliver mqtt_pal_sendall publish_response_callback slot_junk
                  response_junk).
Local Abbreviation mqtt_sync_ha :=
  (Client.mqtt_sync_ha mqtt_pal_sendall publish_response_callback slot_junk
                       response_junk).

Lemma holds_snoc : forall pre m off b,
  holds m off pre ->
  holds (store m (off + Z.of_nat (length pre)) b) off (pre ++ [b]).
Proof.
  induction pre as [|a pre IH]; intros m off b Hh.
  - cbn. rewrite Z.add_0_r. split; [apply store_eq|exact I].
  - cbn [app holds length] in *. destruct Hh as [Ha Hp]. split.
    + rewrite store_neq by lia. exact Ha.
    + replace (off + Z.of_nat (S (length pre)))
        with (off + 1 + Z.of_nat (length pre)) by lia.
      now apply IH.
Qed.

Lemma holds_nth : forall l m off i,
  holds m off l -> (i < length l)%nat -> m (off + Z.of_nat i) = nth i l 0.
Proof.
  induction l as [|a l IH]; intros m off i Hh Hi; [cbn in Hi; lia|].
  cbn [holds] in Hh. destruct Hh as [Ha Hl].
  destruct i as [|i]; [now rewrite Z.add_0_r|].
  cbn [nth]. rewrite <- (IH m (off + 1) i Hl) by (cbn in Hi; lia).
  f_equal. lia.
Qed.

(** The log always grows by the snapshot taken at the call of [mqtt_recv]. *)
Lemma deliver_log : forall reset (c : Client.mqtt_client A) g log,
  match deliver reset c g log with
  | inl r => log_of r = log ++ [Client.snapshot g]
  | inr (_, _, l) => l = log ++ [Client.snapshot g]
  end.
Proof.
  intros reset c g log. unfold Client.deliver.
  destruct (Client.mqtt_recv _ _ _ _) as [[c1 g1] err].
  destruct (negb (err =? MQTT_OK)); [reflexivity|].
  destruct (Client.mqtt_send _ _ _ _) as [c2 err2].
  destruct (negb (err2 =? MQTT_OK)); reflexivity.
Qed.

Section Frame.
Variables (b0 L : Z) (payload : list Z).
Hypothesis HL : 0 <= L < 128.
Hypothesis Hlen : Z.of_nat (length payload) = L.
Let frame := b0 :: L :: payload.

Lemma ha_capture_step : forall pre b post g,
  frame = pre ++ b :: post ->
  ha_reassembling L pre g ->
  ha_reassembling L (pre ++ [b])
    (Client.set_reassembly g
       (Client.ha_capture (Client.get_reassembly g) b)).
Proof.
  intros pre b post g Hf (Hpbl & Hpbi & Hbuf & Hcml).
  assert (Hflen : Z.of_nat (length pre) + 1 + Z.of_nat (length post) = L + 2).
  { apply (f_equal (@length Z)) in Hf. subst frame.
    rewrite length_app in Hf. cbn [length] in Hf. lia. }
  unfold ha_reassembling, Client.ha_capture.
  cbn [Client.set_reassembly Client.get_reassembly
       Client.mqtt_partial_buffer_length Client.pbi Client.uip_buf
       Client.current_msg_length Client.r_uip_buf Client.r_pbi
       Client.r_mqtt_partial_buffer_length Client.r_current_msg_length].
  rewrite Hpbl, Hpbi. rewrite length_app. cbn [length].
  rewrite !u8_small by lia.
  assert (Hbuf' : holds (store (Client.uip_buf g) (Z.of_nat (length pre)) b)
                        0 (pre ++ [b])).
  { apply (holds_snoc pre _ 0 b Hbuf). }
  split; [lia|]. split; [lia|]. split; [exact Hbuf'|].
  intros H2.
  destruct (Z.eqb_spec (Z.of_nat (length pre) + 1) 2) as [E2|N2].
  - destruct (Z.ltb_spec 2 (Z.of_nat (length pre) + 1)); [lia|].
    (* the byte just stored is the Remaining Length *)
    assert (Hp1 : length pre = 1%nat) by lia.
    rewrite Hp1. rewrite store_eq.
    destruct pre as [|p0 [|p1 pre']]; cbn in Hp1; try lia.
    subst frame. cbn in Hf. injection Hf as _ Hb _. subst b.
    rewrite Nat2Z.inj_add. cbn. lia.
  - destruct (Z.ltb_spec 2 (Z.of_nat (length pre) + 1)); [|lia].
    rewrite Hcml by lia. rewrite u8_small by lia.
    rewrite Nat2Z.inj_add. cbn. lia.
Qed.


Lemma frame_length : Z.of_nat (length frame) = L + 2.
Proof. subst frame. cbn [length]. lia. Qed.

Lemma ha_loop_partial : forall ch pre post (c : Client.mqtt_client A) g log,
  frame = pre ++ ch ++ post -> post <> [] ->
  ha_reassembling L pre g ->
  log_of (ha_loop c g ch log) = log /\
  ha_reassembling L (pre ++ ch) (globals_of (ha_loop c g ch log)).
Proof.
  induction ch as [|b rest IH]; intros pre post c g log Hf Hpost Hre.
  - cbn. rewrite app_nil_r. split; [reflexivity|exact Hre].
  - pose proof (ha_capture_step pre b (rest ++ post) g Hf Hre) as Hre'.
    assert (Hflen : Z.of_nat (length pre) + 1 + Z.of_nat (length rest)
                    + Z.of_nat (length post) = L + 2).
    { rewrite <- frame_length, Hf. rewrite !length_app. cbn [length].
      rewrite ?length_app. lia. }
    assert (Hpl : 0 < Z.of_nat (length post)).
    { destruct post; [contradiction|cbn [length]; lia]. }
    cbn [Client.ha_loop].
    set (g' := Client.set_reassembly g
                 (Client.ha_capture (Client.get_reassembly g) b)) in *.
    destruct Hre' as (Hpbl & Hpbi & Hbuf & Hcml).
    rewrite length_app in Hpbl, Hpbi, Hcml. cbn [length] in Hpbl, Hpbi, Hcml.
    assert (Hnext : log_of (ha_loop c g' rest log) = log /\
                    ha_reassembling L (pre ++ b :: rest)
                      (globals_of (ha_loop c g' rest log))).
    { replace (pre ++ b :: rest) with ((pre ++ [b]) ++ rest)
        by (rewrite <- app_assoc; reflexivity).
      apply (IH (pre ++ [b]) post c g' log).
      - rewrite <- app_assoc. exact Hf.
      - exact Hpost.
      - unfold ha_reassembling. rewrite length_app. cbn [length].
        repeat split; assumption. }
    destruct (Z.eqb_spec (Client.mqtt_partial_buffer_length g') 1) as [E1|N1].
    + destruct rest as [|b' rest']; [|exact Hnext].
      cbn [log_of globals_of]. split; [reflexivity|].
      unfold ha_reassembling. rewrite length_app. cbn [length].
      repeat split; assumption.
    + rewrite Hcml by lia.
      destruct (Z.eqb_spec (L - (Z.of_nat (length pre + 1) - 2)) 0) as [E|_];
        [lia|exact Hnext].
Qed.

Lemma ha_loop_complete : forall ch pre (c : Client.mqtt_client A) g log,
  ch <> [] -> frame = pre ++ ch ->
  ha_reassembling L pre g ->
  log_of (ha_loop c g ch log) = log ++ [frame].
Proof.
  induction ch as [|b rest IH]; intros pre c g log Hne Hf Hre;
    [contradiction|].
  pose proof (ha_capture_step pre b rest g Hf Hre) as Hre'.
  assert (Hflen : Z.of_nat (length pre) + 1 + Z.of_nat (length rest) = L + 2).
  { rewrite <- frame_length, Hf. rewrite !length_app. cbn [length]. lia. }
  cbn [Client.ha_loop].
  set (g' := Client.set_reassembly g
               (Client.ha_capture (Client.get_reassembly g) b)) in *.
  pose proof Hre' as (Hpbl & Hpbi & Hbuf & Hcml).
  rewrite length_app in Hpbl, Hpbi, Hcml. cbn [length] in Hpbl, Hpbi, Hcml.
  destruct rest as [|b' rest'].
  - (* the last byte of the frame *)
    cbn [length] in Hflen.
    destruct (Z.eqb_spec (Client.mqtt_partial_buffer_length g') 1) as [E1|_];
      [lia|].
    rewrite Hcml by lia.
    destruct (Z.eqb_spec (L - (Z.of_nat (length pre + 1) - 2)) 0) as [_|N];
      [|lia].
    assert (Hsnap : Client.snapshot g' = frame).
    { unfold Client.snapshot. rewrite Hpbl, Nat2Z.id.
      replace (length pre + 1)%nat with (length (pre ++ [b]))
        by (rewrite length_app; reflexivity).
      rewrite Hf. now apply holds_load_range. }
    pose proof (deliver_log Client.ha_reset c g' log) as Hd.
    destruct (deliver Client.ha_reset c g' log) as [r|[[c1 g1] l]].
    + now rewrite Hd, Hsnap.
    + cbn [Client.ha_loop log_of]. now rewrite Hd, Hsnap.
  - assert (Hnext : log_of (ha_loop c g' (b' :: rest') log) = log ++ [frame]).
    { apply (IH (pre ++ [b]) c g' log); [discriminate| |exact Hre'].
      rewrite <- app_assoc. exact Hf. }
    cbn [length] in Hflen.
    destruct (Z.eqb_spec (Client.mqtt_partial_buffer_length g') 1) as [E1|N1];
      [exact Hnext|].
    rewrite Hcml by lia.
    destruct (Z.eqb_spec (L - (Z.of_nat (length pre + 1) - 2)) 0) as [E|_];
      [lia|exact Hnext].
Qed.

Lemma sync_ha_log : forall ch (c : Client.mqtt_client A) g,
  ch <> [] ->
  snd (mqtt_sync_ha true ch c g) = log_of (ha_loop c g ch []) /\
  Client.get_reassembly (snd (fst (fst (mqtt_sync_ha true ch c g))))
  = Client.get_reassembly (globals_of (ha_loop c g ch [])).
Proof.
  intros ch c g Hne. unfold Client.mqtt_sync_ha.
  destruct ch as [|b ch]; [contradiction|].
  cbn [length andb]. rewrite Nat2Z.inj_succ.
  destruct (Z.ltb_spec 0 (Z.succ (Z.of_nat (length ch)))) as [_|E]; [|lia].
  destruct (ha_loop c g (b :: ch) []) as [c1 g1 rv l|c1 g1 l];
    cbn [Client.finish_sync log_of globals_of fst snd];
    [split; reflexivity|].
  unfold Client.final_send.
  destruct (Client.mqtt_send _ _ _ _) as [c2 err]. split; reflexivity.
Qed.

Lemma ha_reassembling_ext : forall pre g g',
  Client.get_reassembly g' = Client.get_reassembly g ->
  ha_reassembling L pre g -> ha_reassembling L pre g'.
Proof.
  intros pre g g' E Hre. unfold ha_reassembling in *.
  assert (E1 := f_equal Client.r_mqtt_partial_buffer_length E).
  assert (E2 := f_equal Client.r_pbi E).
  assert (E3 := f_equal Client.r_uip_buf E).
  assert (E4 := f_equal Client.r_current_msg_length E).
  cbn in E1, E2, E3, E4. rewrite E1, E2, E3, E4. exact Hre.
Qed.

(** C5. Home Assistant build: for a complete frame with a single-byte
    Remaining Length [L], taken up from a cleared partial buffer, one call of
    [mqtt_sync] with all the bytes and two calls with the bytes split at any
    point make the same sequence of [mqtt_recv] calls: exactly one, at which
    the partial buffer holds the [L + 2] bytes of the frame. *)
Theorem ha_sync_split_invariant :
  forall (c : Client.mqtt_client A) (g : Client.globals),
  Client.mqtt_partial_buffer_length g = 0 ->
  Client.pbi g = 0 ->
  snd (mqtt_sync_ha true frame c g) = [frame] /\
  forall f1 f2,
    f1 <> [] -> f2 <> [] -> frame = f1 ++ f2 ->
    let r1 := mqtt_sync_ha true f1 c g in
    let r2 := mqtt_sync_ha true f2 (fst (fst (fst r1))) (snd (fst (fst r1))) in
    snd r1 ++ snd r2 = [frame].
Proof.
  intros c g Hpbl Hpbi.
  assert (Hre0 : ha_reassembling L [] g).
  { unfold ha_reassembling. cbn [length holds].
    repeat split; try assumption. intro Hc. cbn in Hc. lia. }
  assert (Hfne : frame <> []) by (subst frame; discriminate).
  split.
  - rewrite (proj1 (sync_ha_log frame c g Hfne)).
    now rewrite (ha_loop_complete frame [] c g []).
  - intros f1 f2 Hf1 Hf2 Hsplit r1 r2. subst r1 r2.
    destruct (sync_ha_log f1 c g Hf1) as [Hlog1 Hg1].
    destruct (ha_loop_partial f1 [] f2 c g []) as [Hl1 Hre1];
      [exact Hsplit|exact Hf2|exact Hre0|].
    rewrite Hlog1, Hl1. cbn [app].
    rewrite (proj1 (sync_ha_log f2 _ _ Hf2)).
    rewrite (ha_loop_complete f2 f1); [reflexivity|exact Hf2|exact Hsplit|].
    apply (ha_reassembling_ext _ _ _ Hg1). exact Hre1.
Qed.

End Frame.
End ReassemblyHA.

(** Witness of [ha_sync_split_invariant]: a CONNACK frame, whole and split
    after its first byte. *)
Lemma ha_sync_split_invariant_witness :
  let sync := Client.mqtt_sync_ha (H := std_header) (fun _ => 0)
                (fun a _ _ => a) (sample_msg 0 0 MQ.MQTT_QUEUED_COMPLETE)
                sample_response true in
  let c := sample_client (MQ.mqtt_mq_init (H := std_header) zeros 100) 1 0 in
  let g := sample_globals zeros 0 0 0 in
  snd (sync [32; 2; 0; 0] c g) = [[32; 2; 0; 0]] /\
  snd (sync [32] c g)
  ++ snd (sync [2; 0; 0] (fst (fst (fst (sync [32] c g))))
               (snd (fst (fst (sync [32] c g)))))
  = [[32; 2; 0; 0]].
Proof.
  intros sync c g.
  destruct (ha_sync_split_invariant (H := std_header) (fun _ => 0)
              (fun a _ _ => a) (sample_msg 0 0 MQ.MQTT_QUEUED_COMPLETE)
              sample_response 32 2 [0; 0] ltac:(lia) eq_refl c g
              eq_refl eq_refl) as [Hwhole Hsplit].
  split; [exact Hwhole|].
  apply (Hsplit [32] [2; 0; 0]); [discriminate|discriminate|reflexivity].
Defined.

(** ** Stream reassembly, Domoticz build *)

Lemma payload_filtered : forall buf pb idx nv,
  match publish_all (finding buf 28 pb idx nv) domoticz_payload with
  | Some r =>
      Client.r_mqtt_partial_buffer_length r = 6 /\
      c_string 7 (Client.r_idx_string r) 0 = [52; 50] /\
      c_string 2 (Client.r_nvalue_string r) 0 = [49] /\
      Client.r_uip_buf r 1 = 4 /\ Client.r_uip_buf r 5 = 44 /\
      Client.r_uip_buf r 0 = buf 0 /\ Client.r_uip_buf r 2 = buf 2 /\
      Client.r_uip_buf r 3 = buf 3 /\ Client.r_uip_buf r 4 = buf 4
  | None => False
  end.
Proof.
  intros buf pb idx nv. vm_compute. repeat split.
Qed.

Lemma domoticz_filter_buf0 : forall r,
  1 <= Client.r_pbi r < 200 ->
  Client.r_uip_buf (Client.domoticz_filter r) 0 = Client.r_uip_buf r 0.
Proof.
  intros r Hp. unfold Client.domoticz_filter.
  destruct (Client.r_filter_step r).
  - cbn [Client.r_uip_buf]. apply store_neq. lia.
  - cbn [Client.r_uip_buf]. rewrite !store_neq by lia. reflexivity.
  - destruct (_ =? 10); reflexivity.
  - repeat match goal with
           | |- context [if ?b then _ else _] => destruct b
           end; cbn [Client.r_uip_buf]; try reflexivity;
      apply store_neq; rewrite u8_small by lia; lia.
  - reflexivity.
Qed.

Ltac reassembly_cbv :=
  cbv beta iota zeta delta
    [Client.r_uip_buf Client.r_mqtt_partial_buffer_length Client.r_pbi
     Client.r_remaining_length_captured_flag Client.r_current_msg_length
     Client.set_uip_buf Client.set_counters Client.r_parse_buffer
     Client.r_parse_index Client.r_filter_step Client.r_idx_string
     Client.r_nvalue_string andb negb orb].

Ltac decide_cmp :=
  match goal with
  | |- context [Z.eqb ?a ?b] =>
      first [ replace (Z.eqb a b) with true by (symmetry; apply Z.eqb_eq; lia)
            | replace (Z.eqb a b) with false
                by (symmetry; apply Z.eqb_neq; lia) ]
  | |- context [Z.ltb ?a ?b] =>
      first [ replace (Z.ltb a b) with true by (symmetry; apply Z.ltb_lt; lia)
            | replace (Z.ltb a b) with false
                by (symmetry; apply Z.ltb_ge; lia) ]
  end.

Lemma publish_step_eq : forall r b,
  filtering r = true ->
  Z.land (Client.r_uip_buf r 0) 240 = 48 ->
  Client.domoticz_step r b = publish_step r b.
Proof.
  intros r b Hf Hpub. unfold filtering in Hf.
  repeat (apply andb_prop in Hf as [Hf ?]).
  repeat match goal with
         | Hq : (_ =? _) = true |- _ => apply Z.eqb_eq in Hq
         | Hq : (_ <? _) = true |- _ => apply Z.ltb_lt in Hq
         | Hq : (_ <=? _) = true |- _ => apply Z.leb_le in Hq
         end.
  destruct r as [buf pbl pbi cml cap pb pidx fs idx nv].
  cbn [Client.r_uip_buf Client.r_mqtt_partial_buffer_length Client.r_pbi
       Client.r_remaining_length_captured_flag] in *.
  subst cap.
  set (r1 := {| Client.r_uip_buf := store buf pbi b;
                Client.r_mqtt_partial_buffer_length := pbl;
                Client.r_pbi := pbi; Client.r_current_msg_length := cml;
                Client.r_remaining_length_captured_flag := 1;
                Client.r_parse_buffer := pb; Client.r_parse_index := pidx;
                Client.r_filter_step := fs; Client.r_idx_string := idx;
                Client.r_nvalue_string := nv |}).
  pose proof (domoticz_filter_buf0 r1 ltac:(cbn; lia)) as Hb0.
  cbn [r1 Client.r_uip_buf] in Hb0. rewrite store_neq in Hb0 by lia.
  assert (Hrhs : publish_step
                   {| Client.r_uip_buf := buf;
                      Client.r_mqtt_partial_buffer_length := pbl;
                      Client.r_pbi := pbi; Client.r_current_msg_length := cml;
                      Client.r_remaining_length_captured_flag := 1;
                      Client.r_parse_buffer := pb;
                      Client.r_parse_index := pidx;
                      Client.r_filter_step := fs; Client.r_idx_string := idx;
                      Client.r_nvalue_string := nv |} b
                 = let rf := Client.domoticz_filter r1 in
                   let r2 := Client.set_counters rf
                               (Client.r_mqtt_partial_buffer_length rf)
                               (Client.r_pbi rf)
                               (u16 (Client.r_current_msg_length rf - 1))
                               (Client.r_remaining_length_captured_flag rf) in
                   if negb (Client.r_current_msg_length r2 =? 0)
                   then Client.Continue r2 else Client.domoticz_finish r2)
    by reflexivity.
  rewrite Hrhs. clear Hrhs.
  unfold Client.domoticz_step.
  cbn [Client.r_mqtt_partial_buffer_length].
  destruct (Z.eqb_spec pbl 0) as [E|_]; [lia|].
  cbn [Client.set_uip_buf Client.set_counters Client.r_uip_buf
       Client.r_mqtt_partial_buffer_length Client.r_pbi
       Client.r_remaining_length_captured_flag Client.r_current_msg_length
       Client.r_parse_buffer Client.r_parse_index Client.r_filter_step
       Client.r_idx_string Client.r_nvalue_string].
  rewrite (u8_small (pbl + 1)) by lia. rewrite (u8_small (pbi + 1)) by lia.
  destruct (Z.eqb_spec (pbl + 1) 1) as [E|_]; [lia|].
  destruct (Z.eqb_spec (pbl + 1) 2) as [E|_]; [lia|].
  cbn [andb negb Client.set_uip_buf Client.set_counters Client.r_uip_buf
       Client.r_mqtt_partial_buffer_length Client.r_pbi
       Client.r_remaining_length_captured_flag Client.r_current_msg_length
       Client.r_parse_buffer Client.r_parse_index Client.r_filter_step
       Client.r_idx_string Client.r_nvalue_string Z.eqb].
  rewrite Bool.andb_false_r.
  destruct (Z.ltb_spec 2 (pbl + 1)) as [_|E]; [|lia].
  rewrite (store_neq buf pbi b 0) by lia. rewrite Hpub.
  cbn [andb negb Z.eqb Pos.eqb Client.set_uip_buf Client.set_counters
       Client.r_uip_buf
       Client.r_mqtt_partial_buffer_length Client.r_pbi
       Client.r_remaining_length_captured_flag Client.r_current_msg_length
       Client.r_parse_buffer Client.r_parse_index Client.r_filter_step
       Client.r_idx_string Client.r_nvalue_string].
  replace (pbl + 1 - 1) with pbl by lia.
  replace (pbi + 1 - 1) with pbi by lia.
  rewrite (u8_small pbl) by lia. rewrite (u8_small pbi) by lia.
  change (Client.set_counters
            (Client.set_counters (Client.set_uip_buf _ _) _ _ _ _) _ _ _ _)
    with r1.
  set (rf := Client.domoticz_filter r1) in *.
  cbv zeta.
  cbn [Client.set_counters Client.r_current_msg_length
       Client.r_mqtt_partial_buffer_length Client.r_uip_buf].
  destruct (negb (u16 (Client.r_current_msg_length rf - 1) =? 0));
    [reflexivity|].
  rewrite Hb0, Hpub. cbn [Z.eqb Pos.eqb negb].
  rewrite Bool.andb_false_r. reflexivity.
Qed.


Lemma publish_step_buf0 : forall r b,
  filtering r = true ->
  match publish_step r b with
  | Client.Continue r' | Client.Complete r' =>
      Client.r_uip_buf r' 0 = Client.r_uip_buf r 0
  | Client.Break _ => True
  end.
Proof.
  intros r b Hf. unfold filtering in Hf.
  repeat (apply andb_prop in Hf as [Hf ?]).
  repeat match goal with
         | Hq : (_ =? _) = true |- _ => apply Z.eqb_eq in Hq
         | Hq : (_ <? _) = true |- _ => apply Z.ltb_lt in Hq
         | Hq : (_ <=? _) = true |- _ => apply Z.leb_le in Hq
         end.
  unfold publish_step.
  match goal with
  | |- context [Client.domoticz_filter ?x] =>
      pose proof (domoticz_filter_buf0 x) as Hb0;
      set (rf := Client.domoticz_filter x) in *
  end.
  cbn [Client.set_counters Client.set_uip_buf Client.r_pbi Client.r_uip_buf]
    in Hb0.
  specialize (Hb0 ltac:(lia)). rewrite store_neq in Hb0 by lia.
  cbn [Client.set_counters Client.r_current_msg_length].
  destruct (negb _); cbn [Client.r_uip_buf]; [exact Hb0|].
  unfold Client.domoticz_finish. cbn [Client.r_current_msg_length].
  destruct (_ =? 0); cbn [Client.set_uip_buf Client.r_uip_buf]; [|exact Hb0].
  rewrite store_neq by lia. exact Hb0.
Qed.

Lemma publish_all_sound : forall bs r r2,
  publish_all r bs = Some r2 ->
  Z.land (Client.r_uip_buf r 0) 240 = 48 ->
  exists body b r1,
    bs = body ++ [b] /\ domoticz_run r body = Some r1 /\
    Client.domoticz_step r1 b = Client.Complete r2.
Proof.
  induction bs as [|b bs IH]; intros r r2 Hall Hpub; [discriminate|].
  cbn [publish_all] in Hall.
  destruct (filtering r) eqn:Hf; [|discriminate].
  pose proof (publish_step_eq r b Hf Hpub) as Heq.
  pose proof (publish_step_buf0 r b Hf) as Hb0.
  destruct (publish_step r b) as [r'|r'|r'] eqn:Hs.
  - destruct bs as [|b' bs']; [discriminate|].
    destruct (IH r' r2 Hall) as (body & bl & r1 & Hbs & Hrun & Hlast).
    { now rewrite Hb0. }
    exists (b :: body), bl, r1. split; [now rewrite Hbs|].
    split; [|exact Hlast]. cbn [domoticz_run]. now rewrite Heq.
  - destruct bs; discriminate.
  - destruct bs as [|b' bs']; [|discriminate].
    injection Hall as <-.
    exists [], b, r. split; [reflexivity|]. split; [reflexivity|exact Heq].
Qed.

Lemma domoticz_run_app : forall a b r,
  domoticz_run r (a ++ b)
  = match domoticz_run r a with
    | Some r' => domoticz_run r' b
    | None => None
    end.
Proof.
  induction a as [|x a IH]; intros b r; [reflexivity|].
  cbn [app domoticz_run].
  destruct (Client.domoticz_step r x); try reflexivity. apply IH.
Qed.

(** The topic goes by unnoticed when it has no LF. *)
Lemma topic_run : forall topic buf cml pb idx nv,
  Forall (fun b => b <> 10) topic ->
  Z.of_nat (length topic) < cml <= 65535 ->
  Z.land (buf 0) 240 = 48 ->
  exists buf',
    domoticz_run (finding buf cml pb idx nv) topic
    = Some (finding buf' (cml - Z.of_nat (length topic)) pb idx nv) /\
    buf' 0 = buf 0 /\ buf' 2 = buf 2 /\ buf' 3 = buf 3 /\ buf' 4 = buf 4.
Proof.
  induction topic as [|b topic IH]; intros buf cml pb idx nv Hlf Hcml Hpub.
  - exists buf. cbn [domoticz_run length]. rewrite Z.sub_0_r.
    repeat split; reflexivity.
  - inversion Hlf as [|? ? Hb Hlf']; subst.
    cbn [length] in Hcml.
    assert (Hstep : Client.domoticz_step (finding buf cml pb idx nv) b
                    = Client.Continue
                        (finding (store buf 5 b) (cml - 1) pb idx nv)).
    { rewrite publish_step_eq by (try reflexivity; exact Hpub).
      unfold publish_step, finding, Client.domoticz_filter.
      reassembly_cbv. rewrite store_eq.
      destruct (Z.eqb_spec b 10) as [E|_]; [contradiction|].
      reassembly_cbv.
      rewrite u16_small by lia.
      destruct (Z.eqb_spec (cml - 1) 0) as [E|_]; [lia|]. reflexivity. }
    destruct (IH (store buf 5 b) (cml - 1) pb idx nv Hlf') as
      (buf' & Hrun & H0 & H2 & H3 & H4).
    { lia. }
    { rewrite store_neq by lia. exact Hpub. }
    exists buf'. cbn [domoticz_run]. rewrite Hstep, Hrun.
    rewrite !store_neq in * by lia.
    replace (cml - Z.of_nat (length (b :: topic)))
      with (cml - 1 - Z.of_nat (length topic)) by (cbn [length]; lia).
    split; [reflexivity|]. repeat split; assumption.
Qed.

(** The first byte of a message. *)
Lemma step_control_byte : forall buf cml cap pb pidx fs idx nv b,
  Client.domoticz_step
    {| Client.r_uip_buf := buf; Client.r_mqtt_partial_buffer_length := 0;
       Client.r_pbi := 0; Client.r_current_msg_length := cml;
       Client.r_remaining_length_captured_flag := cap;
       Client.r_parse_buffer := pb; Client.r_parse_index := pidx;
       Client.r_filter_step := fs; Client.r_idx_string := idx;
       Client.r_nvalue_string := nv |} b
  = Client.Continue
      {| Client.r_uip_buf := store buf 0 b;
         Client.r_mqtt_partial_buffer_length := 1;
         Client.r_pbi := 1; Client.r_current_msg_length := cml;
         Client.r_remaining_length_captured_flag := 0;
         Client.r_parse_buffer := pb; Client.r_parse_index := pidx;
         Client.r_filter_step := Client.CAPTURE_VARIABLE_HEADER_BYTE1;
         Client.r_idx_string := store idx 0 0;
         Client.r_nvalue_string := store nv 0 0 |}.
Proof. intros. reflexivity. Qed.

(** A Remaining Length that fits one byte. *)
Lemma step_length_single : forall buf cml pb pidx fs idx nv b,
  0 < b < 128 ->
  Client.domoticz_step
    {| Client.r_uip_buf := buf; Client.r_mqtt_partial_buffer_length := 1;
       Client.r_pbi := 1; Client.r_current_msg_length := cml;
       Client.r_remaining_length_captured_flag := 0;
       Client.r_parse_buffer := pb; Client.r_parse_index := pidx;
       Client.r_filter_step := fs; Client.r_idx_string := idx;
       Client.r_nvalue_string := nv |} b
  = Client.Continue
      {| Client.r_uip_buf := store buf 1 b;
         Client.r_mqtt_partial_buffer_length := 2;
         Client.r_pbi := 2; Client.r_current_msg_length := b;
         Client.r_remaining_length_captured_flag := 1;
         Client.r_parse_buffer := pb; Client.r_parse_index := pidx;
         Client.r_filter_step := fs; Client.r_idx_string := idx;
         Client.r_nvalue_string := nv |}.
Proof.
  intros buf cml pb pidx fs idx nv b Hb.
  destruct (low7_facts b ltac:(lia)) as (H127 & H128 & _).
  unfold Client.domoticz_step. cbn.
  rewrite H127, H128. rewrite u16_small by lia.
  destruct (Z.eqb_spec b 0) as [E|_]; [lia|]. reflexivity.
Qed.






Lemma get_set_reassembly : forall g r,
  Client.get_reassembly (Client.set_reassembly g r) = r.
Proof. intros g [ ]. reflexivity. Qed.

Lemma set_get_reassembly : forall g,
  Client.set_reassembly g (Client.get_reassembly g) = g.
Proof. intros [ ]. reflexivity. Qed.

Section ReassemblyDomoticz.
Context {H : MqttHeader} {A : Type}.
Variable mqtt_pal_sendall : list Z -> Z.
Variable publish_response_callback :
  A -> Client.globals -> Codec.mqtt_response_publish -> A.
Variable slot_junk : MQ.mqtt_queued_message.
Variable response_junk : Codec.mqtt_response.

Local Abbreviation domoticz_loop :=
  (Client.domoticz_loop mqtt_pal_sendall publish_response_callback slot_junk
                        response_junk).
Local Abbreviation mqtt_sync_domoticz :=
  (Client.mqtt_sync_domoticz mqtt_pal_sendall publish_response_callback
                             slot_junk response_junk).

(** [mqtt_recv] and [mqtt_send] leave the reassembly variables alone. *)
Lemma recv_reassembly : forall g (c : Client.mqtt_client A),
  Client.get_reassembly
    (snd (fst (Client.mqtt_recv publish_response_callback response_junk g c)))
  = Client.get_reassembly g.
Proof.
  intros g c. unfold Client.mqtt_recv.
  repeat match goal with
         | |- context [let '(_, _) := ?x in _] => destruct x
         | |- context [match ?x with Some _ => _ | None => _ end] => destruct x
         | |- context [if ?b then _ else _] => destruct b
         end; reflexivity.
Qed.

Lemma deliver_reassembly : forall (c : Client.mqtt_client A) g log,
  match Client.deliver mqtt_pal_sendall publish_response_callback slot_junk
          response_junk Client.domoticz_reset c g log with
  | inl r =>
      Client.get_reassembly (globals_of r)
      = Client.get_reassembly (Client.domoticz_reset g)
  | inr (_, g', _) =>
      Client.get_reassembly g'
      = Client.get_reassembly (Client.domoticz_reset g)
  end.
Proof.
  intros c g log. unfold Client.deliver.
  pose proof (recv_reassembly g c) as Hr.
  destruct (Client.mqtt_recv _ _ _ _) as [[c1 g1] err].
  cbn [fst snd] in Hr.
  assert (Hreset : Client.get_reassembly (Client.domoticz_reset g1)
                   = Client.get_reassembly (Client.domoticz_reset g)).
  { unfold Client.domoticz_reset. rewrite !get_set_reassembly. now rewrite Hr. }
  destruct (negb (err =? MQTT_OK)); [exact Hreset|].
  destruct (Client.mqtt_send _ _ _ _) as [c2 err2].
  destruct (negb (err2 =? MQTT_OK)); exact Hreset.
Qed.

Lemma domoticz_loop_run : forall ch (c : Client.mqtt_client A) g log r',
  domoticz_run (Client.get_reassembly g) ch = Some r' ->
  domoticz_loop c g ch log = Client.LoopEnd c (Client.set_reassembly g r') log.
Proof.
  induction ch as [|b ch IH]; intros c g log r' Hrun.
  - cbn in Hrun. injection Hrun as <-. cbn [Client.domoticz_loop].
    now rewrite set_get_reassembly.
  - cbn [domoticz_run] in Hrun. cbn [Client.domoticz_loop].
    destruct (Client.domoticz_step (Client.get_reassembly g) b)
      as [r1|r1|r1]; try discriminate.
    rewrite (IH c (Client.set_reassembly g r1) log r')
      by (now rewrite get_set_reassembly).
    reflexivity.
Qed.

Lemma domoticz_loop_complete :
  forall body b (c : Client.mqtt_client A) g log r1 r2,
  domoticz_run (Client.get_reassembly g) body = Some r1 ->
  Client.domoticz_step r1 b = Client.Complete r2 ->
  let res := domoticz_loop c g (body ++ [b]) log in
  log_of res = log ++ [Client.snapshot (Client.set_reassembly g r2)] /\
  Client.r_idx_string (Client.get_reassembly (globals_of res))
  = Client.r_idx_string r2 /\
  Client.r_nvalue_string (Client.get_reassembly (globals_of res))
  = Client.r_nvalue_string r2.
Proof.
  induction body as [|x body IH]; intros b c g log r1 r2 Hrun Hlast res.
  - cbn in Hrun. injection Hrun as <-. subst res.
    cbn [app Client.domoticz_loop]. rewrite Hlast.
    pose proof (deliver_log mqtt_pal_sendall publish_response_callback
                  slot_junk response_junk Client.domoticz_reset c
                  (Client.set_reassembly g r2) log) as Hlog.
    pose proof (deliver_reassembly c (Client.set_reassembly g r2) log) as Hre.
    destruct (Client.deliver _ _ _ _ _ _ _ _) as [r|[[c1 g1] l]].
    + rewrite Hlog, Hre. unfold Client.domoticz_reset.
      rewrite !get_set_reassembly. repeat split; reflexivity.
    + cbn [Client.domoticz_loop log_of globals_of]. rewrite Hlog, Hre.
      unfold Client.domoticz_reset.
      rewrite !get_set_reassembly. repeat split; reflexivity.
  - cbn [domoticz_run] in Hrun. subst res.
    cbn [app Client.domoticz_loop].
    destruct (Client.domoticz_step (Client.get_reassembly g) x)
      as [r'|r'|r']; try discriminate.
    apply (IH b c (Client.set_reassembly g r') log r1 r2);
      [now rewrite get_set_reassembly|exact Hlast].
Qed.

Lemma sync_domoticz_loop : forall ch (c : Client.mqtt_client A) g,
  ch <> [] ->
  snd (mqtt_sync_domoticz true ch c g) = log_of (domoticz_loop c g ch []) /\
  Client.get_reassembly (snd (fst (fst (mqtt_sync_domoticz true ch c g))))
  = Client.get_reassembly (globals_of (domoticz_loop c g ch [])).
Proof.
  intros ch c g Hne. unfold Client.mqtt_sync_domoticz.
  destruct ch as [|b ch]; [contradiction|].
  cbn [length andb]. rewrite Nat2Z.inj_succ.
  destruct (Z.ltb_spec 0 (Z.succ (Z.of_nat (length ch)))) as [_|E]; [|lia].
  destruct (domoticz_loop c g (b :: ch) []) as [c1 g1 rv l|c1 g1 l];
    cbn [Client.finish_sync log_of globals_of fst snd];
    [split; reflexivity|].
  unfold Client.final_send.
  destruct (Client.mqtt_send _ _ _ _) as [c2 err]. split; reflexivity.
Qed.

(** Feeding a message in any number of non-empty chunks. *)
Lemma feed_message : forall chunks (c : Client.mqtt_client A) g body b r1 r2,
  Forall (fun ch => ch <> []) chunks ->
  concat chunks = body ++ [b] ->
  domoticz_run (Client.get_reassembly g) body = Some r1 ->
  Client.domoticz_step r1 b = Client.Complete r2 ->
  let res := Client.feed (mqtt_sync_domoticz true) chunks c g in
  snd res = [load_range (Client.r_uip_buf r2) 0
               (Z.to_nat (Client.r_mqtt_partial_buffer_length r2))] /\
  Client.r_idx_string (Client.get_reassembly (snd (fst res)))
  = Client.r_idx_string r2 /\
  Client.r_nvalue_string (Client.get_reassembly (snd (fst res)))
  = Client.r_nvalue_string r2.
Proof.
  induction chunks as [|ch chunks IH];
    intros c g body b r1 r2 Hne Hcat Hrun Hlast res.
  - cbn in Hcat. destruct body; discriminate.
  - inversion Hne as [|? ? Hch Hne']; subst. subst res.
    cbn [Client.feed concat] in *.
    destruct (sync_domoticz_loop ch c g Hch) as [Hlog Hglob].
    destruct (mqtt_sync_domoticz true ch c g) as [[[c1 g1] rv] l] eqn:Hsync.
    cbn [fst snd] in Hlog, Hglob.
    destruct chunks as [|ch' chunks'].
    + (* the last chunk *)
      cbn [concat] in Hcat. rewrite app_nil_r in Hcat. subst ch.
      cbn [Client.feed]. cbn [fst snd]. rewrite app_nil_r.
      destruct (domoticz_loop_complete body b c g [] r1 r2 Hrun Hlast)
        as (Hl & Hi & Hn).
      rewrite Hlog, Hl, Hglob, Hi, Hn. cbn [app].
      unfold Client.snapshot. cbn [Client.set_reassembly Client.uip_buf
                                   Client.mqtt_partial_buffer_length].
      repeat split; reflexivity.
    + (* a chunk inside the message *)
      assert (Hrest : concat (ch' :: chunks') <> []).
      { inversion Hne' as [|? ? Hch' _]; subst. cbn [concat].
        destruct ch'; [contradiction|discriminate]. }
      destruct (exists_last Hrest) as (mid & z & Hmid).
      rewrite Hmid in Hcat. rewrite app_assoc in Hcat.
      apply app_inj_tail in Hcat as [Hbody <-].
      subst body. rewrite domoticz_run_app in Hrun.
      destruct (domoticz_run (Client.get_reassembly g) ch) as [rm|] eqn:Hch_run;
        [|discriminate].
      rewrite (domoticz_loop_run ch c g [] rm Hch_run) in Hlog, Hglob.
      cbn [log_of globals_of] in Hlog, Hglob.
      rewrite get_set_reassembly in Hglob.
      specialize (IH c1 g1 mid z r1 r2 Hne' Hmid).
      rewrite Hglob in IH. specialize (IH Hrun Hlast). cbv zeta in IH.
      destruct (Client.feed (mqtt_sync_domoticz true) (ch' :: chunks') c1 g1)
        as [[c2 g2] l2].
      cbn [fst snd] in IH |- *. rewrite Hlog. cbn [app]. exact IH.
Qed.

End ReassemblyDomoticz.

(** ** Stream reassembly, Domoticz build: the scenario *)






Lemma with_cml_twice : forall r n m, with_cml (with_cml r n) m = with_cml r m.
Proof. reflexivity. Qed.








(** *** The filter over the bytes between the components *)






















Section DomoticzScenario.
Context {H : MqttHeader} {A : Type}.
Variable mqtt_pal_sendall : list Z -> Z.
Variable publish_response_callback :
  A -> Client.globals -> Codec.mqtt_response_publish -> A.
Variable slot_junk : MQ.mqtt_queued_message.
Variable response_junk : Codec.mqtt_response.


End DomoticzScenario.



(** ** The codec: the fixed-header decoder *)

(** The enumerators of [std_header] are as the code needs them. *)
Ltac std_header_ok :=
  unfold header_ok; split; [|simpl; lia];
  repeat (apply Forall_cons; [simpl; lia|]); apply Forall_nil.

Section CodecBounds.
Context {H : MqttHeader}.

Lemma land_127_range b : 0 <= Z.land b 127 < 128.
Proof.
  change 127 with (Z.ones 7). rewrite Z.land_ones by lia.
  apply Z.mod_pos_bound. lia.
Qed.

Lemma unpack_loop_ext : forall f mem mem' pos bufsz lshift rl,
  1 <= bufsz <= 65535 ->
  (forall j, pos < j < pos + bufsz -> mem j = mem' j) ->
  Codec.unpack_loop f mem pos bufsz lshift rl
  = Codec.unpack_loop f mem' pos bufsz lshift rl.
Proof.
  induction f as [|f IH]; intros mem mem' pos bufsz lshift rl Hsz Hext;
    [reflexivity|].
  cbn [Codec.unpack_loop].
  destruct (lshift =? 28); [reflexivity|].
  rewrite u16_small by lia.
  destruct (Z.eqb_spec (bufsz - 1) 0) as [E|N]; [reflexivity|].
  rewrite <- (Hext (pos + 1)) by lia.
  destruct (negb (Z.land (mem (pos + 1)) 128 =? 0)); [|reflexivity].
  apply IH; [lia|]. intros j Hj. apply Hext. lia.
Qed.

(** X1. [mqtt_unpack_fixed_header] reads the [bufsz] bytes of its buffer
    and nothing else: on two memories that agree on the bytes [buf] to
    [buf + bufsz - 1] it returns the same value and the same header. *)
Theorem unpack_fixed_header_reads_buffer_only :
  forall fh0 mem mem' buf bufsz,
  0 <= bufsz <= 65535 ->
  (forall j, buf <= j < buf + bufsz -> mem j = mem' j) ->
  Codec.mqtt_unpack_fixed_header fh0 mem buf bufsz
  = Codec.mqtt_unpack_fixed_header fh0 mem' buf bufsz.
Proof.
  intros fh0 mem mem' buf bufsz Hsz Hext.
  unfold Codec.mqtt_unpack_fixed_header.
  destruct (Z.eqb_spec bufsz 0) as [E|N]; [reflexivity|].
  rewrite <- (Hext buf) by lia.
  rewrite (unpack_loop_ext 5 mem mem' buf bufsz 0 0); [reflexivity|lia|].
  intros j Hj. apply Hext. lia.
Qed.

Lemma pow128_succ k : 0 <= k -> 128 ^ (k + 1) = 128 * 128 ^ k.
Proof. intro Hk. rewrite Z.pow_add_r by lia. lia. Qed.

Lemma pow128_shift k : 0 <= k -> 2 ^ (7 * k) = 128 ^ k.
Proof.
  intro Hk. rewrite Z.pow_mul_r by lia. reflexivity.
Qed.

(** What the loop over the length bytes has done when it ends normally. *)
Lemma unpack_loop_done : forall f mem pos bufsz k rl pos' bufsz' rl',
  1 <= bufsz <= 65535 -> 0 <= k <= 4 -> 0 <= rl < 128 ^ k ->
  Codec.unpack_loop f mem pos bufsz (7 * k) rl = Codec.UDone pos' bufsz' rl' ->
  exists n, 1 <= n /\ k + n <= 4 /\ pos' = pos + n /\ bufsz' = bufsz - n /\
            1 <= bufsz' /\ 0 <= rl' < 128 ^ (k + n).
Proof.
  induction f as [|f IH]; intros mem pos bufsz k rl pos' bufsz' rl' Hsz Hk Hrl Hd;
    [discriminate|].
  cbn [Codec.unpack_loop] in Hd.
  destruct (Z.eqb_spec (7 * k) 28) as [E|N]; [discriminate|].
  rewrite u16_small in Hd by lia.
  destruct (Z.eqb_spec (bufsz - 1) 0) as [E|Nb]; [discriminate|].
  pose proof (land_127_range (mem (pos + 1))) as Hb.
  set (x := Z.land (mem (pos + 1)) 127) in *.
  rewrite Z.shiftl_mul_pow2 in Hd by lia.
  rewrite pow128_shift in Hd by lia.
  assert (Hp : 0 < 128 ^ k) by (apply Z.pow_pos_nonneg; lia).
  assert (Hnew : 0 <= rl + x * 128 ^ k < 128 ^ (k + 1)).
  { rewrite pow128_succ by lia. nia. }
  assert (H4 : 128 ^ (k + 1) <= 128 ^ 4) by (apply Z.pow_le_mono_r; lia).
  change (128 ^ 4) with 268435456 in H4.
  rewrite u32_small in Hd by lia.
  destruct (negb (Z.land (mem (pos + 1)) 128 =? 0)).
  - replace (7 * k + 7) with (7 * (k + 1)) in Hd by lia.
    apply IH in Hd; [|lia|lia|exact Hnew].
    destruct Hd as (n & Hn & Hkn & -> & -> & Hb' & Hrl').
    exists (n + 1). replace (k + (n + 1)) with (k + 1 + n) by lia.
    repeat split; try lia.
  - injection Hd as <- <- <-. exists 1. repeat split; try lia.
Qed.

Lemma unpack_loop_return : forall f mem pos bufsz lshift rl rv rl',
  Codec.unpack_loop f mem pos bufsz lshift rl = Codec.UReturn rv rl' ->
  rv = 0 \/ rv = MQTT_ERROR_INVALID_REMAINING_LENGTH.
Proof.
  induction f as [|f IH]; intros mem pos bufsz lshift rl rv rl' Hr;
    [discriminate|].
  cbn [Codec.unpack_loop] in Hr.
  destruct (lshift =? 28); [injection Hr as <- _; now right|].
  destruct (u16 (bufsz - 1) =? 0); [injection Hr as <- _; now left|].
  destruct (negb _); [|discriminate]. now apply IH in Hr.
Qed.

Lemma header_errors_negative : header_ok H ->
  MQTT_ERROR_CONTROL_FORBIDDEN_TYPE < 0 /\
  MQTT_ERROR_CONTROL_INVALID_FLAGS < 0 /\
  MQTT_ERROR_INVALID_REMAINING_LENGTH < 0 /\
  MQTT_ERROR_CONNACK_FORBIDDEN_FLAGS < 0 /\
  MQTT_ERROR_CONNACK_FORBIDDEN_CODE < 0 /\
  MQTT_ERROR_RESPONSE_INVALID_CONTROL_TYPE < 0 /\
  MQTT_ERROR_MALFORMED_REQUEST < 0 /\
  MQTT_ERROR_MALFORMED_RESPONSE < 0 /\
  MQTT_ERROR_ACK_OF_UNKNOWN < 0 /\
  MQTT_ERROR_CONNECT_CLIENT_ID_REFUSED < 0 /\
  MQTT_ERROR_CONNECTION_REFUSED < 0 /\
  MQTT_ERROR_SUBSCRIBE_FAILED < 0 /\
  0 <= MQTT_OK.
Proof.
  intros (Herr & Hok & _).
  rewrite Forall_forall in Herr.
  repeat split; try lia; apply Herr; cbn; tauto.
Qed.

Lemma rule_violation_cases : forall fh,
  (Codec.mqtt_fixed_header_rule_violation fh = 0 /\
   Codec.tbl Codec.control_type_is_valid (u8 (Codec.control_type fh)) = 1) \/
  Codec.mqtt_fixed_header_rule_violation fh = MQTT_ERROR_CONTROL_FORBIDDEN_TYPE \/
  Codec.mqtt_fixed_header_rule_violation fh = MQTT_ERROR_CONTROL_INVALID_FLAGS.
Proof.
  intro fh. unfold Codec.mqtt_fixed_header_rule_violation.
  destruct (Z.eqb_spec (Codec.tbl Codec.control_type_is_valid
                          (u8 (Codec.control_type fh))) 1) as [E|N];
    cbn [negb]; [|now right; left].
  destruct (_ =? 1); [now right; right|now left].
Qed.

(** X2. When [mqtt_unpack_fixed_header] returns a positive value, this
    value is the length of the fixed header, between 2 and 5; the decoded
    Remaining Length is below 2^28; the header and the bytes it announces
    fit in the buffer; and the control type is one of 1 to 14. *)
Theorem unpack_fixed_header_success_frame_in_buffer :
  forall fh0 mem buf bufsz,
  header_ok H ->
  0 <= bufsz <= 65535 ->
  let r := Codec.mqtt_unpack_fixed_header fh0 mem buf bufsz in
  0 < fst r ->
  2 <= fst r <= 5 /\
  0 <= Codec.remaining_length (snd r) < 2 ^ 28 /\
  fst r + Codec.remaining_length (snd r) <= bufsz /\
  1 <= Codec.control_type (snd r) <= 14.
Proof.
  intros fh0 mem buf bufsz Hok Hsz r Hpos. subst r.
  destruct (header_errors_negative Hok) as (Ht & Hf & Hr & _).
  unfold Codec.mqtt_unpack_fixed_header in *.
  destruct (Z.eqb_spec bufsz 0) as [E|N]; [cbn in Hpos; lia|].
  destruct (Codec.unpack_loop 5 mem buf bufsz 0 0) as [rv rl|pos' b' rl|] eqn:Hl.
  - apply unpack_loop_return in Hl. cbn [fst] in Hpos. lia.
  - change 0 with (7 * 0) in Hl at 1.
    apply unpack_loop_done in Hl; [|lia|lia|cbn; lia].
    destruct Hl as (n & Hn & Hn4 & -> & -> & Hb & Hrl).
    rewrite Z.add_0_l in Hn4, Hrl.
    assert (H4 : 128 ^ n <= 128 ^ 4) by (apply Z.pow_le_mono_r; lia).
    change (128 ^ 4) with (2 ^ 28) in H4.
    match goal with
    | _ : context [Codec.mqtt_fixed_header_rule_violation ?x] |- _ =>
        destruct (rule_violation_cases x) as [[E Hv]|[E|E]]; rewrite E in *
    end.
    + cbn [Z.eqb negb] in *.
      rewrite u16_small in * by lia.
      destruct (Z.ltb_spec (bufsz - n - 1) rl) as [Hlt|Hge];
        [cbn in Hpos; lia|].
      cbn [fst snd Codec.remaining_length Codec.control_type] in *.
      replace (buf + n + 1 - buf) with (n + 1) in * by lia.
      rewrite i16_small in * by lia.
      cbn [Codec.control_type] in Hv.
      assert (Hu : 0 <= u8 (Z.shiftr (mem buf) 4) < 256)
        by (apply Z.mod_pos_bound; lia).
      rewrite (u8_small (u8 _)) in Hv by exact Hu.
      apply legal_type_range in Hv. lia.
    + destruct (Z.eqb_spec MQTT_ERROR_CONTROL_FORBIDDEN_TYPE 0); [lia|].
      cbn [negb fst] in Hpos. lia.
    + destruct (Z.eqb_spec MQTT_ERROR_CONTROL_INVALID_FLAGS 0); [lia|].
      cbn [negb fst] in Hpos. lia.
  - cbn in Hpos. lia.
Qed.

End CodecBounds.

(** Witness of [unpack_fixed_header_reads_buffer_only]: two buffers with the
    same PINGRESP and different bytes behind it. *)
Lemma unpack_fixed_header_reads_buffer_only_witness :
  Codec.mqtt_unpack_fixed_header (H := std_header) (mk_fixed_header 0 0 0)
    (store_list zeros 0 [208; 0]) 0 2
  = Codec.mqtt_unpack_fixed_header (H := std_header) (mk_fixed_header 0 0 0)
      (store_list zeros 0 [208; 0; 99]) 0 2.
Proof.
  apply (unpack_fixed_header_reads_buffer_only (H := std_header)).
  - lia.
  - intros j Hj. assert (Hc : j = 0 \/ j = 1) by lia.
    destruct Hc as [-> | ->]; reflexivity.
Defined.

(** Witness of [unpack_fixed_header_success_frame_in_buffer]: a PINGRESP. *)
Lemma unpack_fixed_header_success_frame_in_buffer_witness :
  let r := Codec.mqtt_unpack_fixed_header (H := std_header)
             (mk_fixed_header 0 0 0) (store_list zeros 0 [208; 0]) 0 2 in
  2 <= fst r <= 5 /\
  0 <= Codec.remaining_length (snd r) < 2 ^ 28 /\
  fst r + Codec.remaining_length (snd r) <= 2 /\
  1 <= Codec.control_type (snd r) <= 14.
Proof.
  apply (unpack_fixed_header_success_frame_in_buffer (H := std_header)).
  - std_header_ok.
  - lia.
  - vm_compute. reflexivity.
Defined.

Section CodecEdges.
Context {H : MqttHeader}.

(** X3. A Remaining Length of more than four bytes is refused: when the
    four bytes behind the control byte all have the continuation bit set,
    [mqtt_unpack_fixed_header] returns MQTT_ERROR_INVALID_REMAINING_LENGTH,
    whatever the control byte is. *)
Theorem unpack_fixed_header_rejects_fifth_length_byte :
  forall fh0 mem buf bufsz,
  5 <= bufsz <= 65535 ->
  (forall i, 1 <= i <= 4 -> Z.land (mem (buf + i)) 128 <> 0) ->
  fst (Codec.mqtt_unpack_fixed_header fh0 mem buf bufsz)
  = MQTT_ERROR_INVALID_REMAINING_LENGTH.
Proof.
  intros fh0 mem buf bufsz Hsz Hc.
  unfold Codec.mqtt_unpack_fixed_header.
  destruct (Z.eqb_spec bufsz 0) as [E|_]; [lia|].
  assert (Hstep : forall f pos b ls rl,
            2 <= b <= 65535 -> ls <> 28 ->
            Z.land (mem (pos + 1)) 128 <> 0 ->
            Codec.unpack_loop (S f) mem pos b ls rl
            = Codec.unpack_loop f mem (pos + 1) (b - 1) (ls + 7)
                (u32 (rl + Z.shiftl (Z.land (mem (pos + 1)) 127) ls))).
  { intros f pos b ls rl Hb Hls Hbit. cbn [Codec.unpack_loop].
    destruct (Z.eqb_spec ls 28) as [E|_]; [contradiction|].
    rewrite u16_small by lia.
    destruct (Z.eqb_spec (b - 1) 0) as [E|_]; [lia|].
    destruct (Z.eqb_spec (Z.land (mem (pos + 1)) 128) 0) as [E|_];
      [contradiction|reflexivity]. }
  rewrite Hstep by (try lia; apply Hc; lia).
  rewrite Hstep by (try lia; replace (buf + 1 + 1) with (buf + 2) by lia;
                    apply Hc; lia).
  rewrite Hstep by (try lia; replace (buf + 1 + 1 + 1) with (buf + 3) by lia;
                    apply Hc; lia).
  rewrite Hstep by (try lia;
                    replace (buf + 1 + 1 + 1 + 1) with (buf + 4) by lia;
                    apply Hc; lia).
  reflexivity.
Qed.

(** The loop over the length bytes when the buffer ends inside them. *)
Lemma unpack_loop_truncated : forall f mem pos bufsz k acc rl,
  (0 < f)%nat ->
  0 <= rl < 128 ^ Z.of_nat f ->
  holds mem (pos + 1) (firstn (Z.to_nat (bufsz - 1)) (varint f rl)) ->
  1 <= bufsz <= Z.of_nat (length (varint f rl)) ->
  0 <= k -> k + Z.of_nat (length (varint f rl)) <= 4 ->
  exists rl', Codec.unpack_loop f mem pos bufsz (7 * k) acc
              = Codec.UReturn 0 rl'.
Proof.
  induction f as [|f IH]; intros mem pos bufsz k acc rl Hf Hrl Hmem Hsz Hk Hk4;
    [lia|].
  cbn [Codec.unpack_loop varint] in *.
  assert (Hm : 0 <= rl mod 128 < 128) by (apply Z.mod_pos_bound; lia).
  destruct (low7_facts _ Hm) as (Hl127 & Hl128 & _ & Hl127' & Hl128').
  destruct (Z.eqb_spec (7 * k) 28) as [E|_].
  { pose proof (varint_length_pos (S f) rl ltac:(lia)) as Hl.
    cbn [varint] in Hl. lia. }
  rewrite u16_small by lia.
  destruct (Z.eqb_spec (bufsz - 1) 0) as [E|Nb]; [eexists; reflexivity|].
  destruct (Z.ltb_spec 127 rl) as [Hbig|Hsmall].
  - cbn [length] in Hsz, Hk4.
    replace (Z.to_nat (bufsz - 1)) with (S (Z.to_nat (bufsz - 2))) in Hmem
      by lia.
    cbn [firstn holds] in Hmem. destruct Hmem as [Hb Hrest].
    rewrite Hb, Hl128'. cbn [Z.eqb negb].
    assert (Hdiv : 0 <= rl / 128 < 128 ^ Z.of_nat f).
    { rewrite Nat2Z.inj_succ, Z.pow_succ_r in Hrl by lia.
      split; [apply Z.div_pos; lia|apply Z.div_lt_upper_bound; lia]. }
    assert (Hf' : (0 < f)%nat).
    { destruct f; [simpl in Hdiv; lia|lia]. }
    replace (7 * k + 7) with (7 * (k + 1)) by lia.
    apply (IH mem (pos + 1) (bufsz - 1) (k + 1) _ (rl / 128)); try lia;
      try exact Hdiv.
    replace (bufsz - 1 - 1) with (bufsz - 2) by lia. exact Hrest.
  - cbn [length] in Hsz. lia.
Qed.

(** X4. A buffer that ends before the frame does is no error: for a valid
    fixed header [x], when the buffer holds the first [bufsz] bytes of the
    frame and [bufsz] is less than the length of the header plus the
    Remaining Length, [mqtt_unpack_fixed_header] returns 0, its request for
    more bytes. *)
Theorem unpack_fixed_header_incomplete_frame :
  forall fh0 mem buf bufsz x,
  Codec.tbl Codec.control_type_is_valid (Codec.control_type x) = 1 ->
  Codec.mqtt_fixed_header_rule_violation x = 0 ->
  0 <= Codec.control_flags x < 16 ->
  0 <= Codec.remaining_length x <= 2 ^ 28 - 1 ->
  let hdr := (16 * Codec.control_type x + Codec.control_flags x)
             :: varint 5 (Codec.remaining_length x) in
  0 <= bufsz < Z.of_nat (length hdr) + Codec.remaining_length x ->
  bufsz <= 65535 ->
  holds mem buf (firstn (Z.to_nat bufsz) hdr) ->
  fst (Codec.mqtt_unpack_fixed_header fh0 mem buf bufsz) = 0.
Proof.
  intros fh0 mem buf bufsz [ct cf rl] Hlegal Hrule Hcf Hrl hdr Hsz H16 Hmem.
  cbn [Codec.control_type Codec.control_flags Codec.remaining_length] in *.
  apply legal_type_range in Hlegal.
  subst hdr. set (enc := varint 5 rl) in *.
  assert (Hlen : (1 <= length enc <= 4)%nat).
  { split; [apply varint_length_pos; lia|].
    apply varint_length_bound; [lia|].
    change (128 ^ Z.of_nat 4) with (2 ^ 28). lia. }
  assert (H5 : 0 <= rl < 128 ^ Z.of_nat 5).
  { change (128 ^ Z.of_nat 5) with 34359738368. lia. }
  unfold Codec.mqtt_unpack_fixed_header.
  destruct (Z.eqb_spec bufsz 0) as [E|N]; [reflexivity|].
  replace (Z.to_nat bufsz) with (S (Z.to_nat (bufsz - 1))) in Hmem by lia.
  cbn [firstn holds length] in Hmem, Hsz. destruct Hmem as [Hb0 Hrest].
  destruct (Z.le_gt_cases bufsz (Z.of_nat (length enc))) as [Hshort|Hlong].
  - (* the buffer ends inside the length bytes *)
    change 0 with (7 * 0) at 1.
    assert (Hl : exists rl', Codec.unpack_loop 5 mem buf bufsz (7 * 0) 0
                             = Codec.UReturn 0 rl').
    { apply (unpack_loop_truncated 5 mem buf bufsz 0 0 rl);
        try lia; try assumption; fold enc; lia. }
    destruct Hl as [rl' Hl]. now rewrite Hl.
  - (* the buffer ends inside the body *)
    rewrite firstn_all2 in Hrest by lia.
    assert (Hl : Codec.unpack_loop 5 mem buf bufsz 0 0
                 = Codec.UDone (buf + Z.of_nat (length enc))
                               (bufsz - Z.of_nat (length enc)) rl).
    { change 0 with (7 * 0) at 1.
      rewrite (unpack_loop_varint 5 mem buf bufsz 0 0 rl).
      - fold enc. rewrite Z.mul_0_r, Z.pow_0_r, Z.mul_1_r, Z.add_0_l.
        reflexivity.
      - lia.
      - exact H5.
      - exact Hrest.
      - fold enc. lia.
      - lia.
      - fold enc. lia.
      - lia.
      - rewrite Z.mul_0_r, Z.pow_0_r. lia. }
    rewrite Hl.
    assert (Hb : mem buf = Z.lor (u8 (Z.land (Z.shiftl ct 4) 240))
                                 (u8 (Z.land cf 15))).
    { rewrite Hb0. clear - Hlegal Hcf.
      assert (Hall : all_from 256 0 (fun x =>
                let ct := x / 16 in let cf := x mod 16 in
                (16 * ct + cf =? Z.lor (u8 (Z.land (Z.shiftl ct 4) 240))
                                       (u8 (Z.land cf 15)))) = true)
        by (vm_compute; reflexivity).
      pose proof (all_from_spec _ _ _ Hall (16 * ct + cf) ltac:(lia)) as Hc.
      cbv beta zeta in Hc.
      replace ((16 * ct + cf) / 16) with ct in Hc
        by (apply Z.div_unique with cf; lia).
      replace ((16 * ct + cf) mod 16) with cf in Hc
        by (apply Z.mod_unique with ct; lia).
      now apply Z.eqb_eq in Hc. }
    destruct (byte0_facts ct cf ltac:(lia) Hcf) as [Hb0t Hb0f].
    cbv zeta in Hb0t, Hb0f.
    rewrite Hb, Hb0t, Hb0f, Hrule. cbn [Z.eqb negb].
    rewrite u16_small by lia.
    destruct (Z.ltb_spec (bufsz - Z.of_nat (length enc) - 1) rl) as [_|E];
      [reflexivity|lia].
Qed.

(** 16-bit integers in network byte order: [mqtt_pack_uint16] writes two
    bytes and [mqtt_unpack_uint16] reads the value back. *)
Theorem uint16_roundtrip :
  forall mem buf x,
  let p := Codec.mqtt_pack_uint16 mem buf x in
  fst p = 2 /\
  Codec.mqtt_unpack_uint16 (snd p) buf = u16 x /\
  load_range (snd p) buf 2 = be16 (u16 x) /\
  forall j, j <> buf -> j <> buf + 1 -> snd p j = mem j.
Proof.
  intros mem buf x p. subst p. unfold Codec.mqtt_pack_uint16,
    Codec.mqtt_unpack_uint16. cbn [fst snd].
  pose proof (u16_range x) as Hx. set (y := u16 x) in *.
  assert (Hhi : u8 (Z.shiftr y 8) = y / 256).
  { rewrite Z.shiftr_div_pow2 by lia. change (2 ^ 8) with 256.
    apply u8_small. split; [apply Z.div_pos; lia|].
    apply Z.div_lt_upper_bound; lia. }
  assert (Hlo : u8 y = y mod 256) by reflexivity.
  split; [reflexivity|]. split; [|split].
  - rewrite store_eq. rewrite store_neq by lia. rewrite store_eq.
    rewrite Hhi, Hlo. rewrite Z.shiftl_mul_pow2 by lia. change (2 ^ 8) with 256.
    rewrite <- (u16_small y) at 3 by lia. f_equal.
    pose proof (Z.div_mod y 256 ltac:(lia)). lia.
  - unfold load_range, be16. cbn [seq map]. rewrite Z.add_0_r.
    rewrite store_neq by lia. rewrite !store_eq. now rewrite Hhi, Hlo.
  - intros j H0 H1. now rewrite !store_neq by assumption.
Qed.

End CodecEdges.

(** Witness of [unpack_fixed_header_rejects_fifth_length_byte]: a buffer of
    bytes 255. *)
Lemma unpack_fixed_header_rejects_fifth_length_byte_witness :
  fst (Codec.mqtt_unpack_fixed_header (H := std_header)
         (mk_fixed_header 0 0 0) (fun _ => 255) 0 5)
  = @MQTT_ERROR_INVALID_REMAINING_LENGTH std_header.
Proof.
  apply (unpack_fixed_header_rejects_fifth_length_byte (H := std_header)).
  - lia.
  - intros i _. vm_compute. discriminate.
Defined.

(** Witness of [unpack_fixed_header_incomplete_frame]: the first five bytes
    of a PUBLISH of twelve. *)
Lemma unpack_fixed_header_incomplete_frame_witness :
  fst (Codec.mqtt_unpack_fixed_header (H := std_header)
         (mk_fixed_header 0 0 0) (store_list zeros 0 [48; 10; 0; 1; 116]) 0 5)
  = 0.
Proof.
  apply (unpack_fixed_header_incomplete_frame (H := std_header)
           (mk_fixed_header 0 0 0) (store_list zeros 0 [48; 10; 0; 1; 116])
           0 5 (mk_fixed_header 3 0 10)).
  - reflexivity.
  - reflexivity.
  - simpl. lia.
  - simpl. lia.
  - simpl. lia.
  - lia.
  - vm_compute. repeat split.
Defined.

(** ** Frames on the wire *)

Lemma mem_eq_refl m : mem_eq m m.
Proof. intro j. reflexivity. Qed.

Lemma mem_eq_trans m1 m2 m3 : mem_eq m1 m2 -> mem_eq m2 m3 -> mem_eq m1 m3.
Proof. intros H12 H23 j. now rewrite H12. Qed.

Lemma store_mem_eq m m' i v : mem_eq m m' -> mem_eq (store m i v) (store m' i v).
Proof. intros E j. unfold store. destruct (j =? i); [reflexivity|apply E]. Qed.

Lemma store_store m i a b : mem_eq (store (store m i a) i b) (store m i b).
Proof. intro j. unfold store. destruct (j =? i); reflexivity. Qed.

Lemma store_list_mem_eq : forall l m m' off,
  mem_eq m m' -> mem_eq (store_list m off l) (store_list m' off l).
Proof.
  induction l as [|b l IH]; intros m m' off E; cbn [store_list]; [exact E|].
  apply IH. now apply store_mem_eq.
Qed.

Lemma store_list_mem_eq_at l m m' off off' :
  off = off' -> mem_eq m m' ->
  mem_eq (store_list m off l) (store_list m' off' l).
Proof. intros <-. apply store_list_mem_eq. Qed.

Lemma store_mem_eq_at m m' i i' v :
  i = i' -> mem_eq m m' -> mem_eq (store m i v) (store m' i' v).
Proof. intros <-. apply store_mem_eq. Qed.

(** Two sequences of writes are compared write by write; [tac] shows that
    the offsets agree. *)
Ltac same_writes tac :=
  repeat (apply store_list_mem_eq_at;
          [rewrite ?length_app; cbn [length]; tac|]).

Lemma store_list_app : forall l1 l2 m off,
  store_list m off (l1 ++ l2)
  = store_list (store_list m off l1) (off + Z.of_nat (length l1)) l2.
Proof.
  induction l1 as [|b l1 IH]; intros l2 m off; cbn [app store_list length].
  - now rewrite Z.add_0_r.
  - rewrite IH. f_equal. lia.
Qed.

Lemma store_list_above : forall l m off j,
  off + Z.of_nat (length l) <= j -> store_list m off l j = m j.
Proof.
  induction l as [|b l IH]; intros m off j Hj; cbn [store_list length] in *;
    [reflexivity|].
  rewrite IH by lia. apply store_neq. lia.
Qed.

Lemma store_list_outside l m off j :
  j < off \/ off + Z.of_nat (length l) <= j -> store_list m off l j = m j.
Proof.
  intros [Hlo|Hhi]; [now apply store_list_below|now apply store_list_above].
Qed.

Lemma holds_app : forall l1 l2 m off,
  holds m off (l1 ++ l2)
  <-> holds m off l1 /\ holds m (off + Z.of_nat (length l1)) l2.
Proof.
  induction l1 as [|b l1 IH]; intros l2 m off; cbn [app holds length].
  - rewrite Z.add_0_r. tauto.
  - rewrite IH. replace (off + 1 + Z.of_nat (length l1))
      with (off + Z.of_nat (S (length l1))) by lia. tauto.
Qed.

Lemma holds_mem_eq : forall l m m' off,
  mem_eq m m' -> holds m off l -> holds m' off l.
Proof.
  induction l as [|b l IH]; intros m m' off E Hh; cbn [holds] in *; [exact I|].
  destruct Hh as [Hb Hl]. split; [now rewrite <- E|now apply (IH m)].
Qed.

Lemma holds_store_other : forall l m off i v,
  i < off \/ off + Z.of_nat (length l) <= i ->
  holds m off l -> holds (store m i v) off l.
Proof.
  induction l as [|b l IH]; intros m off i v Hi Hh; cbn [holds length] in *;
    [exact I|].
  destruct Hh as [Hb Hl]. split.
  - rewrite store_neq by lia. exact Hb.
  - apply IH; [lia|exact Hl].
Qed.

Lemma load_range_length m off n : length (load_range m off n) = n.
Proof. unfold load_range. now rewrite length_map, length_seq. Qed.

Lemma holds_load_range_self : forall n m off, holds m off (load_range m off n).
Proof.
  unfold load_range. induction n as [|n IH]; intros m off; [exact I|].
  cbn [seq map holds]. split; [now rewrite Z.add_0_r|].
  rewrite <- seq_shift, map_map.
  specialize (IH m (off + 1)).
  erewrite map_ext; [exact IH|]. intro k. cbn. f_equal. lia.
Qed.

Lemma holds_inj : forall l1 l2 m off,
  length l1 = length l2 -> holds m off l1 -> holds m off l2 -> l1 = l2.
Proof.
  induction l1 as [|a l1 IH]; intros [|b l2] m off Hlen H1 H2;
    try discriminate; [reflexivity|].
  cbn [holds length] in *. destruct H1 as [Ha H1], H2 as [Hb H2].
  f_equal; [congruence|]. apply (IH l2 m (off + 1)); [lia|assumption..].
Qed.

(** The first byte of a fixed header. *)
Lemma control_byte_value ct cf : 0 <= ct < 16 ->
  Z.lor (u8 (Z.land (Z.shiftl ct 4) 240)) (u8 (Z.land cf 15))
  = 16 * ct + Z.land cf 15.
Proof.
  intro Hct.
  assert (Hcf : 0 <= Z.land cf 15 < 16).
  { change 15 with (Z.ones 4). rewrite Z.land_ones by lia.
    apply Z.mod_pos_bound. lia. }
  set (c := Z.land cf 15) in *.
  assert (Hall : all_from 256 0 (fun x =>
            let ct := x / 16 in let c := x mod 16 in
            (Z.lor (u8 (Z.land (Z.shiftl ct 4) 240)) (u8 c) =? 16 * ct + c))
          = true) by (vm_compute; reflexivity).
  pose proof (all_from_spec _ _ _ Hall (16 * ct + c) ltac:(lia)) as Hc.
  cbv beta zeta in Hc.
  replace ((16 * ct + c) / 16) with ct in Hc
    by (apply Z.div_unique with c; lia).
  replace ((16 * ct + c) mod 16) with c in Hc
    by (apply Z.mod_unique with ct; lia).
  now apply Z.eqb_eq in Hc.
Qed.

Lemma control_byte_split ct c : 0 <= ct < 16 -> 0 <= c < 16 ->
  u8 (Z.shiftr (16 * ct + c) 4) = ct /\ u8 (Z.land (16 * ct + c) 15) = c.
Proof.
  intros Hct Hc.
  rewrite Z.shiftr_div_pow2 by lia. change (2 ^ 4) with 16.
  change 15 with (Z.ones 4). rewrite Z.land_ones by lia. change (2 ^ 4) with 16.
  replace ((16 * ct + c) / 16) with ct by (apply Z.div_unique with c; lia).
  replace ((16 * ct + c) mod 16) with c by (apply Z.mod_unique with ct; lia).
  split; apply u8_small; lia.
Qed.

Lemma varint5_length rl : 0 <= rl <= 2 ^ 28 - 1 ->
  (1 <= length (varint 5 rl) <= 4)%nat.
Proof.
  intro Hrl. split; [apply varint_length_pos; lia|].
  apply varint_length_bound; [lia|].
  change (128 ^ Z.of_nat 4) with (2 ^ 28). lia.
Qed.

Section Frames.
Context {H : MqttHeader}.

(** [mqtt_pack_fixed_header] when the header is valid and the buffer holds
    the whole frame. *)
Lemma pack_fixed_header_frame : forall mem buf bufsz ct cf rl,
  Codec.mqtt_fixed_header_rule_violation (mk_fixed_header ct cf rl) = 0 ->
  0 <= ct < 16 ->
  0 <= rl <= 2 ^ 28 - 1 ->
  1 + Z.of_nat (length (varint 5 rl)) + rl <= bufsz <= 65535 ->
  let p := Codec.mqtt_pack_fixed_header mem buf bufsz (mk_fixed_header ct cf rl) in
  fst p = 1 + Z.of_nat (length (varint 5 rl)) /\
  mem_eq (snd p)
         (store_list mem buf ((16 * ct + Z.land cf 15) :: varint 5 rl)).
Proof.
  intros mem buf bufsz ct cf rl Hrule Hct Hrl Hsz p. subst p.
  pose proof (varint5_length rl Hrl) as Hlen.
  unfold Codec.mqtt_pack_fixed_header. rewrite Hrule. cbn [Z.eqb negb].
  unfold mk_fixed_header.
  cbn [Codec.control_type Codec.control_flags Codec.remaining_length].
  destruct (Z.eqb_spec bufsz 0) as [E|_]; [lia|].
  rewrite u32_small by lia. rewrite store_eq.
  rewrite pack_loop_varint;
    [|lia|change (128 ^ Z.of_nat 5) with 34359738368; lia|lia].
  rewrite u16_small by lia.
  destruct (Z.ltb_spec (bufsz - Z.of_nat (length (varint 5 rl)) - 1) rl)
    as [E|_]; [lia|].
  cbn [fst snd]. split.
  - replace (buf + Z.of_nat (length (varint 5 rl)) + 1 - buf)
      with (1 + Z.of_nat (length (varint 5 rl))) by lia.
    apply i16_small. lia.
  - cbn [store_list]. apply store_list_mem_eq.
    rewrite control_byte_value by lia. apply store_store.
Qed.

(** [mqtt_unpack_fixed_header] on a buffer that holds a whole frame. *)
Lemma unpack_fixed_header_frame : forall fh0 mem buf bufsz ct cf rl,
  Codec.mqtt_fixed_header_rule_violation (mk_fixed_header ct cf rl) = 0 ->
  0 <= ct < 16 -> 0 <= cf < 16 ->
  0 <= rl <= 2 ^ 28 - 1 ->
  1 + Z.of_nat (length (varint 5 rl)) + rl <= bufsz <= 65535 ->
  holds mem buf ((16 * ct + cf) :: varint 5 rl) ->
  Codec.mqtt_unpack_fixed_header fh0 mem buf bufsz
  = (1 + Z.of_nat (length (varint 5 rl)), mk_fixed_header ct cf rl).
Proof.
  intros fh0 mem buf bufsz ct cf rl Hrule Hct Hcf Hrl Hsz Hmem.
  pose proof (varint5_length rl Hrl) as Hlen.
  cbn [holds] in Hmem. destruct Hmem as [Hb0 Henc].
  destruct (control_byte_split ct cf Hct Hcf) as [Hb0t Hb0f].
  unfold Codec.mqtt_unpack_fixed_header.
  destruct (Z.eqb_spec bufsz 0) as [E|_]; [lia|].
  rewrite Hb0, Hb0t, Hb0f.
  assert (Hl : Codec.unpack_loop 5 mem buf bufsz 0 0
               = Codec.UDone (buf + Z.of_nat (length (varint 5 rl)))
                             (bufsz - Z.of_nat (length (varint 5 rl))) rl).
  { change 0 with (7 * 0) at 1.
    rewrite (unpack_loop_varint 5 mem buf bufsz 0 0 rl).
    - rewrite Z.mul_0_r, Z.pow_0_r, Z.mul_1_r, Z.add_0_l. reflexivity.
    - lia.
    - change (128 ^ Z.of_nat 5) with 34359738368. lia.
    - exact Henc.
    - lia.
    - lia.
    - lia.
    - lia.
    - rewrite Z.mul_0_r, Z.pow_0_r. lia. }
  rewrite Hl. fold (mk_fixed_header ct cf rl). rewrite Hrule.
  cbn [Z.eqb negb]. rewrite u16_small by lia.
  destruct (Z.ltb_spec (bufsz - Z.of_nat (length (varint 5 rl)) - 1) rl)
    as [E|_]; [lia|].
  replace (buf + Z.of_nat (length (varint 5 rl)) + 1 - buf)
    with (1 + Z.of_nat (length (varint 5 rl))) by lia.
  rewrite i16_small by lia. reflexivity.
Qed.

Lemma be16_length x : length (be16 x) = 2%nat.
Proof. reflexivity. Qed.

Lemma pack_uint16_frame mem buf x : 0 <= x < 65536 ->
  Codec.mqtt_pack_uint16 mem buf x = (2, store_list mem buf (be16 x)).
Proof.
  intro Hx. unfold Codec.mqtt_pack_uint16, be16. cbn [store_list].
  rewrite u16_small by lia.
  rewrite Z.shiftr_div_pow2 by lia. change (2 ^ 8) with 256.
  rewrite u8_small.
  - reflexivity.
  - split; [apply Z.div_pos; lia|apply Z.div_lt_upper_bound; lia].
Qed.

Lemma unpack_uint16_frame mem buf x : 0 <= x < 65536 ->
  holds mem buf (be16 x) -> Codec.mqtt_unpack_uint16 mem buf = x.
Proof.
  intros Hx (Hhi & Hlo & _). unfold Codec.mqtt_unpack_uint16.
  rewrite Hhi, Hlo. rewrite Z.shiftl_mul_pow2 by lia. change (2 ^ 8) with 256.
  pose proof (Z.div_mod x 256 ltac:(lia)).
  rewrite u16_small by lia. lia.
Qed.

Lemma pack_str_frame mem buf str : Z.of_nat (length str) <= 32765 ->
  Codec.mqtt_pack_str mem buf str
  = (Z.of_nat (length str) + 2,
     store_list mem buf (be16 (Z.of_nat (length str)) ++ str)).
Proof.
  intro Hlen. unfold Codec.mqtt_pack_str, Codec.strlen.
  rewrite u16_small by lia. rewrite pack_uint16_frame by lia.
  rewrite Nat2Z.id, firstn_all. rewrite i16_small by lia.
  rewrite store_list_app. reflexivity.
Qed.

End Frames.

(** ** The codec: requests *)

Section Requests.
Context {H : MqttHeader}.

Lemma publish_header_valid f rl :
  Codec.mqtt_fixed_header_rule_violation (mk_fixed_header 3 f rl) = 0.
Proof.
  unfold Codec.mqtt_fixed_header_rule_violation, mk_fixed_header.
  cbn [Codec.control_type Codec.control_flags].
  change (u8 3) with 3.
  change (Codec.tbl Codec.control_type_is_valid 3) with 1.
  change (Codec.tbl Codec.mask_required_flags 3) with 0.
  cbn [Z.eqb Pos.eqb negb]. now rewrite Z.land_0_r.
Qed.

Lemma subscribe_header_valid rl :
  Codec.mqtt_fixed_header_rule_violation (mk_fixed_header 8 2 rl) = 0.
Proof. reflexivity. Qed.

(** The bytes [mqtt_pack_publish_request] writes. *)
Lemma publish_request_layout :
  forall mem buf bufsz topic pid msg size flags,
  0 <= size ->
  let rl := Z.of_nat (length topic) + 2 + size in
  let hdr := 1 + Z.of_nat (length (varint 5 rl)) in
  hdr + rl <= bufsz <= 65535 -> hdr + rl <= 32767 ->
  let p := Codec.mqtt_pack_publish_request mem buf bufsz topic pid msg size
             flags in
  fst p = hdr + rl /\
  mem_eq (snd p)
    (store_list mem buf
       (frame (48 + Z.land (Z.land flags (u8 (Z.lnot MQTT_PUBLISH_DUP))) 15)
              (be16 (Z.of_nat (length topic)) ++ topic
               ++ load_range msg 0 (Z.to_nat size)))).
Proof.
  intros mem buf bufsz topic pid msg size flags Hsize rl hdr Hsz H15 p.
  assert (Hbody : Z.of_nat (length (be16 (Z.of_nat (length topic)) ++ topic
                                    ++ load_range msg 0 (Z.to_nat size))) = rl).
  { rewrite !length_app, load_range_length, be16_length. subst rl. lia. }
  unfold frame. rewrite Hbody.
  assert (Hrl : 0 <= rl <= 2 ^ 28 - 1) by (subst rl hdr; lia).
  pose proof (varint5_length rl Hrl) as Hlen.
  subst p. unfold Codec.mqtt_pack_publish_request, Codec.strlen.
  rewrite (u32_small (Z.of_nat (length topic) + 2)) by lia.
  rewrite u32_small by (subst rl; lia). fold rl.
  set (f := Z.land flags (u8 (Z.lnot MQTT_PUBLISH_DUP))).
  change {| Codec.control_type := MQTT_CONTROL_PUBLISH;
            Codec.control_flags := f; Codec.remaining_length := rl |}
    with (mk_fixed_header 3 f rl).
  destruct (pack_fixed_header_frame mem buf bufsz 3 f rl
              (publish_header_valid f rl) ltac:(lia) Hrl ltac:(subst hdr; lia))
    as [Hrv Hm].
  destruct (Codec.mqtt_pack_fixed_header mem buf bufsz (mk_fixed_header 3 f rl))
    as [rv m1]. cbn [fst snd] in Hrv, Hm. subst rv. fold hdr.
  destruct (Z.leb_spec hdr 0) as [E|_]; [subst hdr; lia|].
  rewrite u16_small by (subst hdr; lia).
  destruct (Z.ltb_spec (bufsz - hdr) rl) as [E|_]; [lia|].
  rewrite pack_str_frame by (subst rl hdr; lia).
  unfold Codec.memcpy. cbn [fst snd]. split.
  - rewrite i16_small by (subst rl hdr; lia). subst rl. lia.
  - change (16 * 3) with 48 in Hm.
    replace ((48 + Z.land f 15) :: varint 5 rl
             ++ be16 (Z.of_nat (length topic)) ++ topic
             ++ load_range msg 0 (Z.to_nat size))
      with (((48 + Z.land f 15) :: varint 5 rl)
            ++ (be16 (Z.of_nat (length topic)) ++ topic)
            ++ load_range msg 0 (Z.to_nat size))
      by (cbn [app]; rewrite <- !app_assoc; reflexivity).
    rewrite !store_list_app.
    replace (buf + Z.of_nat (length ((48 + Z.land f 15) :: varint 5 rl)))
      with (buf + hdr) by (cbn [length]; subst hdr; lia).
    replace (buf + hdr
             + Z.of_nat (length (be16 (Z.of_nat (length topic)) ++ topic)))
      with (buf + hdr + (Z.of_nat (length topic) + 2))
      by (rewrite length_app, be16_length; lia).
    repeat apply store_list_mem_eq. exact Hm.
Qed.

Lemma land_without_bit f d c :
  Z.land (Z.land (Z.land f (u8 (Z.lnot d))) c) d = 0.
Proof.
  unfold u8. change 256 with (2 ^ 8). rewrite <- Z.land_ones by lia.
  apply Z.bits_inj'. intros n Hn.
  rewrite !Z.land_spec, Z.lnot_spec, Z.bits_0 by lia.
  destruct (Z.testbit d n); cbn.
  - now rewrite !andb_false_r.
  - now rewrite andb_false_r.
Qed.

(** [mqtt_unpack_response] on a buffer that holds a PUBLISH frame. *)
Lemma unpack_response_publish_frame :
  forall r0 mem buf bufsz cf topic payload,
  0 <= cf < 16 ->
  let rl := Z.of_nat (length topic) + 2 + Z.of_nat (length payload) in
  let hdr := 1 + Z.of_nat (length (varint 5 rl)) in
  4 <= rl ->
  hdr + rl <= bufsz <= 65535 -> hdr + rl <= 32767 ->
  holds mem buf
    (frame (48 + cf) (be16 (Z.of_nat (length topic)) ++ topic ++ payload)) ->
  Codec.mqtt_unpack_response r0 mem buf bufsz
  = (hdr + rl,
     Codec.set_publish
       (Codec.set_fixed_header r0 (mk_fixed_header 3 cf rl))
       {| Codec.dup_flag := u8 (Z.shiftr (Z.land cf MQTT_PUBLISH_DUP) 3);
          Codec.qos_level :=
            u8 (Z.shiftr (Z.land cf MQTT_PUBLISH_QOS_MASK) 1);
          Codec.retain_flag := u8 (Z.land cf MQTT_PUBLISH_RETAIN);
          Codec.topic_name_size := Z.of_nat (length topic);
          Codec.topic_name := buf + hdr + 2;
          Codec.application_message :=
            buf + hdr + 2 + Z.of_nat (length topic);
          Codec.application_message_size := Z.of_nat (length payload) |}).
Proof.
  intros r0 mem buf bufsz cf topic payload Hcf rl hdr H4 Hsz H15 Hh.
  assert (Hrl : 0 <= rl <= 2 ^ 28 - 1) by (subst rl hdr; lia).
  pose proof (varint5_length rl Hrl) as Hlen.
  assert (Hbody : Z.of_nat (length (be16 (Z.of_nat (length topic)) ++ topic
                                    ++ payload)) = rl).
  { rewrite !length_app, be16_length. subst rl. lia. }
  unfold frame in Hh. rewrite Hbody in Hh.
  change ((48 + cf) :: varint 5 rl
          ++ be16 (Z.of_nat (length topic)) ++ topic ++ payload)
    with (((48 + cf) :: varint 5 rl)
          ++ be16 (Z.of_nat (length topic)) ++ topic ++ payload) in Hh.
  apply holds_app in Hh as [Hhdr Hh].
  replace (buf + Z.of_nat (length ((48 + cf) :: varint 5 rl)))
    with (buf + hdr) in Hh by (cbn [length]; subst hdr; lia).
  apply holds_app in Hh as [Hlenb _].
  assert (Hfh : Codec.mqtt_unpack_fixed_header (Codec.fixed_header r0)
                  mem buf bufsz = (hdr, mk_fixed_header 3 cf rl)).
  { apply unpack_fixed_header_frame; try lia;
      [apply publish_header_valid|exact Hhdr]. }
  assert (Htns : Codec.mqtt_unpack_uint16 mem (buf + hdr)
                 = Z.of_nat (length topic)).
  { apply unpack_uint16_frame; [subst rl hdr; lia|exact Hlenb]. }
  unfold Codec.mqtt_unpack_response. rewrite Hfh.
  destruct (Z.leb_spec hdr 0) as [E|_]; [subst hdr; lia|].
  change (Codec.control_type (mk_fixed_header 3 cf rl)) with 3.
  change (3 =? MQTT_CONTROL_CONNACK) with false.
  change (3 =? MQTT_CONTROL_PUBLISH) with true. cbv iota.
  unfold Codec.mqtt_unpack_publish_response.
  cbn [Codec.fixed_header Codec.set_fixed_header mk_fixed_header
       Codec.remaining_length Codec.control_flags].
  destruct (Z.ltb_spec rl 4) as [E|_]; [lia|].
  rewrite Htns.
  replace (rl - Z.of_nat (length topic) - 2) with (Z.of_nat (length payload))
    by (subst rl; lia).
  rewrite (u16_small (Z.of_nat (length payload))) by (subst rl hdr; lia).
  replace (buf + hdr + 2 + Z.of_nat (length topic)
           + Z.of_nat (length payload) - (buf + hdr))
    with rl by (subst rl; lia).
  rewrite (i16_small rl) by (subst rl hdr; lia).
  destruct (Z.ltb_spec rl 0) as [E|_]; [lia|].
  replace (buf + hdr + rl - buf) with (hdr + rl) by lia.
  rewrite i16_small by (subst rl hdr; lia). reflexivity.
Qed.

(** X6. What [mqtt_pack_publish_request] packs, [mqtt_unpack_response]
    unpacks, for a frame of at most 32767 bytes that fits the buffer and
    whose Remaining Length is at least 4 (topic and message take two bytes
    or more): both return the length of the frame, and the decoded PUBLISH
    has the DUP flag clear and points to the topic and to the application
    message that were packed, with their sizes. *)
Theorem publish_request_roundtrip :
  forall mem buf bufsz topic pid msg size flags r0,
  0 <= size ->
  let rl := Z.of_nat (length topic) + 2 + size in
  let hdr := 1 + Z.of_nat (length (varint 5 rl)) in
  4 <= rl ->
  hdr + rl <= bufsz <= 65535 -> hdr + rl <= 32767 ->
  let p := Codec.mqtt_pack_publish_request mem buf bufsz topic pid msg size
             flags in
  let u := Codec.mqtt_unpack_response r0 (snd p) buf bufsz in
  let d := Codec.publish (snd u) in
  fst p = hdr + rl /\ fst u = hdr + rl /\
  Codec.control_type (Codec.fixed_header (snd u)) = MQTT_CONTROL_PUBLISH /\
  Codec.remaining_length (Codec.fixed_header (snd u)) = rl /\
  Codec.dup_flag d = 0 /\
  Codec.topic_name_size d = Z.of_nat (length topic) /\
  load_range (snd p) (Codec.topic_name d) (length topic) = topic /\
  Codec.application_message_size d = size /\
  load_range (snd p) (Codec.application_message d) (Z.to_nat size)
  = load_range msg 0 (Z.to_nat size).
Proof.
  intros mem buf bufsz topic pid msg size flags r0 Hsize rl hdr H4 Hsz H15 p u d.
  destruct (publish_request_layout mem buf bufsz topic pid msg size flags
              Hsize Hsz H15) as [Hrv Hm].
  fold rl hdr p in Hrv, Hm.
  set (f := Z.land flags (u8 (Z.lnot MQTT_PUBLISH_DUP))) in *.
  set (cf := Z.land f 15) in *.
  set (payload := load_range msg 0 (Z.to_nat size)) in *.
  assert (Hpl : Z.of_nat (length payload) = size).
  { subst payload. rewrite load_range_length. lia. }
  assert (Hcf : 0 <= cf < 16).
  { subst cf. change 15 with (Z.ones 4). rewrite Z.land_ones by lia.
    apply Z.mod_pos_bound. lia. }
  assert (Hh : holds (snd p) buf
                 (frame (48 + cf)
                    (be16 (Z.of_nat (length topic)) ++ topic ++ payload))).
  { apply (holds_mem_eq _ _ _ _ (fun j => eq_sym (Hm j))).
    apply store_list_holds. }
  pose proof (unpack_response_publish_frame r0 (snd p) buf bufsz cf topic
                payload Hcf) as Hu.
  cbv zeta in Hu. rewrite Hpl in Hu. fold rl hdr in Hu.
  specialize (Hu H4 Hsz H15 Hh). fold u in Hu.
  assert (Hbody : Z.of_nat (length (be16 (Z.of_nat (length topic)) ++ topic
                                    ++ payload)) = rl).
  { rewrite !length_app, be16_length. subst rl. lia. }
  unfold frame in Hh. rewrite Hbody in Hh.
  change ((48 + cf) :: varint 5 rl
          ++ be16 (Z.of_nat (length topic)) ++ topic ++ payload)
    with (((48 + cf) :: varint 5 rl)
          ++ be16 (Z.of_nat (length topic)) ++ topic ++ payload) in Hh.
  apply holds_app in Hh as [_ Hh].
  replace (buf + Z.of_nat (length ((48 + cf) :: varint 5 rl)))
    with (buf + hdr) in Hh by (cbn [length]; subst hdr; lia).
  apply holds_app in Hh as [_ Hh]. rewrite be16_length in Hh.
  apply holds_app in Hh as [Htopic Hmsg].
  change (Z.of_nat 2) with 2 in Htopic, Hmsg.
  subst d. clearbody u. subst u. cbn [fst snd Codec.publish Codec.set_publish
    Codec.fixed_header Codec.set_fixed_header mk_fixed_header
    Codec.control_type Codec.remaining_length Codec.dup_flag
    Codec.topic_name_size Codec.topic_name Codec.application_message
    Codec.application_message_size].
  split; [exact Hrv|]. split; [reflexivity|]. split; [reflexivity|].
  split; [reflexivity|]. split.
  { subst cf f. now rewrite land_without_bit. }
  split; [reflexivity|]. split.
  { apply holds_load_range. exact Htopic. }
  split; [reflexivity|].
  rewrite <- Hpl at 1. rewrite Nat2Z.id.
  apply holds_load_range. exact Hmsg.
Qed.

(** X8. The SUBSCRIBE frame: for a frame of at most 32767 bytes that
    fits the buffer, and a 16-bit packet identifier,
    [mqtt_pack_subscribe_request] returns the length of the frame and leaves
    in the buffer the control byte 0x82, the Remaining Length, the packet
    identifier, the length-prefixed topic and the requested QoS; every byte
    outside the frame keeps its value. *)
Theorem subscribe_request_frame :
  forall mem buf bufsz pid topic qos,
  0 <= pid < 65536 ->
  let body := be16 pid ++ be16 (Z.of_nat (length topic)) ++ topic ++ [u8 qos] in
  Z.of_nat (length (frame 130 body)) <= bufsz <= 65535 ->
  Z.of_nat (length (frame 130 body)) <= 32767 ->
  let p := Codec.mqtt_pack_subscribe_request mem buf bufsz pid topic qos in
  fst p = Z.of_nat (length (frame 130 body)) /\
  load_range (snd p) buf (length (frame 130 body)) = frame 130 body /\
  forall j, j < buf \/ buf + fst p <= j -> snd p j = mem j.
Proof.
  intros mem buf bufsz pid topic qos Hpid body Hsz H15 p.
  set (rl := Z.of_nat (length topic) + 5).
  assert (Hbody : Z.of_nat (length body) = rl).
  { subst body rl. rewrite !length_app, !be16_length. cbn [length]. lia. }
  unfold frame in *. rewrite Hbody in *. cbn [length] in Hsz, H15.
  rewrite length_app in Hsz, H15.
  set (hdr := 1 + Z.of_nat (length (varint 5 rl))).
  assert (Hrl : 0 <= rl <= 2 ^ 28 - 1) by lia.
  pose proof (varint5_length rl Hrl) as Hlen.
  assert (Hp : fst p = hdr + rl /\
               mem_eq (snd p) (store_list mem buf (130 :: varint 5 rl ++ body))).
  { subst p. unfold Codec.mqtt_pack_subscribe_request, Codec.strlen.
    replace (2 + (Z.of_nat (length topic) + 2 + 1)) with rl by (subst rl; lia).
    rewrite u32_small by lia.
    change {| Codec.control_type := MQTT_CONTROL_SUBSCRIBE;
              Codec.control_flags := 2; Codec.remaining_length := rl |}
      with (mk_fixed_header 8 2 rl).
    destruct (pack_fixed_header_frame mem buf bufsz 8 2 rl
                (subscribe_header_valid rl) ltac:(lia) Hrl ltac:(lia))
      as [Hrv Hm].
    destruct (Codec.mqtt_pack_fixed_header mem buf bufsz
                (mk_fixed_header 8 2 rl)) as [rv m1].
    cbn [fst snd] in Hrv, Hm. subst rv. fold hdr.
    destruct (Z.leb_spec hdr 0) as [E|_]; [subst hdr; lia|].
    rewrite u16_small by (subst hdr; lia).
    destruct (Z.ltb_spec (bufsz - hdr) rl) as [E|_]; [subst hdr; lia|].
    rewrite pack_uint16_frame by lia.
    rewrite pack_str_frame by lia.
    cbn [fst snd]. split.
    - rewrite i16_small by (subst hdr rl; lia). subst rl. lia.
    - change (16 * 8 + Z.land 2 15) with 130 in Hm.
      subst body.
      replace (130 :: varint 5 rl ++ be16 pid
               ++ be16 (Z.of_nat (length topic)) ++ topic ++ [u8 qos])
        with ((130 :: varint 5 rl) ++ be16 pid
              ++ (be16 (Z.of_nat (length topic)) ++ topic) ++ [u8 qos])
        by (cbn [app]; rewrite <- !app_assoc; reflexivity).
      rewrite !store_list_app.
      match goal with
      | |- mem_eq (store ?m ?o ?v) _ => change (store m o v) with (store_list m o [v])
      end.
      same_writes ltac:(rewrite ?be16_length; subst hdr; lia). exact Hm. }
  destruct Hp as [Hrv Hm]. split; [|split].
  - rewrite Hrv. cbn [length]. rewrite length_app. subst hdr. lia.
  - apply holds_load_range.
    apply (holds_mem_eq _ _ _ _ (fun j => eq_sym (Hm j))).
    apply store_list_holds.
  - intros j Hj. rewrite Hm. apply store_list_outside.
    cbn [length]. rewrite length_app. rewrite Hrv in Hj. subst hdr. lia.
Qed.

End Requests.

(** Witness of [publish_request_roundtrip]: topic [t], ten bytes. *)
Lemma publish_request_roundtrip_witness :
  let p := Codec.mqtt_pack_publish_request (H := std_header) zeros 0 100
             [116] 7 ten_bytes 10 0 in
  let u := Codec.mqtt_unpack_response (H := std_header) sample_response
             (snd p) 0 100 in
  let d := Codec.publish (snd u) in
  fst p = 15 /\ fst u = 15 /\
  Codec.topic_name_size d = 1 /\
  load_range (snd p) (Codec.topic_name d) 1 = [116] /\
  Codec.application_message_size d = 10 /\
  load_range (snd p) (Codec.application_message d) 10
  = [48; 49; 50; 51; 52; 53; 54; 55; 56; 57].
Proof.
  destruct (publish_request_roundtrip (H := std_header) zeros 0 100 [116] 7
              ten_bytes 10 0 sample_response)
    as (Hp & Hu & _ & _ & _ & Hts & Ht & Hms & Hm).
  - lia.
  - simpl. lia.
  - simpl. lia.
  - simpl. lia.
  - cbv zeta. repeat split; assumption.
Defined.

(** Witness of [subscribe_request_frame]: topic [t], identifier 7. *)
Lemma subscribe_request_frame_witness :
  let p := Codec.mqtt_pack_subscribe_request (H := std_header) zeros 0 100 7
             [116] 0 in
  fst p = 8 /\
  load_range (snd p) 0 8 = [130; 6; 0; 7; 0; 1; 116; 0] /\
  forall j, j < 0 \/ 0 + fst p <= j -> snd p j = zeros j.
Proof.
  apply (subscribe_request_frame (H := std_header) zeros 0 100 7 [116] 0).
  - lia.
  - simpl. lia.
  - simpl. lia.
Defined.

(** ** The codec: responses and buffer bounds *)

Section Responses.
Context {H : MqttHeader}.

Lemma connack_header_valid rl :
  Codec.mqtt_fixed_header_rule_violation (mk_fixed_header 2 0 rl) = 0.
Proof. reflexivity. Qed.

(** [mqtt_unpack_response] on a buffer that holds a CONNACK frame. *)
Lemma unpack_response_connack_frame :
  forall r0 mem buf bufsz sp rc,
  4 <= bufsz <= 65535 ->
  holds mem buf [32; 2; sp; rc] ->
  Codec.mqtt_unpack_response r0 mem buf bufsz
  = let r := Codec.set_fixed_header r0 (mk_fixed_header 2 0 2) in
    if negb (Z.land sp 254 =? 0) then
      (if MQTT_ERROR_CONNACK_FORBIDDEN_FLAGS <? 0
       then MQTT_ERROR_CONNACK_FORBIDDEN_FLAGS
       else i16 (2 + MQTT_ERROR_CONNACK_FORBIDDEN_FLAGS), r)
    else if 5 <? rc then
      (if MQTT_ERROR_CONNACK_FORBIDDEN_CODE <? 0
       then MQTT_ERROR_CONNACK_FORBIDDEN_CODE
       else i16 (2 + MQTT_ERROR_CONNACK_FORBIDDEN_CODE),
       Codec.set_connack r
         {| Codec.session_present_flag := sp;
            Codec.return_code := Codec.return_code (Codec.connack r0) |})
    else
      (4, Codec.set_connack
            (Codec.set_connack r
               {| Codec.session_present_flag := sp;
                  Codec.return_code := Codec.return_code (Codec.connack r0) |})
            {| Codec.session_present_flag := sp; Codec.return_code := rc |}).
Proof.
  intros r0 mem buf bufsz sp rc Hsz Hmem.
  assert (Hfh : Codec.mqtt_unpack_fixed_header (Codec.fixed_header r0)
                  mem buf bufsz = (2, mk_fixed_header 2 0 2)).
  { apply (unpack_fixed_header_frame _ mem buf bufsz 2 0 2);
      try (cbn; lia); [reflexivity|].
    cbn [holds] in *. change (varint 5 2) with [2]. cbn [holds]. tauto. }
  destruct Hmem as (_ & _ & Hsp & Hrc & _).
  replace (buf + 1 + 1) with (buf + 2) in Hsp by lia.
  replace (buf + 1 + 1 + 1) with (buf + 2 + 1) in Hrc by lia.
  unfold Codec.mqtt_unpack_response. rewrite Hfh.
  cbn [Z.leb Z.compare].
  change (Codec.control_type (mk_fixed_header 2 0 2)) with 2.
  change (2 =? MQTT_CONTROL_CONNACK) with true. cbv iota zeta.
  unfold Codec.mqtt_unpack_connack_response.
  cbn [Codec.fixed_header Codec.set_fixed_header mk_fixed_header
       Codec.remaining_length Z.eqb Pos.eqb negb].
  rewrite Hsp, Hrc.
  destruct (negb (Z.land sp 254 =? 0)).
  - replace (buf + 2 + MQTT_ERROR_CONNACK_FORBIDDEN_FLAGS - buf)
      with (2 + MQTT_ERROR_CONNACK_FORBIDDEN_FLAGS) by lia.
    destruct (_ <? 0); reflexivity.
  - destruct (5 <? rc).
    + replace (buf + 2 + MQTT_ERROR_CONNACK_FORBIDDEN_CODE - buf)
        with (2 + MQTT_ERROR_CONNACK_FORBIDDEN_CODE) by lia.
      destruct (_ <? 0); reflexivity.
    + replace (buf + 2 + 1 + 1 - (buf + 2)) with 2 by lia.
      change (i16 2) with 2. cbn [Z.ltb Z.compare].
      replace (buf + 2 + 2 - buf) with 4 by lia. reflexivity.
Qed.

(** X10. Decoding a CONNACK: [mqtt_unpack_response] returns 4 and the two
    fields when the reserved bits of the first byte are clear and the
    return code is at most 5, MQTT_ERROR_CONNACK_FORBIDDEN_FLAGS when a
    reserved bit is set, and MQTT_ERROR_CONNACK_FORBIDDEN_CODE when the
    return code exceeds 5. *)
Theorem unpack_response_connack :
  forall r0 mem buf bufsz sp rc,
  header_ok H ->
  4 <= bufsz <= 65535 ->
  holds mem buf [32; 2; sp; rc] ->
  let u := Codec.mqtt_unpack_response r0 mem buf bufsz in
  (Z.land sp 254 = 0 -> rc <= 5 ->
   fst u = 4 /\
   Codec.connack (snd u) = {| Codec.session_present_flag := sp;
                              Codec.return_code := rc |}) /\
  (Z.land sp 254 <> 0 -> fst u = MQTT_ERROR_CONNACK_FORBIDDEN_FLAGS) /\
  (Z.land sp 254 = 0 -> 5 < rc -> fst u = MQTT_ERROR_CONNACK_FORBIDDEN_CODE).
Proof.
  intros r0 mem buf bufsz sp rc Hok Hsz Hmem u.
  destruct (header_errors_negative Hok)
    as (_ & _ & _ & Hff & Hfc & _).
  subst u. rewrite (unpack_response_connack_frame r0 mem buf bufsz sp rc Hsz Hmem).
  cbv zeta.
  destruct (Z.ltb_spec MQTT_ERROR_CONNACK_FORBIDDEN_FLAGS 0) as [_|E]; [|lia].
  destruct (Z.ltb_spec MQTT_ERROR_CONNACK_FORBIDDEN_CODE 0) as [_|E]; [|lia].
  split; [|split].
  - intros Hflags Hcode. rewrite Hflags. cbn [Z.eqb negb].
    destruct (Z.ltb_spec 5 rc) as [E|_]; [lia|]. split; reflexivity.
  - intros Hflags.
    destruct (Z.eqb_spec (Z.land sp 254) 0) as [E|_]; [contradiction|].
    reflexivity.
  - intros Hflags Hcode. rewrite Hflags. cbn [Z.eqb negb].
    destruct (Z.ltb_spec 5 rc) as [_|E]; [reflexivity|lia].
Qed.

(** [mqtt_unpack_response] on a buffer that holds a SUBACK frame. *)
Lemma unpack_response_suback_frame :
  forall r0 mem buf bufsz pid codes,
  0 <= pid < 65536 ->
  codes <> [] ->
  let rl := Z.of_nat (length codes) + 2 in
  let hdr := 1 + Z.of_nat (length (varint 5 rl)) in
  hdr + rl <= bufsz <= 65535 -> hdr + rl <= 32767 ->
  holds mem buf (frame 144 (be16 pid ++ codes)) ->
  Codec.mqtt_unpack_response r0 mem buf bufsz
  = (hdr + rl,
     Codec.set_suback (Codec.set_fixed_header r0 (mk_fixed_header 9 0 rl))
       {| Codec.suback_packet_id := pid;
          Codec.return_codes := buf + hdr + 2;
          Codec.num_return_codes := Z.of_nat (length codes) |}).
Proof.
  intros r0 mem buf bufsz pid codes Hpid Hne rl hdr Hsz H15 Hmem.
  assert (Hbody : Z.of_nat (length (be16 pid ++ codes)) = rl).
  { subst rl. rewrite length_app, be16_length. lia. }
  assert (Hc : 1 <= Z.of_nat (length codes)).
  { destruct codes; [contradiction|cbn [length]; lia]. }
  unfold frame in Hmem. rewrite Hbody in Hmem.
  assert (Hrl : 0 <= rl <= 2 ^ 28 - 1) by (subst rl hdr; lia).
  pose proof (varint5_length rl Hrl) as Hlen.
  change (144 :: varint 5 rl ++ be16 pid ++ codes)
    with ((144 :: varint 5 rl) ++ be16 pid ++ codes) in Hmem.
  apply holds_app in Hmem as [Hhdr Hmem].
  replace (buf + Z.of_nat (length (144 :: varint 5 rl)))
    with (buf + hdr) in Hmem by (cbn [length]; subst hdr; lia).
  apply holds_app in Hmem as [Hpidb _].
  assert (Hfh : Codec.mqtt_unpack_fixed_header (Codec.fixed_header r0)
                  mem buf bufsz = (hdr, mk_fixed_header 9 0 rl)).
  { apply (unpack_fixed_header_frame _ mem buf bufsz 9 0 rl);
      try (subst hdr; lia); [reflexivity|exact Hhdr]. }
  unfold Codec.mqtt_unpack_response. rewrite Hfh.
  destruct (Z.leb_spec hdr 0) as [E|_]; [subst hdr; lia|].
  change (Codec.control_type (mk_fixed_header 9 0 rl)) with 9.
  change (9 =? MQTT_CONTROL_CONNACK) with false.
  change (9 =? MQTT_CONTROL_PUBLISH) with false.
  change (9 =? MQTT_CONTROL_SUBACK) with true. cbv iota.
  unfold Codec.mqtt_unpack_suback_response.
  cbn [Codec.fixed_header Codec.set_fixed_header mk_fixed_header
       Codec.remaining_length].
  destruct (Z.ltb_spec rl 3) as [E|_]; [subst rl; lia|].
  rewrite (unpack_uint16_frame mem (buf + hdr) pid Hpid Hpidb).
  rewrite (u32_small (rl - 2)) by (subst rl; lia).
  rewrite (u16_small (rl - 2)) by (subst rl hdr; lia).
  replace (buf + hdr + 2 + (rl - 2) - (buf + hdr)) with rl by lia.
  rewrite (i16_small rl) by (subst rl hdr; lia).
  destruct (Z.ltb_spec rl 0) as [E|_]; [lia|].
  replace (buf + hdr + rl - buf) with (hdr + rl) by lia.
  rewrite i16_small by (subst rl hdr; lia).
  replace (rl - 2) with (Z.of_nat (length codes)) by (subst rl; lia).
  reflexivity.
Qed.

(** X11. Decoding a SUBACK: on a SUBACK frame of at most 32767 bytes that
    lies in the buffer and has at least one return code,
    [mqtt_unpack_response] returns the length of the frame, the packet
    identifier, the number of return codes, and a pointer to the return
    codes inside the buffer. *)
Theorem unpack_response_suback :
  forall r0 mem buf bufsz pid codes,
  0 <= pid < 65536 ->
  codes <> [] ->
  let body := be16 pid ++ codes in
  Z.of_nat (length (frame 144 body)) <= bufsz <= 65535 ->
  Z.of_nat (length (frame 144 body)) <= 32767 ->
  holds mem buf (frame 144 body) ->
  let u := Codec.mqtt_unpack_response r0 mem buf bufsz in
  fst u = Z.of_nat (length (frame 144 body)) /\
  Codec.suback_packet_id (Codec.suback (snd u)) = pid /\
  Codec.num_return_codes (Codec.suback (snd u)) = Z.of_nat (length codes) /\
  load_range mem (Codec.return_codes (Codec.suback (snd u))) (length codes)
  = codes.
Proof.
  intros r0 mem buf bufsz pid codes Hpid Hne body Hsz H15 Hmem u.
  set (rl := Z.of_nat (length codes) + 2).
  set (hdr := 1 + Z.of_nat (length (varint 5 rl))).
  assert (Hflen : Z.of_nat (length (frame 144 body)) = hdr + rl).
  { unfold frame. subst body. rewrite length_app, be16_length.
    change (Z.of_nat (2 + length codes)) with (Z.of_nat (S (S (length codes)))).
    cbn [length]. rewrite length_app, length_app, be16_length.
    replace (Z.of_nat (S (S (length codes)))) with rl by (subst rl; lia).
    subst hdr rl. lia. }
  rewrite Hflen in *.
  subst u body.
  rewrite (unpack_response_suback_frame r0 mem buf bufsz pid codes Hpid Hne
             Hsz H15 Hmem).
  fold rl hdr.
  cbn [fst snd Codec.suback Codec.set_suback Codec.suback_packet_id
       Codec.num_return_codes Codec.return_codes].
  split; [reflexivity|]. split; [reflexivity|]. split; [reflexivity|].
  unfold frame in Hmem.
  replace (Z.of_nat (length (be16 pid ++ codes))) with rl in Hmem
    by (rewrite length_app, be16_length; subst rl; lia).
  change (144 :: varint 5 rl ++ be16 pid ++ codes)
    with ((144 :: varint 5 rl) ++ be16 pid ++ codes) in Hmem.
  apply holds_app in Hmem as [_ Hmem].
  replace (buf + Z.of_nat (length (144 :: varint 5 rl)))
    with (buf + hdr) in Hmem by (cbn [length]; subst hdr; lia).
  apply holds_app in Hmem as [_ Hcodes].
  rewrite be16_length in Hcodes. change (Z.of_nat 2) with 2 in Hcodes.
  now apply holds_load_range.
Qed.

(** The control types a client does not expect, and PINGRESP, which has
    no body. *)
Theorem unpack_response_other_types :
  forall r0 mem buf bufsz ct cf rl,
  Codec.mqtt_fixed_header_rule_violation (mk_fixed_header ct cf rl) = 0 ->
  1 <= ct <= 14 -> 0 <= cf < 16 ->
  0 <= rl <= 2 ^ 28 - 1 ->
  1 + Z.of_nat (length (varint 5 rl)) + rl <= bufsz <= 65535 ->
  holds mem buf ((16 * ct + cf) :: varint 5 rl) ->
  ct <> MQTT_CONTROL_CONNACK -> ct <> MQTT_CONTROL_PUBLISH ->
  ct <> MQTT_CONTROL_SUBACK ->
  fst (Codec.mqtt_unpack_response r0 mem buf bufsz)
  = if ct =? MQTT_CONTROL_PINGRESP
    then 1 + Z.of_nat (length (varint 5 rl))
    else MQTT_ERROR_RESPONSE_INVALID_CONTROL_TYPE.
Proof.
  intros r0 mem buf bufsz ct cf rl Hrule Hct Hcf Hrl Hsz Hmem H2 H3 H9.
  pose proof (varint5_length rl Hrl) as Hlen.
  unfold Codec.mqtt_unpack_response.
  rewrite (unpack_fixed_header_frame _ mem buf bufsz ct cf rl)
    by (try assumption; lia).
  destruct (Z.leb_spec (1 + Z.of_nat (length (varint 5 rl))) 0) as [E|_];
    [lia|].
  change (Codec.control_type (mk_fixed_header ct cf rl)) with ct.
  destruct (Z.eqb_spec ct MQTT_CONTROL_CONNACK) as [E|_]; [contradiction|].
  destruct (Z.eqb_spec ct MQTT_CONTROL_PUBLISH) as [E|_]; [contradiction|].
  destruct (Z.eqb_spec ct MQTT_CONTROL_SUBACK) as [E|_]; [contradiction|].
  destruct (ct =? MQTT_CONTROL_PINGRESP); reflexivity.
Qed.

End Responses.

Section PackBounds.
Context {H : MqttHeader}.

(** Where the loop over the length bytes writes, and what it returns. *)
Lemma pack_loop_bounds : forall f mem pos bufsz rl,
  1 <= bufsz <= 65535 ->
  match Codec.pack_loop f mem pos bufsz rl with
  | Codec.PDone m' pos' b' =>
      exists n, 1 <= n <= Z.of_nat f /\ pos' = pos + n /\ b' = bufsz - n /\
                1 <= b' /\ forall j, j <= pos \/ pos' < j -> m' j = mem j
  | Codec.PReturn rv m' =>
      rv = 0 /\ forall j, j <= pos \/ pos + bufsz <= j -> m' j = mem j
  | Codec.PFuel m' =>
      forall j, j <= pos \/ pos + bufsz <= j -> m' j = mem j
  end.
Proof.
  induction f as [|f IH]; intros mem pos bufsz rl Hsz; cbn [Codec.pack_loop].
  - intros j _. reflexivity.
  - rewrite u16_small by lia.
    destruct (Z.eqb_spec (bufsz - 1) 0) as [E|N].
    + split; [reflexivity|]. intros j _. reflexivity.
    + set (b := if 127 <? rl then Z.lor (u8 (Z.land rl 127)) 128
                else u8 (Z.land rl 127)).
      destruct (negb (Z.land b 128 =? 0)).
      * specialize (IH (store mem (pos + 1) b) (pos + 1) (bufsz - 1)
                       (Z.shiftr rl 7) ltac:(lia)).
        destruct (Codec.pack_loop f _ _ _ _) as [rv m'|m' pos' b'|m'].
        -- destruct IH as [-> IH]. split; [reflexivity|].
           intros j Hj. rewrite IH by lia. apply store_neq. lia.
        -- destruct IH as (n & Hn & -> & -> & Hb & IH).
           exists (n + 1). repeat split; try lia.
           intros j Hj. rewrite IH by lia. apply store_neq. lia.
        -- intros j Hj. rewrite IH by lia. apply store_neq. lia.
      * exists 1. repeat split; try lia.
        intros j Hj. apply store_neq. lia.
Qed.

(** The two ways [mqtt_pack_fixed_header] ends: without a header, and
    nothing outside the buffer is written; or with a header of at least two
    bytes that leaves room for the Remaining Length, and nothing outside
    the header is written. *)
Lemma pack_fixed_header_cases :
  forall mem buf bufsz fh,
  header_ok H ->
  0 <= bufsz <= 65535 ->
  let p := Codec.mqtt_pack_fixed_header mem buf bufsz fh in
  (fst p <= 0 /\
   forall j, j < buf \/ buf + bufsz <= j -> snd p j = mem j) \/
  (2 <= fst p /\
   fst p + u32 (Codec.remaining_length fh) <= bufsz /\
   forall j, j < buf \/ buf + fst p <= j -> snd p j = mem j).
Proof.
  intros mem buf bufsz fh Hok Hsz p. subst p.
  destruct (header_errors_negative Hok) as (Ht & Hf & _).
  unfold Codec.mqtt_pack_fixed_header.
  destruct (rule_violation_cases fh) as [[E _]|[E|E]]; rewrite E.
  2:{ destruct (Z.eqb_spec MQTT_ERROR_CONTROL_FORBIDDEN_TYPE 0); [lia|].
      cbn [negb fst snd]. left. split; [lia|reflexivity]. }
  2:{ destruct (Z.eqb_spec MQTT_ERROR_CONTROL_INVALID_FLAGS 0); [lia|].
      cbn [negb fst snd]. left. split; [lia|reflexivity]. }
  cbn [Z.eqb negb].
  destruct (Z.eqb_spec bufsz 0) as [E0|N0].
  { cbn [fst snd]. left. split; [lia|reflexivity]. }
  match goal with
  | |- context [Codec.pack_loop 5 ?m buf bufsz ?r] =>
      pose proof (pack_loop_bounds 5 m buf bufsz r ltac:(lia)) as Hl;
      assert (Hm0 : forall j, j <> buf -> m j = mem j)
        by (intros j Hj; now rewrite !store_neq by exact Hj);
      destruct (Codec.pack_loop 5 m buf bufsz r) as [rv m'|m' pos' b'|m']
  end.
  - destruct Hl as [-> Hl]. cbn [fst snd]. left. split; [lia|].
    intros j Hj. rewrite Hl by lia. apply Hm0. lia.
  - destruct Hl as (n & Hn & -> & -> & Hb & Hl).
    rewrite u16_small by lia.
    destruct (Z.ltb_spec (bufsz - n - 1) (u32 (Codec.remaining_length fh)))
      as [Hlt|Hge]; cbn [fst snd].
    + left. split; [lia|]. intros j Hj. rewrite Hl by lia. apply Hm0. lia.
    + replace (buf + n + 1 - buf) with (n + 1) by lia.
      assert (Hu : 0 <= u32 (Codec.remaining_length fh))
        by (apply Z.mod_pos_bound; lia).
      rewrite i16_small by lia.
      right. split; [lia|]. split; [lia|].
      intros j Hj. rewrite Hl by lia. apply Hm0. lia.
  - cbn [fst snd]. left. split; [lia|].
    intros j Hj. rewrite Hl by lia. apply Hm0. lia.
Qed.

(** X5. [mqtt_pack_fixed_header] writes inside its buffer only, for every
    header and whatever it returns. When it returns a positive length, the
    length is at least 2, the header and the Remaining Length it announces
    fit in the buffer, and no byte behind the header is written. *)
Theorem pack_fixed_header_stays_in_buffer :
  forall mem buf bufsz fh,
  header_ok H ->
  0 <= bufsz <= 65535 ->
  let p := Codec.mqtt_pack_fixed_header mem buf bufsz fh in
  (forall j, j < buf \/ buf + bufsz <= j -> snd p j = mem j) /\
  (0 < fst p ->
   2 <= fst p /\
   fst p + u32 (Codec.remaining_length fh) <= bufsz /\
   forall j, buf + fst p <= j -> snd p j = mem j).
Proof.
  intros mem buf bufsz fh Hok Hsz p.
  assert (Hu : 0 <= u32 (Codec.remaining_length fh))
    by (apply Z.mod_pos_bound; lia).
  pose proof (pack_fixed_header_cases mem buf bufsz fh Hok Hsz) as Hc.
  cbv zeta in Hc. fold p in Hc. clearbody p.
  destruct Hc as [[Hrv Hout]|(Hrv & Hroom & Hout)]; split.
  - exact Hout.
  - intro Hpos. lia.
  - intros j Hj. apply Hout. lia.
  - intros _. split; [exact Hrv|]. split; [exact Hroom|].
    intros j Hj. apply Hout. now right.
Qed.

(** X7. [mqtt_pack_publish_request] writes inside its buffer only, for
    every topic of at most 32765 characters, every 16-bit message size and
    whatever it returns, the buffer too small included. *)
Theorem publish_request_stays_in_buffer :
  forall mem buf bufsz topic pid msg size flags,
  header_ok H ->
  0 <= bufsz <= 65535 -> 0 <= size <= 65535 ->
  Z.of_nat (length topic) <= 32765 ->
  forall j, j < buf \/ buf + bufsz <= j ->
  snd (Codec.mqtt_pack_publish_request mem buf bufsz topic pid msg size flags) j
  = mem j.
Proof.
  intros mem buf bufsz topic pid msg size flags Hok Hsz Hsize Htopic j Hj.
  unfold Codec.mqtt_pack_publish_request, Codec.strlen.
  rewrite (u32_small (Z.of_nat (length topic) + 2)) by lia.
  rewrite u32_small by lia.
  set (rl := Z.of_nat (length topic) + 2 + size).
  match goal with
  | |- context [Codec.mqtt_pack_fixed_header mem buf bufsz ?fh] =>
      destruct (pack_fixed_header_cases mem buf bufsz fh Hok Hsz)
        as [[Hle Hout]|(Hrv2 & Hroom & Hout)];
      destruct (Codec.mqtt_pack_fixed_header mem buf bufsz fh) as [rv m1]
  end.
  { cbn [fst snd] in Hle, Hout.
    destruct (Z.leb_spec rv 0) as [_|Hpos]; [now apply Hout|lia]. }
  cbn [fst snd Codec.remaining_length] in Hrv2, Hroom, Hout.
  destruct (Z.leb_spec rv 0) as [Hle|Hpos]; [lia|].
  rewrite (u32_small rl) in Hroom by (subst rl; lia).
  rewrite u16_small by lia.
  destruct (Z.ltb_spec (bufsz - rv) rl) as [E|_]; [apply Hout; lia|].
  rewrite pack_str_frame by exact Htopic.
  unfold Codec.memcpy. cbn [snd].
  rewrite store_list_outside
    by (rewrite load_range_length; subst rl; lia).
  rewrite store_list_outside
    by (rewrite length_app, be16_length; subst rl; lia).
  apply Hout. subst rl. lia.
Qed.

End PackBounds.

(** Witness of [unpack_response_connack]: an accepted connection. *)
Lemma unpack_response_connack_witness :
  fst (Codec.mqtt_unpack_response (H := std_header) sample_response
         (store_list zeros 0 [32; 2; 0; 0]) 0 4) = 4.
Proof.
  destruct (unpack_response_connack (H := std_header) sample_response
              (store_list zeros 0 [32; 2; 0; 0]) 0 4 0 0) as (Hok & _ & _).
  - std_header_ok.
  - lia.
  - vm_compute. repeat split.
  - apply Hok; [reflexivity|lia].
Defined.

(** Witness of [unpack_response_suback]: one granted subscription. *)
Lemma unpack_response_suback_witness :
  let u := Codec.mqtt_unpack_response (H := std_header) sample_response
             (store_list zeros 0 [144; 3; 0; 7; 0]) 0 5 in
  fst u = 5 /\
  Codec.suback_packet_id (Codec.suback (snd u)) = 7 /\
  Codec.num_return_codes (Codec.suback (snd u)) = 1 /\
  load_range (store_list zeros 0 [144; 3; 0; 7; 0])
             (Codec.return_codes (Codec.suback (snd u))) 1 = [0].
Proof.
  apply (unpack_response_suback (H := std_header) sample_response
           (store_list zeros 0 [144; 3; 0; 7; 0]) 0 5 7 [0]).
  - lia.
  - discriminate.
  - simpl. lia.
  - simpl. lia.
  - vm_compute. repeat split.
Defined.

(** Witness of [pack_fixed_header_stays_in_buffer]: a PINGREQ in a buffer
    of two bytes. *)
Lemma pack_fixed_header_stays_in_buffer_witness :
  let p := Codec.mqtt_pack_fixed_header (H := std_header) zeros 0 2
             (mk_fixed_header 12 0 0) in
  (forall j, j < 0 \/ 0 + 2 <= j -> snd p j = zeros j) /\
  (0 < fst p ->
   2 <= fst p /\
   fst p + u32 (Codec.remaining_length (mk_fixed_header 12 0 0)) <= 2 /\
   forall j, 0 + fst p <= j -> snd p j = zeros j).
Proof.
  apply (pack_fixed_header_stays_in_buffer (H := std_header) zeros 0 2
           (mk_fixed_header 12 0 0)).
  - std_header_ok.
  - lia.
Defined.

(** Witness of [publish_request_stays_in_buffer]: a buffer one byte short
    of the frame. *)
Lemma publish_request_stays_in_buffer_witness :
  snd (Codec.mqtt_pack_publish_request (H := std_header) zeros 0 14
         [116] 7 ten_bytes 10 0) 14 = zeros 14.
Proof.
  apply (publish_request_stays_in_buffer (H := std_header) zeros 0 14
           [116] 7 ten_bytes 10 0).
  - std_header_ok.
  - lia.
  - lia.
  - simpl. lia.
  - lia.
Defined.

(** ** The send queue: layout and search *)

Section QueueInvariants.
Context {H : MqttHeader}.

Lemma clean_scan_prefix : forall q,
  Forall (fun m => MQ.state m = MQ.MQTT_QUEUED_COMPLETE)
         (firstn (MQ.clean_scan q) q) /\
  match skipn (MQ.clean_scan q) q with
  | [] => True
  | m :: _ => MQ.state m <> MQ.MQTT_QUEUED_COMPLETE
  end.
Proof.
  induction q as [|m q IH]; cbn [MQ.clean_scan]; [split; [constructor|exact I]|].
  destruct (MQ.state m) eqn:E; cbn [MQ.state_eqb negb firstn skipn].
  - split; [constructor|congruence].
  - split; [constructor|congruence].
  - destruct IH as [IH1 IH2]. split; [now constructor|exact IH2].
Qed.

(** X12. Cleaning the send queue twice is cleaning it once. *)
Theorem mq_clean_idempotent :
  forall mq, MQ.mqtt_mq_clean (MQ.mqtt_mq_clean mq) = MQ.mqtt_mq_clean mq.
Proof.
  intros mq.
  destruct (clean_scan_prefix (MQ.queue mq)) as [_ Hhead].
  assert (Hc : MQ.mqtt_mq_clean mq
               = match skipn (MQ.clean_scan (MQ.queue mq)) (MQ.queue mq) with
                 | [] => MQ.mqtt_mq_clean mq
                 | _ :: _ => MQ.mqtt_mq_clean mq
                 end) by (destruct (skipn _ _); reflexivity).
  unfold MQ.mqtt_mq_clean at 2 3 in Hc.
  destruct (skipn (MQ.clean_scan (MQ.queue mq)) (MQ.queue mq))
    as [|new_head rest] eqn:Hs.
  - rewrite Hc. reflexivity.
  - destruct (Nat.eqb_spec (MQ.clean_scan (MQ.queue mq)) 0) as [E|N].
    + now rewrite !Hc.
    + rewrite Hc. unfold MQ.mqtt_mq_clean.
      cbn [MQ.queue map MQ.clean_scan MQ.set_start MQ.state].
      destruct (MQ.state new_head); try contradiction; reflexivity.
Qed.

Lemma filter_pending_skip : forall q,
  filter pending (skipn (MQ.clean_scan q) q) = filter pending q.
Proof.
  induction q as [|m q IH]; cbn [MQ.clean_scan]; [reflexivity|].
  destruct (MQ.state m) eqn:E; cbn [MQ.state_eqb negb skipn];
    try reflexivity.
  cbn [filter].
  replace (pending m) with false by (unfold pending; now rewrite E).
  exact IH.
Qed.

(** X13. [mqtt_mq_clean] only drops completed messages: the headers that
    are unsent or await an acknowledgement are the same before and after,
    in the same order and with the same size, state, time, control type and
    packet identifier; only their position in the arena may change. *)
Theorem mq_clean_keeps_pending :
  forall mq,
  map unplaced (filter pending (MQ.queue (MQ.mqtt_mq_clean mq)))
  = map unplaced (filter pending (MQ.queue mq)).
Proof.
  intros mq. rewrite <- (filter_pending_skip (MQ.queue mq)).
  unfold MQ.mqtt_mq_clean.
  destruct (skipn (MQ.clean_scan (MQ.queue mq)) (MQ.queue mq))
    as [|new_head rest] eqn:Hs; [reflexivity|].
  destruct (Nat.eqb_spec (MQ.clean_scan (MQ.queue mq)) 0) as [E|N].
  - rewrite <- Hs, E. reflexivity.
  - cbn [MQ.queue].
    generalize (new_head :: rest) as l.
    generalize (u16 (MQ.start new_head - 0)) as removing.
    intros removing l. induction l as [|m l IH]; [reflexivity|].
    cbn [map filter].
    change (pending (MQ.set_start m (MQ.start m - removing)))
      with (pending m).
    destruct (pending m); [|exact IH].
    cbn [map]. f_equal. exact IH.
Qed.

Lemma laid_out_rebase : forall q off curr removed,
  laid_out off q curr ->
  laid_out (off - removed) (map (rebase removed) q) (curr - removed).
Proof.
  induction q as [|m q IH]; intros off curr removed Hl; cbn [laid_out map] in *.
  - lia.
  - destruct Hl as (Hs & Hsz & Hl).
    change (MQ.start (rebase removed m)) with (MQ.start m - removed).
    change (MQ.size (rebase removed m)) with (MQ.size m).
    split; [lia|]. split; [exact Hsz|].
    replace (off - removed + MQ.size m) with (off + MQ.size m - removed) by lia.
    now apply IH.
Qed.

Lemma laid_out_snoc : forall q off curr m,
  laid_out off q curr -> MQ.start m = curr -> 0 <= MQ.size m ->
  laid_out off (q ++ [m]) (curr + MQ.size m).
Proof.
  induction q as [|a q IH]; intros off curr m Hl Hs Hsz; cbn [laid_out app] in *.
  - subst off. repeat split; try assumption; lia.
  - destruct Hl as (Ha & Hasz & Hl). repeat split; try assumption.
    now apply IH.
Qed.

(** X14. The layout of the send queue is an invariant: when the frames
    lie back to back from the start of the arena up to [curr],
    [mqtt_mq_clean] keeps them so and does not advance [curr], and
    [mqtt_mq_register] keeps them so for every size that stays within 16
    bits. *)
Theorem queue_layout_invariant :
  forall mq,
  wf_queue mq ->
  wf_queue (MQ.mqtt_mq_clean mq) /\
  MQ.curr (MQ.mqtt_mq_clean mq) <= MQ.curr mq /\
  forall old nbytes,
    0 <= nbytes -> MQ.curr mq + nbytes <= 65535 ->
    wf_queue (MQ.mqtt_mq_register old mq nbytes).
Proof.
  intros mq [Hlay Hcurr]. split; [|split].
  - unfold MQ.mqtt_mq_clean.
    destruct (skipn (MQ.clean_scan (MQ.queue mq)) (MQ.queue mq))
      as [|new_head rest] eqn:Hs.
    + split; cbn; [reflexivity|lia].
    + destruct (Nat.eqb (MQ.clean_scan (MQ.queue mq)) 0);
        [split; assumption|].
      rewrite <- (firstn_skipn (MQ.clean_scan (MQ.queue mq)) (MQ.queue mq))
        in Hlay.
      apply laid_out_app in Hlay as [Hnn Hlay]. rewrite Hs in Hlay.
      pose proof (laid_out_bounds _ _ _ Hlay) as [Hle _].
      pose proof Hlay as (Hstart & _). cbn [Z.add] in Hstart, Hle.
      rewrite Hstart, Z.sub_0_r.
      set (removed := sum_sizes _) in *.
      rewrite (u16_small removed) by lia.
      rewrite (u16_small (MQ.curr mq - removed)) by lia.
      split; cbn [MQ.queue MQ.curr]; [|lia].
      apply (laid_out_rebase _ _ _ removed) in Hlay.
      now rewrite Z.sub_diag in Hlay.
  - unfold MQ.mqtt_mq_clean.
    destruct (skipn (MQ.clean_scan (MQ.queue mq)) (MQ.queue mq))
      as [|new_head rest] eqn:Hs.
    + cbn. pose proof (laid_out_bounds _ _ _ Hlay) as [Hle _]. lia.
    + destruct (Nat.eqb (MQ.clean_scan (MQ.queue mq)) 0); [lia|].
      rewrite <- (firstn_skipn (MQ.clean_scan (MQ.queue mq)) (MQ.queue mq))
        in Hlay.
      apply laid_out_app in Hlay as [Hnn Hlay]. rewrite Hs in Hlay.
      pose proof (laid_out_bounds _ _ _ Hlay) as [Hle _].
      pose proof Hlay as (Hstart & _). cbn [Z.add] in Hstart, Hle.
      rewrite Hstart, Z.sub_0_r. cbn [MQ.curr].
      set (removed := sum_sizes _) in *.
      rewrite (u16_small (MQ.curr mq - removed)) by lia. lia.
  - intros old nbytes Hn Hroom. unfold MQ.mqtt_mq_register.
    split; cbn [MQ.queue MQ.curr]; [|lia].
    apply (laid_out_snoc (MQ.queue mq) 0 (MQ.curr mq)
             {| MQ.start := MQ.curr mq; MQ.size := nbytes;
                MQ.state := MQ.MQTT_QUEUED_UNSENT;
                MQ.time_sent := MQ.time_sent old;
                MQ.control_type := MQ.control_type old;
                MQ.packet_id := MQ.packet_id old |});
      [exact Hlay|reflexivity|exact Hn].
Qed.

Lemma find_from_spec : forall q i ct pid,
  match MQ.find_from i q ct pid with
  | Some k =>
      (i <= k < i + length q)%nat /\
      found ct pid (nth (k - i) q (sample_msg 0 0 MQ.MQTT_QUEUED_COMPLETE))
      = true /\
      Forall (fun m => found ct pid m = false) (firstn (k - i) q)
  | None => Forall (fun m => found ct pid m = false) q
  end.
Proof.
  induction q as [|m q IH]; intros i ct pid; cbn [MQ.find_from];
    [constructor|].
  fold (pending m). fold (found ct pid m).
  destruct (found ct pid m) eqn:E.
  - rewrite Nat.sub_diag. cbn [nth firstn length].
    split; [lia|]. split; [exact E|constructor].
  - specialize (IH (S i) ct pid).
    destruct (MQ.find_from (S i) q ct pid) as [k|].
    + destruct IH as (Hk & Hf & Hall). cbn [length].
      replace (k - i)%nat with (S (k - S i)) by lia. cbn [nth firstn].
      split; [lia|]. split; [exact Hf|]. now constructor.
    + now constructor.
Qed.

(** X15. [mqtt_mq_find] returns the oldest header that passes its test:
    the control type matches and, with a packet identifier, the identifier
    matches, without one, the message is not complete. It returns nothing
    exactly when no header passes. *)
Theorem mq_find_oldest_match :
  forall mq ct pid,
  match MQ.mqtt_mq_find mq ct pid with
  | Some k =>
      (k < length (MQ.queue mq))%nat /\
      (exists m, nth_error (MQ.queue mq) k = Some m /\ found ct pid m = true) /\
      Forall (fun m => found ct pid m = false) (firstn k (MQ.queue mq))
  | None => Forall (fun m => found ct pid m = false) (MQ.queue mq)
  end.
Proof.
  intros mq ct pid. unfold MQ.mqtt_mq_find.
  pose proof (find_from_spec (MQ.queue mq) 0 ct pid) as Hf.
  destruct (MQ.find_from 0 (MQ.queue mq) ct pid) as [k|]; [|exact Hf].
  rewrite Nat.sub_0_r in Hf. destruct Hf as (Hk & Hm & Hall).
  split; [lia|]. split; [|exact Hall].
  destruct (nth_error (MQ.queue mq) k) as [m|] eqn:E.
  - exists m. split; [reflexivity|].
    now rewrite (nth_error_nth _ _ _ E) in Hm.
  - apply nth_error_None in E. lia.
Qed.

End QueueInvariants.

(** Witness of [queue_layout_invariant]: three frames of 2, 3 and 4 bytes. *)
Lemma queue_layout_invariant_witness :
  let mq := sample_queue MQ.MQTT_QUEUED_COMPLETE MQ.MQTT_QUEUED_UNSENT
                         MQ.MQTT_QUEUED_UNSENT in
  wf_queue (MQ.mqtt_mq_clean (H := std_header) mq) /\
  MQ.curr (MQ.mqtt_mq_clean (H := std_header) mq) <= MQ.curr mq /\
  forall old nbytes,
    0 <= nbytes -> MQ.curr mq + nbytes <= 65535 ->
    wf_queue (MQ.mqtt_mq_register (H := std_header) old mq nbytes).
Proof.
  apply (queue_layout_invariant (H := std_header)
           (sample_queue MQ.MQTT_QUEUED_COMPLETE MQ.MQTT_QUEUED_UNSENT
                         MQ.MQTT_QUEUED_UNSENT)).
  split; [simpl; repeat split; lia|simpl; lia].
Defined.

(** ** The error discipline *)

Section ErrorDiscipline.
Context {H : MqttHeader} {A : Type}.
Variable mqtt_pal_sendall : list Z -> Z.
Variable publish_response_callback :
  A -> Client.globals -> Codec.mqtt_response_publish -> A.
Variable slot_junk : MQ.mqtt_queued_message.
Variable response_junk : Codec.mqtt_response.

Ltac request_result :=
  let Hneg := fresh "Hneg" in
  let Hpos := fresh "Hpos" in
  let rv := fresh "rv" in
  let packed := fresh "packed" in
  let Hrv := fresh "Hrv" in
  match goal with
  | |- context [Client.error ?c <? 0] =>
      destruct (Z.ltb_spec (Client.error c) 0) as [Hneg|Hpos];
      [right; split; [exact Hneg|reflexivity]|]
  end;
  match goal with
  | |- context [let '(_, _) := ?p in _] => destruct p as [rv packed]
  end;
  destruct (Z.ltb_spec rv 0) as [Hrv|Hrv];
  [right; split; [exact Hrv|reflexivity]
  |left; repeat split; try reflexivity; exact Hpos].

Lemma ping_result : forall (c : Client.mqtt_client A),
  let r := Client.mqtt_ping slot_junk c in
  (snd r = MQTT_OK /\ Client.error (fst r) = Client.error c /\ 0 <= Client.error c) \/
  (snd r < 0 /\ Client.error (fst r) = snd r).
Proof.
  intros c. cbv zeta. unfold Client.mqtt_ping. request_result.
Qed.

Lemma ping_reported : forall (c : Client.mqtt_client A),
  reported (Client.mqtt_ping slot_junk c).
Proof.
  intros c. unfold reported, Client.mqtt_ping. request_result.
Qed.

(** X16. What the request functions report, on a client whose identifier
    generator is in its 16-bit range and whose queue holds fewer than 65535
    headers, for strings of at most 32767 characters: [mqtt_connect],
    [mqtt_publish], [mqtt_subscribe], [mqtt_ping] and [mqtt_disconnect]
    return, and they return MQTT_OK and leave a non-negative
    [client->error], or return a negative error and leave that error in
    [client->error]. *)
Theorem requests_report_errors :
  forall (c : Client.mqtt_client A),
  header_ok H ->
  0 <= Client.pid_lfsr c < 65536 ->
  Z.of_nat (length (MQ.queue (Client.mq c))) < 65535 ->
  (forall id wt wm wms un pw cf ka,
     short_string id -> short_string wt ->
     short_option un -> short_option pw ->
     reported (Client.mqtt_connect slot_junk c id wt wm wms un pw cf ka)) /\
  (forall fuel topic msg size flags,
     (length (MQ.queue (Client.mq c)) < fuel)%nat ->
     short_string topic ->
     exists r,
       Client.mqtt_publish slot_junk fuel c topic msg size flags = Some r /\
       reported r) /\
  (forall fuel topic qos,
     (length (MQ.queue (Client.mq c)) < fuel)%nat ->
     short_string topic ->
     exists r,
       Client.mqtt_subscribe slot_junk fuel c topic qos = Some r /\
       reported r) /\
  reported (Client.mqtt_ping slot_junk c) /\
  reported (Client.mqtt_disconnect slot_junk c).
Proof.
  intros c Hok Hl Hq.
  destruct (header_errors_negative Hok) as (_ & _ & _ & _ & _ & _ & _ & _ & _ & _ & _ & _ & Hmok).
  split; [|split; [|split; [|split]]].
  - intros id wt wm wms un pw cf ka _ _ _ _.
    unfold reported, Client.mqtt_connect.
    set (c1 := Client.set_keep_alive c ka).
    destruct (Z.eqb_spec (Client.error c1) MQTT_ERROR_CONNECT_NOT_CALLED).
    + change (Client.error (Client.set_error c1 MQTT_OK)) with MQTT_OK.
      destruct (Z.ltb_spec MQTT_OK 0) as [E|_]; [lia|].
      match goal with
      | |- context [let '(_, _) := ?p in _] => destruct p as [rv packed]
      end.
      destruct (Z.ltb_spec rv 0) as [Hrv|Hrv];
        [right; split; [exact Hrv|reflexivity]
        |left; split; [reflexivity|exact Hmok]].
    + request_result.
  - intros fuel topic msg size flags Hfuel _.
    destruct (mqtt_next_pid_spec A c fuel Hl Hq Hfuel)
      as (p & Hnext & _ & _).
    unfold Client.mqtt_publish. rewrite Hnext.
    eexists. split; [reflexivity|]. unfold reported. request_result.
  - intros fuel topic qos Hfuel _.
    destruct (mqtt_next_pid_spec A c fuel Hl Hq Hfuel)
      as (p & Hnext & _ & _).
    unfold Client.mqtt_subscribe. rewrite Hnext.
    eexists. split; [reflexivity|]. unfold reported. request_result.
  - apply ping_reported.
  - unfold reported, Client.mqtt_disconnect. request_result.
Qed.

Lemma send_scan_error : forall todo g (c : Client.mqtt_client A) i,
  header_ok H ->
  match Client.send_scan mqtt_pal_sendall g c i todo with
  | Client.ScanReturn c' rv => rv < 0 /\ Client.error c' = rv
  | Client.ScanExit c' => Client.error c' = Client.error c
  end.
Proof.
  intros todo g c i Hok.
  destruct (header_errors_negative Hok)
    as (_ & _ & _ & _ & _ & _ & Hmr & _).
  revert c i.
  induction todo as [|msg rest IH]; intros c i; cbn [Client.send_scan];
    [reflexivity|].
  assert (Hsend : forall c0 : Client.mqtt_client A,
            Client.error c0 = Client.error c ->
            match
              (let tmp :=
                 mqtt_pal_sendall
                   (load_range (MQ.mem (Client.mq c0))
                      (MQ.start msg + Client.send_offset c0)
                      (Z.to_nat (MQ.size msg - Client.send_offset c0))) in
               if tmp <? 0 then Client.ScanReturn (Client.set_error c0 tmp) tmp
               else
                 let c1 := Client.set_send_offset c0
                             (Client.send_offset c0 + tmp) in
                 if Client.send_offset c1 <? MQ.size msg then Client.ScanExit c1
                 else
                   let c2 := Client.set_send_offset c1 0 in
                   let c3 := Client.set_time_of_last_send c2
                               (Client.second_counter g) in
                   let c4 := Client.set_msg c3 i
                               (fun m => MQ.set_time_sent m
                                           (Client.time_of_last_send c3)) in
                   let ct := MQ.control_type msg in
                   if (ct =? MQTT_CONTROL_DISCONNECT)
                      || (ct =? MQTT_CONTROL_PUBLISH)
                   then
                     Client.ScanExit
                       (Client.set_msg c4 i
                          (fun m => MQ.set_state m MQ.MQTT_QUEUED_COMPLETE))
                   else if (ct =? MQTT_CONTROL_CONNECT)
                           || (ct =? MQTT_CONTROL_SUBSCRIBE)
                           || (ct =? MQTT_CONTROL_PINGREQ)
                   then
                     Client.ScanExit
                       (Client.set_msg c4 i
                          (fun m => MQ.set_state m
                                      MQ.MQTT_QUEUED_AWAITING_ACK))
                   else
                     Client.ScanReturn
                       (Client.set_error c4 MQTT_ERROR_MALFORMED_REQUEST)
                       MQTT_ERROR_MALFORMED_REQUEST)
            with
            | Client.ScanReturn c' rv => rv < 0 /\ Client.error c' = rv
            | Client.ScanExit c' => Client.error c' = Client.error c
            end).
  { intros c0 Hc0. cbv zeta.
    match goal with
    | |- context [mqtt_pal_sendall ?l <? 0] =>
        destruct (Z.ltb_spec (mqtt_pal_sendall l) 0) as [Hneg|_];
        [split; [exact Hneg|reflexivity]|]
    end.
    destruct (_ <? MQ.size msg); [exact Hc0|].
    destruct (_ || _); [exact Hc0|].
    destruct (_ || _); [exact Hc0|].
    split; [exact Hmr|reflexivity]. }
  destruct (MQ.state msg).
  - cbn [negb]. apply (Hsend c eq_refl).
  - destruct (_ <? Client.second_counter g); cbn [negb].
    + apply Hsend. reflexivity.
    + apply IH.
  - cbn [negb]. apply IH.
Qed.

(** X19. What [mqtt_send] reports: MQTT_OK with [client->error] as it was,
    or a negative error that it has also stored in [client->error]. *)
Theorem send_reports_errors :
  forall g (c : Client.mqtt_client A),
  header_ok H ->
  let r := Client.mqtt_send mqtt_pal_sendall slot_junk g c in
  (snd r = MQTT_OK /\ Client.error (fst r) = Client.error c) \/
  (snd r < 0 /\ Client.error (fst r) = snd r).
Proof.
  intros g c Hok r. subst r. unfold Client.mqtt_send.
  destruct (header_errors_negative Hok) as (_ & _ & _ & _ & _ & _ & _ & _ & _ & _ & _ & _ & Hmok).
  destruct ((Client.error c <? 0)
            && negb (Client.error c =? MQTT_ERROR_SEND_BUFFER_IS_FULL)) eqn:E.
  { apply andb_prop in E as [E _]. apply Z.ltb_lt in E.
    right. split; [exact E|reflexivity]. }
  pose proof (send_scan_error (MQ.queue (Client.mq c)) g c 0 Hok) as Hs.
  destruct (Client.send_scan _ _ _ _ _) as [c1 rv|c1].
  - right. exact Hs.
  - destruct ((_ <? Client.second_counter g) && _);
      [|left; split; [reflexivity|exact Hs]].
    pose proof (ping_result c1) as Hp. cbv zeta in Hp.
    destruct (Client.mqtt_ping slot_junk c1) as [c2 rv].
    cbn [fst snd] in Hp.
    destruct (Z.eqb_spec rv MQTT_OK) as [->|Hne]; cbn [negb fst snd].
    + destruct Hp as [(_ & Hp & _)|[Hp _]]; [|lia].
      left. split; [reflexivity|]. now rewrite Hp.
    + destruct Hp as [[Hp _]|[Hp _]]; [contradiction|].
      right. split; [exact Hp|reflexivity].
Qed.

End ErrorDiscipline.

(** Witness of [requests_report_errors]: a publish on a fresh client. *)
Lemma requests_report_errors_witness :
  exists r,
    Client.mqtt_publish (H := std_header)
      (sample_msg 0 0 MQ.MQTT_QUEUED_COMPLETE) 1
      (sample_client (MQ.mqtt_mq_init (H := std_header) zeros 100) 1 0)
      [116] ten_bytes 10 0 = Some r /\
    reported (H := std_header) r.
Proof.
  refine (proj1 (proj2
            (requests_report_errors (H := std_header)
               (sample_msg 0 0 MQ.MQTT_QUEUED_COMPLETE)
               (sample_client (MQ.mqtt_mq_init (H := std_header) zeros 100)
                              1 0) _ _ _)) 1%nat [116] ten_bytes 10 0 _ _).
  - std_header_ok.
  - simpl. lia.
  - simpl. lia.
  - simpl. lia.
  - unfold short_string. simpl. lia.
Defined.

(** Witness of [send_reports_errors]: a queue with one unsent frame. *)
Lemma send_reports_errors_witness :
  let r := Client.mqtt_send (H := std_header) sample_transport
             (sample_msg 0 0 MQ.MQTT_QUEUED_COMPLETE)
             (sample_globals zeros 0 0 0)
             (sample_client (sample_queue2 7) 1 0) in
  (snd r = @MQTT_OK std_header /\ Client.error (fst r) = 1) \/
  (snd r < 0 /\ Client.error (fst r) = snd r).
Proof.
  apply (send_reports_errors (H := std_header) sample_transport
           (sample_msg 0 0 MQ.MQTT_QUEUED_COMPLETE)
           (sample_globals zeros 0 0 0)
           (sample_client (sample_queue2 7) 1 0)).
  std_header_ok.
Defined.

(** ** The receive engine: acknowledgements and publications *)

Lemma update_nth_app : forall {T} (pre : list T) f m post,
  MQ.update_nth (length pre) f (pre ++ m :: post) = pre ++ f m :: post.
Proof.
  induction pre as [|x pre IH]; intros f m post; [reflexivity|].
  cbn [length app MQ.update_nth]. now rewrite IH.
Qed.

Lemma find_from_app : forall {H : MqttHeader} pre i m post ct pid,
  Forall (fun x => found ct pid x = false) pre ->
  found ct pid m = true ->
  MQ.find_from i (pre ++ m :: post) ct pid = Some (i + length pre)%nat.
Proof.
  induction pre as [|x pre IH]; intros i m post ct pid Hpre Hm;
    cbn [app MQ.find_from length].
  - fold (pending m). fold (found ct pid m). rewrite Hm. f_equal. lia.
  - inversion Hpre as [|? ? Hx Hpre']; subst.
    fold (pending x). fold (found ct pid x). rewrite Hx.
    rewrite IH by assumption. f_equal. lia.
Qed.

Lemma find_from_none : forall {H : MqttHeader} q i ct pid,
  Forall (fun x => found ct pid x = false) q ->
  MQ.find_from i q ct pid = None.
Proof.
  induction q as [|x q IH]; intros i ct pid Hq; [reflexivity|].
  inversion Hq as [|? ? Hx Hq']; subst. cbn [MQ.find_from].
  fold (pending x). fold (found ct pid x). rewrite Hx. now apply IH.
Qed.

Section Engines.
Context {H : MqttHeader} {A : Type}.
Variable mqtt_pal_sendall : list Z -> Z.
Variable publish_response_callback :
  A -> Client.globals -> Codec.mqtt_response_publish -> A.
Variable slot_junk : MQ.mqtt_queued_message.
Variable response_junk : Codec.mqtt_response.

Local Abbreviation mqtt_recv :=
  (Client.mqtt_recv publish_response_callback response_junk).
Local Abbreviation mqtt_send := (Client.mqtt_send mqtt_pal_sendall slot_junk).

(** X22. What [mqtt_recv] reports: MQTT_OK with [client->error] as it was,
    or a negative error that it has also stored in [client->error]. *)
Theorem recv_reports_errors :
  forall g (c : Client.mqtt_client A),
  header_ok H ->
  let r := mqtt_recv g c in
  (snd r = MQTT_OK /\ Client.error (fst (fst r)) = Client.error c) \/
  (snd r < 0 /\ Client.error (fst (fst r)) = snd r).
Proof.
  intros g c Hok r. subst r.
  destruct (header_errors_negative Hok)
    as (? & ? & ? & ? & ? & ? & ? & ? & ? & ? & ? & ? & ?).
  unfold Client.mqtt_recv.
  destruct (Codec.mqtt_unpack_response _ _ _ _) as [consumed response].
  destruct (Z.ltb_spec consumed 0) as [Hneg|_];
    [right; split; [exact Hneg|reflexivity]|].
  repeat match goal with
         | |- context [match ?x with Some _ => _ | None => _ end] => destruct x
         | |- context [if ?b then _ else _] => destruct b
         end;
    cbn [fst snd];
    first [left; split; reflexivity | right; split; [lia|reflexivity]].
Qed.

Lemma unpack_response_pingresp_frame : forall r0 mem bufsz,
  2 <= bufsz <= 65535 ->
  holds mem 0 [208; 0] ->
  Codec.mqtt_unpack_response r0 mem 0 bufsz
  = (2, Codec.set_fixed_header r0 (mk_fixed_header 13 0 0)).
Proof.
  intros r0 mem bufsz Hsz Hmem.
  unfold Codec.mqtt_unpack_response.
  rewrite (unpack_fixed_header_frame _ mem 0 bufsz 13 0 0);
    try (cbn; lia); [reflexivity|reflexivity|exact Hmem].
Qed.

(** X25. A PINGRESP releases the oldest PINGREQ that is not complete:
    [mqtt_recv] marks it complete and returns MQTT_OK. Without such a
    PINGREQ it returns MQTT_ERROR_ACK_OF_UNKNOWN and stores it in the
    client. *)
Theorem recv_pingresp_releases_pingreq :
  forall g (c : Client.mqtt_client A),
  holds (Client.uip_buf g) 0 [208; 0] ->
  Client.mqtt_partial_buffer_length g = 2 ->
  (forall pre m post,
     MQ.queue (Client.mq c) = pre ++ m :: post ->
     Forall (fun x => found MQTT_CONTROL_PINGREQ None x = false) pre ->
     found MQTT_CONTROL_PINGREQ None m = true ->
     mqtt_recv g c
     = (with_queue c (pre ++ MQ.set_state m MQ.MQTT_QUEUED_COMPLETE :: post),
        g, MQTT_OK)) /\
  (Forall (fun x => found MQTT_CONTROL_PINGREQ None x = false)
          (MQ.queue (Client.mq c)) ->
   mqtt_recv g c
   = (Client.set_error c MQTT_ERROR_ACK_OF_UNKNOWN, g,
      MQTT_ERROR_ACK_OF_UNKNOWN)).
Proof.
  intros g c Hbuf Hpbl.
  assert (Hu : Codec.mqtt_unpack_response response_junk (Client.uip_buf g) 0
                 (Client.mqtt_partial_buffer_length g)
               = (2, Codec.set_fixed_header response_junk
                       (mk_fixed_header 13 0 0))).
  { rewrite Hpbl. apply unpack_response_pingresp_frame; [lia|exact Hbuf]. }
  split.
  - intros pre m post Hq Hpre Hm. unfold Client.mqtt_recv. rewrite Hu.
    cbn [Z.ltb Z.compare Codec.fixed_header Codec.set_fixed_header
         mk_fixed_header Codec.control_type].
    change (13 =? MQTT_CONTROL_CONNACK) with false.
    change (13 =? MQTT_CONTROL_PUBLISH) with false.
    change (13 =? MQTT_CONTROL_SUBACK) with false.
    change (13 =? MQTT_CONTROL_PINGRESP) with true. cbv iota.
    unfold MQ.mqtt_mq_find. rewrite Hq.
    rewrite (find_from_app pre 0 m post _ _ Hpre Hm). cbn [Nat.add].
    unfold Client.set_msg, with_queue. rewrite Hq, update_nth_app.
    reflexivity.
  - intros Hnone. unfold Client.mqtt_recv. rewrite Hu.
    cbn [Z.ltb Z.compare Codec.fixed_header Codec.set_fixed_header
         mk_fixed_header Codec.control_type].
    change (13 =? MQTT_CONTROL_CONNACK) with false.
    change (13 =? MQTT_CONTROL_PUBLISH) with false.
    change (13 =? MQTT_CONTROL_SUBACK) with false.
    change (13 =? MQTT_CONTROL_PINGRESP) with true. cbv iota.
    unfold MQ.mqtt_mq_find. now rewrite (find_from_none _ 0 _ _ Hnone).
Qed.

(** X24. A SUBACK releases the SUBSCRIBE with its packet identifier:
    [mqtt_recv] marks the oldest SUBSCRIBE header with that identifier as
    complete and sets [suback_received]; it returns
    MQTT_ERROR_SUBSCRIBE_FAILED, stored in the client, when the first return
    code is the failure code, and MQTT_OK otherwise. *)
Theorem recv_suback_releases_subscribe :
  forall g (c : Client.mqtt_client A) pid codes pre m post,
  0 <= pid < 65536 -> codes <> [] ->
  holds (Client.uip_buf g) 0 (frame 144 (be16 pid ++ codes)) ->
  Client.mqtt_partial_buffer_length g
  = Z.of_nat (length (frame 144 (be16 pid ++ codes))) ->
  Client.mqtt_partial_buffer_length g <= 255 ->
  MQ.queue (Client.mq c) = pre ++ m :: post ->
  Forall (fun x => found MQTT_CONTROL_SUBSCRIBE (Some pid) x = false) pre ->
  found MQTT_CONTROL_SUBSCRIBE (Some pid) m = true ->
  let c' := with_queue c
              (pre ++ MQ.set_state m MQ.MQTT_QUEUED_COMPLETE :: post) in
  let g' := Client.set_suback_received g 1 in
  mqtt_recv g c
  = if hd 0 codes =? MQTT_SUBACK_FAILURE
    then (Client.set_error c' MQTT_ERROR_SUBSCRIBE_FAILED, g',
          MQTT_ERROR_SUBSCRIBE_FAILED)
    else (c', g', MQTT_OK).
Proof.
  intros g c pid codes pre m post Hpid Hne Hbuf Hpbl H255 Hq Hpre Hm c' g'.
  set (rl := Z.of_nat (length codes) + 2).
  set (hdr := 1 + Z.of_nat (length (varint 5 rl))).
  assert (Hflen : Z.of_nat (length (frame 144 (be16 pid ++ codes)))
                  = hdr + rl).
  { unfold frame. rewrite (length_app (be16 pid)), be16_length.
    cbn [length]. rewrite !length_app, be16_length.
    replace (Z.of_nat (2 + length codes)) with rl by (subst rl; lia).
    subst hdr rl. lia. }
  rewrite Hflen in Hpbl.
  pose proof (unpack_response_suback_frame response_junk (Client.uip_buf g) 0
                (Client.mqtt_partial_buffer_length g) pid codes Hpid Hne)
    as Hu.
  cbv zeta in Hu. fold rl hdr in Hu.
  specialize (Hu ltac:(lia) ltac:(lia) Hbuf).
  unfold Client.mqtt_recv. rewrite Hu.
  destruct (Z.ltb_spec (hdr + rl) 0) as [E|_]; [subst hdr rl; lia|].
  cbn [Codec.fixed_header Codec.set_fixed_header Codec.set_suback
       mk_fixed_header Codec.control_type Codec.suback
       Codec.suback_packet_id Codec.return_codes].
  change (9 =? MQTT_CONTROL_CONNACK) with false.
  change (9 =? MQTT_CONTROL_PUBLISH) with false.
  change (9 =? MQTT_CONTROL_SUBACK) with true. cbv iota.
  unfold MQ.mqtt_mq_find. rewrite Hq.
  rewrite (find_from_app pre 0 m post _ _ Hpre Hm). cbn [Nat.add].
  change (Client.uip_buf (Client.set_suback_received g 1))
    with (Client.uip_buf g).
  assert (Hcode : Client.uip_buf g (0 + hdr + 2) = hd 0 codes).
  { unfold frame in Hbuf.
    replace (Z.of_nat (length (be16 pid ++ codes))) with rl in Hbuf
      by (rewrite length_app, be16_length; subst rl; lia).
    change (144 :: varint 5 rl ++ be16 pid ++ codes)
      with ((144 :: varint 5 rl) ++ be16 pid ++ codes) in Hbuf.
    apply holds_app in Hbuf as [_ Hbuf].
    apply holds_app in Hbuf as [_ Hcodes].
    rewrite be16_length in Hcodes. cbn [length] in Hcodes.
    destruct codes as [|c0 codes']; [contradiction|].
    cbn [holds hd] in *. destruct Hcodes as [Hc0 _]. rewrite <- Hc0.
    f_equal. subst hdr. lia. }
  rewrite Hcode.
  unfold Client.set_msg. rewrite Hq, update_nth_app.
  reflexivity.
Qed.

(** X26. A PUBLISH is handed to the application: on a PUBLISH frame of
    at most 255 bytes that fills the partial buffer and whose Remaining
    Length is at least 4, [mqtt_recv] calls the publish callback once, with
    the flags, the topic and the payload of the frame as positions in the
    receive buffer, and returns MQTT_OK. *)
Theorem recv_publish_calls_callback :
  forall g (c : Client.mqtt_client A) cf topic payload,
  0 <= cf < 16 ->
  let rl := Z.of_nat (length topic) + 2 + Z.of_nat (length payload) in
  let hdr := 1 + Z.of_nat (length (varint 5 rl)) in
  4 <= rl ->
  holds (Client.uip_buf g) 0
    (frame (48 + cf) (be16 (Z.of_nat (length topic)) ++ topic ++ payload)) ->
  Client.mqtt_partial_buffer_length g = hdr + rl ->
  hdr + rl <= 255 ->
  mqtt_recv g c
  = (Client.set_callback_state c
       (publish_response_callback
          (Client.publish_response_callback_state c) g
          {| Codec.dup_flag := u8 (Z.shiftr (Z.land cf MQTT_PUBLISH_DUP) 3);
             Codec.qos_level :=
               u8 (Z.shiftr (Z.land cf MQTT_PUBLISH_QOS_MASK) 1);
             Codec.retain_flag := u8 (Z.land cf MQTT_PUBLISH_RETAIN);
             Codec.topic_name_size := Z.of_nat (length topic);
             Codec.topic_name := hdr + 2;
             Codec.application_message :=
               hdr + 2 + Z.of_nat (length topic);
             Codec.application_message_size := Z.of_nat (length payload) |}),
     g, MQTT_OK).
Proof.
  intros g c cf topic payload Hcf rl hdr H4 Hbuf Hpbl H255.
  pose proof (unpack_response_publish_frame response_junk (Client.uip_buf g)
                0 (Client.mqtt_partial_buffer_length g) cf topic payload Hcf)
    as Hu.
  cbv zeta in Hu. fold rl hdr in Hu.
  specialize (Hu H4 ltac:(lia) ltac:(lia) Hbuf).
  unfold Client.mqtt_recv. rewrite Hu.
  destruct (Z.ltb_spec (hdr + rl) 0) as [E|_]; [subst hdr rl; lia|].
  cbn [Codec.fixed_header Codec.set_fixed_header Codec.set_publish
       mk_fixed_header Codec.control_type Codec.publish].
  change (3 =? MQTT_CONTROL_CONNACK) with false.
  change (3 =? MQTT_CONTROL_PUBLISH) with true. cbv iota.
  reflexivity.
Qed.

End Engines.

(** Witness of [recv_reports_errors]: a PINGRESP nobody waits for. *)
Lemma recv_reports_errors_witness :
  let r := Client.mqtt_recv (H := std_header) (fun a _ _ => a)
             sample_response
             (sample_globals (store_list zeros 0 [208; 0]) 2 2 0)
             (sample_client (MQ.mqtt_mq_init (H := std_header) zeros 100)
                            1 0) in
  (snd r = @MQTT_OK std_header /\ Client.error (fst (fst r)) = 1) \/
  (snd r < 0 /\ Client.error (fst (fst r)) = snd r).
Proof.
  apply (recv_reports_errors (H := std_header) (fun a _ _ => a)
           sample_response
           (sample_globals (store_list zeros 0 [208; 0]) 2 2 0)
           (sample_client (MQ.mqtt_mq_init (H := std_header) zeros 100) 1 0)).
  std_header_ok.
Defined.

(** Witness of [recv_pingresp_releases_pingreq]: a PINGRESP for the one
    PINGREQ of the queue. *)
Lemma recv_pingresp_releases_pingreq_witness :
  let g := sample_globals (store_list zeros 0 [208; 0]) 2 2 0 in
  let m := sample_header 12 0 MQ.MQTT_QUEUED_AWAITING_ACK in
  let c := sample_client (sample_queue1 m) 1 0 in
  Client.mqtt_recv (H := std_header) (fun a _ _ => a) sample_response g c
  = (with_queue c [MQ.set_state m MQ.MQTT_QUEUED_COMPLETE], g,
     @MQTT_OK std_header).
Proof.
  intros g m c.
  destruct (recv_pingresp_releases_pingreq (H := std_header)
              (fun a _ _ => a) sample_response g c) as [Hfound _].
  - vm_compute. repeat split.
  - reflexivity.
  - apply (Hfound [] m []).
    + reflexivity.
    + constructor.
    + reflexivity.
Defined.

(** Witness of [recv_suback_releases_subscribe]: a SUBACK for the one
    SUBSCRIBE of the queue. *)
Lemma recv_suback_releases_subscribe_witness :
  let g := sample_globals (store_list zeros 0 [144; 3; 0; 7; 0]) 5 5 0 in
  let m := sample_header 8 7 MQ.MQTT_QUEUED_AWAITING_ACK in
  let c := sample_client (sample_queue1 m) 1 0 in
  Client.mqtt_recv (H := std_header) (fun a _ _ => a) sample_response g c
  = (with_queue c [MQ.set_state m MQ.MQTT_QUEUED_COMPLETE],
     Client.set_suback_received g 1, @MQTT_OK std_header).
Proof.
  intros g m c.
  apply (recv_suback_releases_subscribe (H := std_header) (fun a _ _ => a)
           sample_response g c 7 [0] [] m []).
  - lia.
  - discriminate.
  - vm_compute. repeat split.
  - reflexivity.
  - simpl. lia.
  - reflexivity.
  - constructor.
  - reflexivity.
Defined.

(** Witness of [recv_publish_calls_callback]: a PUBLISH on topic [t] with
    a payload of two bytes; the callback counts the bytes it is given. *)
Lemma recv_publish_calls_callback_witness :
  let g := sample_globals (store_list zeros 0 [48; 5; 0; 1; 116; 1; 2])
                          7 7 0 in
  let c := sample_client (MQ.mqtt_mq_init (H := std_header) zeros 100) 1 0 in
  snd (Client.mqtt_recv (H := std_header) (fun a _ _ => a)
         sample_response g c) = @MQTT_OK std_header.
Proof.
  intros g c.
  rewrite (recv_publish_calls_callback (H := std_header) (fun a _ _ => a)
             sample_response g c 0 [116] [1; 2]).
  - reflexivity.
  - lia.
  - simpl. lia.
  - vm_compute. repeat split.
  - reflexivity.
  - simpl. lia.
Defined.

(** ** The send engine *)

Section SendEngine.
Context {H : MqttHeader} {A : Type}.
Variable mqtt_pal_sendall : list Z -> Z.
Variable slot_junk : MQ.mqtt_queued_message.

Local Abbreviation mqtt_send := (Client.mqtt_send mqtt_pal_sendall slot_junk).

Lemma send_scan_passes_over : forall pre g (c : Client.mqtt_client A) i rest,
  Forall (passed_over g c) pre ->
  Client.send_scan mqtt_pal_sendall g c i (pre ++ rest)
  = Client.send_scan mqtt_pal_sendall g c (i + length pre) rest.
Proof.
  induction pre as [|x pre IH]; intros g c i rest Hpre.
  - cbn [app length]. now rewrite Nat.add_0_r.
  - inversion Hpre as [|? ? Hx Hpre']; subst.
    cbn [app Client.send_scan length].
    destruct Hx as [Hx|[Hx Ht]]; rewrite Hx.
    + cbn [negb]. rewrite IH by assumption. f_equal. lia.
    + destruct (Z.ltb_spec (u32 (MQ.time_sent x + Client.response_timeout c))
                           (Client.second_counter g)) as [E|_]; [lia|].
      cbn [negb]. rewrite IH by assumption. f_equal. lia.
Qed.

(** X20. [mqtt_send] hands the oldest unsent message to the transport,
    and only that one: when the headers before it are complete or await an
    acknowledgement that is not overdue, the transport takes the whole frame
    and no ping is due, the call returns MQTT_OK, stamps the header with the
    current second, marks a PUBLISH or DISCONNECT complete and every other
    type awaiting its acknowledgement, and changes no other header, no byte
    of the arena and no error. *)
Theorem send_transmits_oldest_unsent :
  forall g (c : Client.mqtt_client A) pre m post,
  0 <= Client.error c ->
  MQ.queue (Client.mq c) = pre ++ m :: post ->
  Forall (passed_over g c) pre ->
  MQ.state m = MQ.MQTT_QUEUED_UNSENT ->
  In (MQ.control_type m)
     [MQTT_CONTROL_CONNECT; MQTT_CONTROL_PUBLISH; MQTT_CONTROL_SUBSCRIBE;
      MQTT_CONTROL_PINGREQ; MQTT_CONTROL_DISCONNECT] ->
  Client.send_offset c = 0 -> 0 <= MQ.size m ->
  mqtt_pal_sendall (msg_bytes (MQ.mem (Client.mq c)) m) = MQ.size m ->
  no_ping_due g c (Client.second_counter g) ->
  let r := mqtt_send g c in
  snd r = MQTT_OK /\
  MQ.queue (Client.mq (fst r))
  = pre ++ MQ.set_state (MQ.set_time_sent m (Client.second_counter g))
                        (state_after_send (MQ.control_type m)) :: post /\
  MQ.mem (Client.mq (fst r)) = MQ.mem (Client.mq c) /\
  MQ.curr (Client.mq (fst r)) = MQ.curr (Client.mq c) /\
  Client.time_of_last_send (fst r) = Client.second_counter g /\
  Client.send_offset (fst r) = 0 /\
  Client.error (fst r) = Client.error c.
Proof.
  intros g c pre m post Herr Hq Hpre Hst Hct Hoff Hsz Hsend Hping r.
  subst r. unfold Client.mqtt_send.
  destruct (Z.ltb_spec (Client.error c) 0) as [E|_]; [lia|]. cbn [andb].
  rewrite Hq, send_scan_passes_over by exact Hpre. cbn [Nat.add].
  cbn [Client.send_scan]. rewrite Hst, Hoff. cbn [negb].
  rewrite Z.add_0_r, Z.sub_0_r. fold (msg_bytes (MQ.mem (Client.mq c)) m).
  rewrite Hsend.
  destruct (Z.ltb_spec (MQ.size m) 0) as [E|_]; [lia|].
  change (Client.send_offset
            (Client.set_send_offset c (0 + MQ.size m)))
    with (0 + MQ.size m).
  destruct (Z.ltb_spec (0 + MQ.size m) (MQ.size m)) as [E|_]; [lia|].
  unfold no_ping_due in Hping.
  assert (Hstate : forall c1 : Client.mqtt_client A,
            (if (MQ.control_type m =? MQTT_CONTROL_DISCONNECT)
                || (MQ.control_type m =? MQTT_CONTROL_PUBLISH)
             then
               Client.ScanExit
                 (Client.set_msg c1 (length pre)
                    (fun x => MQ.set_state x MQ.MQTT_QUEUED_COMPLETE))
             else if (MQ.control_type m =? MQTT_CONTROL_CONNECT)
                     || (MQ.control_type m =? MQTT_CONTROL_SUBSCRIBE)
                     || (MQ.control_type m =? MQTT_CONTROL_PINGREQ)
             then
               Client.ScanExit
                 (Client.set_msg c1 (length pre)
                    (fun x => MQ.set_state x MQ.MQTT_QUEUED_AWAITING_ACK))
             else
               Client.ScanReturn
                 (Client.set_error c1 MQTT_ERROR_MALFORMED_REQUEST)
                 MQTT_ERROR_MALFORMED_REQUEST)
            = Client.ScanExit
                (Client.set_msg c1 (length pre)
                   (fun x => MQ.set_state x
                               (state_after_send (MQ.control_type m))))).
  { intro c1. unfold state_after_send.
    cbn [In] in Hct.
    destruct Hct as [<-|[<-|[<-|[<-|[<-|[]]]]]]; reflexivity. }
  rewrite Hstate. clear Hstate.
  cbn [Client.set_msg Client.set_mq Client.set_send_offset
       Client.set_time_of_last_send Client.mq Client.time_of_last_send
       Client.keep_alive Client.send_offset Client.error MQ.set_queue
       MQ.queue MQ.mem MQ.curr].
  rewrite Hping.
  unfold Client.set_msg.
  cbn [fst snd Client.set_mq Client.set_send_offset
       Client.set_time_of_last_send Client.mq Client.time_of_last_send
       Client.send_offset Client.error MQ.set_queue MQ.queue MQ.mem MQ.curr].
  rewrite Hq, !update_nth_app.
  repeat split; reflexivity.
Qed.

(** [mqtt_send] has nothing to transmit. *)
Lemma send_scan_idle : forall g (c : Client.mqtt_client A),
  Forall (passed_over g c) (MQ.queue (Client.mq c)) ->
  Client.send_scan mqtt_pal_sendall g c 0 (MQ.queue (Client.mq c))
  = Client.ScanExit c.
Proof.
  intros g c Hq.
  rewrite <- (app_nil_r (MQ.queue (Client.mq c))).
  now rewrite send_scan_passes_over by exact Hq.
Qed.

Lemma clean_scan_all : forall q,
  Forall (fun m => MQ.state m = MQ.MQTT_QUEUED_COMPLETE) q ->
  skipn (MQ.clean_scan q) q = [].
Proof.
  induction q as [|m q IH]; intro Hq; [reflexivity|].
  inversion Hq as [|? ? Hm Hq']; subst. cbn [MQ.clean_scan].
  rewrite Hm. cbn [MQ.state_eqb negb skipn]. now apply IH.
Qed.

(** X21. The keep-alive ping: when every queued message is complete, the
    connection is up, more than three quarters of the keep-alive have
    passed since the last transmission, and the arena has room for the two
    bytes of the frame and, behind them, for one header, [mqtt_send] returns
    MQTT_OK and leaves in the cleaned queue one unsent PINGREQ, the two
    bytes 0xC0 0x00 at the start of the arena. *)
Theorem send_keep_alive_ping :
  forall g (c : Client.mqtt_client A),
  0 <= Client.error c ->
  Forall (fun m => MQ.state m = MQ.MQTT_QUEUED_COMPLETE)
         (MQ.queue (Client.mq c)) ->
  u32 (Client.time_of_last_send c + u32 (Client.keep_alive c * 3 / 4))
  < Client.second_counter g ->
  Client.mqtt_start g = MQTT_START_COMPLETE ->
  2 <= mqtt_mq_currsz (MQ.mem_size (Client.mq c)) 0 0 <= 65535 ->
  2 + msg_sz <= MQ.mem_size (Client.mq c) ->
  let r := mqtt_send g c in
  snd r = MQTT_OK /\
  Client.error (fst r) = Client.error c /\
  MQ.queue (Client.mq (fst r))
  = [ {| MQ.start := 0; MQ.size := 2; MQ.state := MQ.MQTT_QUEUED_UNSENT;
         MQ.time_sent := MQ.time_sent slot_junk;
         MQ.control_type := MQTT_CONTROL_PINGREQ;
         MQ.packet_id := MQ.packet_id slot_junk |} ] /\
  MQ.curr (Client.mq (fst r)) = 2 /\
  load_range (MQ.mem (Client.mq (fst r))) 0 2 = [192; 0].
Proof.
  intros g c Herr Hq Hdue Hstart Hroom _ r. subst r.
  unfold Client.mqtt_send.
  destruct (Z.ltb_spec (Client.error c) 0) as [E|_]; [lia|]. cbn [andb].
  rewrite send_scan_idle.
  2:{ eapply Forall_impl; [|exact Hq]. intros m Hm. now left. }
  destruct (Z.ltb_spec
              (u32 (Client.time_of_last_send c
                    + u32 (Client.keep_alive c * 3 / 4)))
              (Client.second_counter g)) as [_|E]; [|lia].
  rewrite Hstart, Z.eqb_refl. cbn [andb].
  unfold Client.mqtt_ping.
  destruct (Z.ltb_spec (Client.error c) 0) as [E|_]; [lia|].
  unfold MQ.mqtt_mq_clean. rewrite (clean_scan_all _ Hq).
  cbn [Client.set_mq Client.mq MQ.mem MQ.curr MQ.curr_sz MQ.mem_size].
  unfold MQ.currsz. cbn [length Z.of_nat].
  set (sz := mqtt_mq_currsz (MQ.mem_size (Client.mq c)) 0 0) in *.
  unfold Codec.mqtt_pack_ping_request.
  change {| Codec.control_type := MQTT_CONTROL_PINGREQ;
            Codec.control_flags := 0; Codec.remaining_length := 0 |}
    with (mk_fixed_header 12 0 0).
  destruct (pack_fixed_header_frame (MQ.mem (Client.mq c)) 0 sz 12 0 0
              eq_refl ltac:(lia) ltac:(lia) ltac:(cbn; lia)) as [Hrv Hm].
  destruct (Codec.mqtt_pack_fixed_header (MQ.mem (Client.mq c)) 0 sz
              (mk_fixed_header 12 0 0)) as [rv packed].
  cbn [fst snd] in Hrv, Hm. change (varint 5 0) with [0] in Hrv, Hm.
  cbn [length] in Hrv. change (1 + Z.of_nat 1) with 2 in Hrv. subst rv.
  cbn [Z.ltb Z.compare Z.eqb Pos.eqb negb].
  rewrite Z.eqb_refl. cbn [negb fst snd].
  unfold Client.register_as, MQ.mqtt_mq_register.
  cbn [Client.set_mq Client.mq Client.error MQ.set_mem MQ.set_queue MQ.queue
       MQ.curr MQ.mem MQ.mem_size app length Nat.sub MQ.update_nth
       MQ.set_control_type MQ.start MQ.size MQ.state MQ.time_sent
       MQ.control_type MQ.packet_id].
  change (u16 2) with 2.
  repeat split; try reflexivity.
  unfold load_range. cbn [seq map]. rewrite !Hm. reflexivity.
Qed.

End SendEngine.

(** Witness of [send_transmits_oldest_unsent]: the second frame of the
    queue is unsent, the first awaits its acknowledgement. *)
Lemma send_transmits_oldest_unsent_witness :
  let g := sample_globals zeros 0 0 0 in
  let c := sample_client (sample_queue2 7) 1 0 in
  let r := Client.mqtt_send (H := std_header) sample_transport
             (sample_msg 0 0 MQ.MQTT_QUEUED_COMPLETE) g c in
  snd r = @MQTT_OK std_header /\
  MQ.queue (Client.mq (fst r))
  = [MQ.set_packet_id (sample_msg 0 2 MQ.MQTT_QUEUED_AWAITING_ACK) 7;
     sample_msg 2 3 MQ.MQTT_QUEUED_COMPLETE].
Proof.
  intros g c.
  destruct (send_transmits_oldest_unsent (H := std_header) sample_transport
              (sample_msg 0 0 MQ.MQTT_QUEUED_COMPLETE) g c
              [MQ.set_packet_id (sample_msg 0 2 MQ.MQTT_QUEUED_AWAITING_ACK) 7]
              (sample_msg 2 3 MQ.MQTT_QUEUED_UNSENT) [])
    as (Hrv & Hq & _).
  - simpl. lia.
  - reflexivity.
  - constructor; [|constructor]. right. split; [reflexivity|].
    vm_compute. discriminate.
  - reflexivity.
  - simpl. right. left. reflexivity.
  - reflexivity.
  - simpl. lia.
  - reflexivity.
  - reflexivity.
  - split; [exact Hrv|exact Hq].
Defined.

(** Witness of [send_keep_alive_ping]: an empty queue, 100 seconds after
    the last transmission with a keep-alive of 60. *)
Lemma send_keep_alive_ping_witness :
  let r := Client.mqtt_send (H := std_header) sample_transport
             (sample_msg 0 0 MQ.MQTT_QUEUED_COMPLETE) sample_running_globals
             (sample_client (MQ.mqtt_mq_init (H := std_header) zeros 100)
                            1 0) in
  snd r = @MQTT_OK std_header /\
  MQ.curr (Client.mq (fst r)) = 2 /\
  load_range (MQ.mem (Client.mq (fst r))) 0 2 = [192; 0].
Proof.
  destruct (send_keep_alive_ping (H := std_header) sample_transport
              (sample_msg 0 0 MQ.MQTT_QUEUED_COMPLETE) sample_running_globals
              (sample_client (MQ.mqtt_mq_init (H := std_header) zeros 100)
                             1 0))
    as (Hrv & _ & _ & Hcurr & Hmem).
  - simpl. lia.
  - constructor.
  - vm_compute. reflexivity.
  - reflexivity.
  - vm_compute. split; discriminate.
  - vm_compute. discriminate.
  - repeat split; assumption.
Defined.

(** ** Subscriptions *)

Section Subscriptions.
Context {H : MqttHeader} {A : Type}.
Variable slot_junk : MQ.mqtt_queued_message.

Lemma clean_packet_ids : forall mq x,
  In x (packet_ids (MQ.queue (MQ.mqtt_mq_clean mq))) ->
  In x (packet_ids (MQ.queue mq)).
Proof.
  intros mq x. unfold MQ.mqtt_mq_clean.
  destruct (skipn (MQ.clean_scan (MQ.queue mq)) (MQ.queue mq))
    as [|new_head rest] eqn:Hs; [intros []|].
  destruct (Nat.eqb (MQ.clean_scan (MQ.queue mq)) 0); [trivial|].
  cbn [MQ.queue]. unfold packet_ids. rewrite map_map.
  cbn [MQ.set_start MQ.packet_id].
  rewrite <- Hs. intro Hin. apply in_map_iff in Hin as (m & <- & Hm).
  apply in_map. rewrite <- (firstn_skipn (MQ.clean_scan (MQ.queue mq))).
  apply in_or_app. now right.
Qed.

Lemma fresh_not_found : forall q ct pid,
  ~ In pid (packet_ids q) ->
  Forall (fun x => found ct (Some pid) x = false) q.
Proof.
  intros q ct pid Hfresh. apply Forall_forall. intros x Hx.
  unfold found. destruct (Z.eqb_spec pid (MQ.packet_id x)) as [E|_];
    [|apply andb_false_r].
  exfalso. apply Hfresh. subst pid. unfold packet_ids. now apply in_map.
Qed.

(** X18. A subscription that was queued is found by its identifier: after
    a [mqtt_subscribe] that returns MQTT_OK the last header of the queue is
    an unsent SUBSCRIBE with a non-zero identifier no older header uses, and
    [mqtt_mq_find] on SUBSCRIBE and this identifier returns that header. *)
Theorem subscribe_is_found_by_its_identifier :
  forall (c c' : Client.mqtt_client A) fuel topic qos,
  header_ok H ->
  0 <= Client.pid_lfsr c < 65536 ->
  Z.of_nat (length (MQ.queue (Client.mq c))) < 65535 ->
  (length (MQ.queue (Client.mq c)) < fuel)%nat ->
  Client.mqtt_subscribe slot_junk fuel c topic qos = Some (c', MQTT_OK) ->
  let pid := Client.pid_lfsr c' in
  0 < pid < 65536 /\
  ~ In pid (packet_ids (MQ.queue (Client.mq c))) /\
  exists pre m,
    MQ.queue (Client.mq c') = pre ++ [m] /\
    MQ.state m = MQ.MQTT_QUEUED_UNSENT /\
    MQ.control_type m = MQTT_CONTROL_SUBSCRIBE /\
    MQ.packet_id m = pid /\
    MQ.mqtt_mq_find (Client.mq c') MQTT_CONTROL_SUBSCRIBE (Some pid)
    = Some (length pre).
Proof.
  intros c c' fuel topic qos Hok Hl Hq Hfuel Hsub pid.
  destruct (header_errors_negative Hok)
    as (_ & _ & _ & _ & _ & _ & _ & _ & _ & _ & _ & _ & Hmok).
  destruct (mqtt_next_pid_spec A c fuel Hl Hq Hfuel)
    as (p & Hnext & Hp & Hfresh).
  unfold Client.mqtt_subscribe in Hsub. rewrite Hnext in Hsub.
  set (c0 := if Client.pid_lfsr c =? 0 then Client.set_pid_lfsr c 163 else c)
    in *.
  assert (Hmq0 : Client.mq c0 = Client.mq c)
    by (subst c0; destruct (_ =? 0); reflexivity).
  set (c1 := Client.set_pid_lfsr c0 p) in *.
  destruct (Z.ltb_spec (Client.error c1) 0) as [E|_].
  { injection Hsub as _ Hrv. change (Client.error c1 = MQTT_OK) in Hrv. lia. }
  set (mq1 := MQ.mqtt_mq_clean (Client.mq c1)) in *.
  cbn [Client.set_mq Client.mq] in Hsub.
  destruct (Codec.mqtt_pack_subscribe_request _ _ _ _ _ _) as [rv packed].
  destruct (Z.ltb_spec rv 0) as [E|_].
  { injection Hsub as _ Hrv. lia. }
  injection Hsub as <-.
  assert (Hpid : pid = p) by reflexivity.
  rewrite Hpid. split; [exact Hp|]. split; [exact Hfresh|].
  assert (Hclean : ~ In p (packet_ids (MQ.queue mq1))).
  { intro Hin. apply Hfresh. subst mq1.
    apply clean_packet_ids in Hin.
    change (Client.mq c1) with (Client.mq c0) in Hin. now rewrite Hmq0 in Hin. }
  exists (MQ.queue mq1).
  eexists. unfold Client.register_as, MQ.mqtt_mq_register.
  cbn [Client.set_mq Client.mq MQ.set_mem MQ.set_queue MQ.queue MQ.curr
       MQ.mem MQ.mem_size].
  rewrite length_app. cbn [length].
  replace (length (MQ.queue mq1) + 1 - 1)%nat with (length (MQ.queue mq1))
    by lia.
  rewrite update_nth_app.
  split; [reflexivity|]. split; [reflexivity|]. split; [reflexivity|].
  split; [reflexivity|].
  unfold MQ.mqtt_mq_find. cbn [MQ.queue MQ.set_queue].
  rewrite (find_from_app (MQ.queue mq1) 0 _ [] MQTT_CONTROL_SUBSCRIBE
             (Some p)).
  - reflexivity.
  - now apply fresh_not_found.
  - unfold found. cbn [MQ.set_packet_id MQ.set_control_type MQ.control_type
                        MQ.packet_id].
    now rewrite !Z.eqb_refl.
Qed.

End Subscriptions.

(** Witness of [subscribe_is_found_by_its_identifier]: a subscription to
    topic [t] on a fresh client. *)
Lemma subscribe_is_found_by_its_identifier_witness :
  let c := sample_client (MQ.mqtt_mq_init (H := std_header) zeros 100) 1 0 in
  let r := Client.mqtt_subscribe (H := std_header)
             (sample_msg 0 0 MQ.MQTT_QUEUED_COMPLETE) 1 c [116] 0 in
  let c' := match r with Some (c', _) => c' | None => c end in
  exists k,
    MQ.mqtt_mq_find (Client.mq c') MQTT_CONTROL_SUBSCRIBE
                    (Some (Client.pid_lfsr c')) = Some k.
Proof.
  intros c r c'.
  destruct (subscribe_is_found_by_its_identifier (H := std_header)
              (sample_msg 0 0 MQ.MQTT_QUEUED_COMPLETE) c c' 1 [116] 0)
    as (_ & _ & pre & m & _ & _ & _ & _ & Hfind).
  - std_header_ok.
  - simpl. lia.
  - simpl. lia.
  - simpl. lia.
  - vm_compute. reflexivity.
  - exists (length pre). exact Hfind.
Defined.

(** ** Stream reassembly, Domoticz build: other control packets *)

Lemma passing_step : forall buf n k pb pidx fs idx nv b,
  Z.land (buf 0) 240 <> 48 ->
  2 <= n < 255 -> 1 <= k <= 59 ->
  Client.domoticz_step (passing buf n k pb pidx fs idx nv) b
  = if k =? 1
    then Client.Complete
           (passing (store (store buf n b) 1 (n - 1)) (n + 1) 0
                    pb pidx fs idx nv)
    else Client.Continue
           (passing (store buf n b) (n + 1) (k - 1) pb pidx fs idx nv).
Proof.
  intros buf n k pb pidx fs idx nv b Hnp Hn Hk.
  assert (F0 : (Z.land (buf 0) 240 =? 48) = false)
    by (apply Z.eqb_neq; exact Hnp).
  assert (F1 : (n =? 0) = false) by (apply Z.eqb_neq; lia).
  assert (F2 : (n + 1 =? 1) = false) by (apply Z.eqb_neq; lia).
  assert (F3 : (n + 1 =? 2) = false) by (apply Z.eqb_neq; lia).
  assert (F4 : (2 <? n + 1) = true) by (apply Z.ltb_lt; lia).
  assert (F5 : (59 <? k) = false) by (apply Z.ltb_ge; lia).
  assert (F6 : (k - 1 =? 0) = (k =? 1))
    by (destruct (Z.eqb_spec k 1), (Z.eqb_spec (k - 1) 0); lia || reflexivity).
  assert (F7 : u8 (n + 1) = n + 1) by (apply u8_small; lia).
  assert (F8 : u16 (k - 1) = k - 1) by (apply u16_small; lia).
  assert (F9 : u8 (n + 1 - 2) = n - 1)
    by (replace (n + 1 - 2) with (n - 1) by lia; apply u8_small; lia).
  assert (F10 : store buf n b 0 = buf 0) by (apply store_neq; lia).
  unfold Client.domoticz_step, Client.domoticz_finish, passing.
  repeat first
    [ progress reassembly_cbv
    | progress rewrite ?F0, ?F1, ?F2, ?F3, ?F4, ?F5, ?F6, ?F7, ?F8, ?F9, ?F10
    | progress change (1 =? 0) with false
    | progress rewrite ?Bool.andb_false_r ].
  destruct (n + 1 =? 3); cbv iota;
    repeat first
      [ progress reassembly_cbv
      | progress rewrite ?F0, ?F1, ?F2, ?F3, ?F4, ?F5, ?F6, ?F7, ?F8, ?F9, ?F10 ];
    destruct (Z.eqb_spec k 1) as [->|]; reflexivity.
Qed.

Lemma passing_run : forall body buf n k pb pidx fs idx nv,
  Z.land (buf 0) 240 <> 48 ->
  2 <= n -> n + Z.of_nat (length body) < 256 ->
  Z.of_nat (length body) < k <= 59 ->
  domoticz_run (passing buf n k pb pidx fs idx nv) body
  = Some (passing (store_list buf n body) (n + Z.of_nat (length body))
                  (k - Z.of_nat (length body)) pb pidx fs idx nv).
Proof.
  induction body as [|b body IH]; intros buf n k pb pidx fs idx nv Hnp Hn Hlen Hk.
  - cbn [domoticz_run length store_list Z.of_nat].
    now rewrite Z.add_0_r, Z.sub_0_r.
  - cbn [length] in Hlen, Hk. cbn [domoticz_run store_list].
    rewrite passing_step by (try assumption; lia).
    destruct (Z.eqb_spec k 1) as [E|_]; [lia|].
    rewrite IH; try lia.
    + f_equal. f_equal; cbn [length]; lia.
    + now rewrite store_neq by lia.
Qed.

Section OtherFrames.
Context {H : MqttHeader} {A : Type}.
Variable mqtt_pal_sendall : list Z -> Z.
Variable publish_response_callback :
  A -> Client.globals -> Codec.mqtt_response_publish -> A.
Variable slot_junk : MQ.mqtt_queued_message.
Variable response_junk : Codec.mqtt_response.

(** X27. The Domoticz build of [mqtt_sync] leaves the control packets that
    are not a PUBLISH as they are: a frame with a one-byte Remaining Length
    and at most 59 bytes behind it that arrives in any split into
    non-empty chunks, with an idle reassembler, reaches [mqtt_recv] once and
    whole. *)
Theorem domoticz_passes_other_frames :
  forall (c : Client.mqtt_client A) (g : Client.globals)
         (ctl : Z) (payload : list Z) (chunks : list (list Z)),
  Z.land ctl 240 <> 48 ->
  Z.of_nat (length payload) <= 59 ->
  Client.mqtt_partial_buffer_length g = 0 ->
  Client.pbi g = 0 ->
  Forall (fun ch => ch <> []) chunks ->
  concat chunks = ctl :: Z.of_nat (length payload) :: payload ->
  snd (Client.feed
         (Client.mqtt_sync_domoticz mqtt_pal_sendall publish_response_callback
                                    slot_junk response_junk true)
         chunks c g)
  = [ctl :: Z.of_nat (length payload) :: payload].
Proof.
  intros c g ctl payload chunks Hnp Hlen Hpbl Hpbi Hne Hcat.
  destruct (Client.get_reassembly g)
    as [buf pbl pbi cml cap pb pidx fs idx nv] eqn:Hg.
  assert (pbl = 0 /\ pbi = 0) as [-> ->].
  { apply (f_equal Client.r_mqtt_partial_buffer_length) in Hg as H1.
    apply (f_equal Client.r_pbi) in Hg as H2. cbn in H1, H2. lia. }
  set (idx' := store idx 0 0). set (nv' := store nv 0 0).
  set (buf1 := store buf 0 ctl).
  assert (H0 : domoticz_run (Client.get_reassembly g) [ctl]
               = Some {| Client.r_uip_buf := buf1;
                         Client.r_mqtt_partial_buffer_length := 1;
                         Client.r_pbi := 1; Client.r_current_msg_length := cml;
                         Client.r_remaining_length_captured_flag := 0;
                         Client.r_parse_buffer := pb;
                         Client.r_parse_index := pidx;
                         Client.r_filter_step :=
                           Client.CAPTURE_VARIABLE_HEADER_BYTE1;
                         Client.r_idx_string := idx';
                         Client.r_nvalue_string := nv' |}).
  { rewrite Hg. cbn [domoticz_run]. now rewrite step_control_byte. }
  destruct (list_eq_dec Z.eq_dec payload []) as [->|Hne'].
  - (* Remaining Length 0: the frame is complete with its second byte *)
    cbn [length Z.of_nat] in *.
    destruct (feed_message mqtt_pal_sendall publish_response_callback
                slot_junk response_junk chunks c g [ctl] 0 _
                (passing (store (store buf1 1 0) 1 0) 2 0 pb pidx
                   Client.CAPTURE_VARIABLE_HEADER_BYTE1 idx' nv')
                Hne Hcat H0) as (Hlog & _).
    { reflexivity. }
    rewrite Hlog. unfold passing.
    cbn [Client.r_uip_buf Client.r_mqtt_partial_buffer_length].
    change (Z.to_nat 2) with 2%nat. unfold load_range. cbn [seq map Z.of_nat].
    rewrite store_eq. rewrite !store_neq by lia. subst buf1.
    now rewrite store_eq.
  - set (L := Z.of_nat (length payload)) in *.
    assert (HL : 1 <= L <= 59).
    { subst L. destruct payload; [contradiction|cbn [length] in *; lia]. }
    destruct (exists_last Hne') as (body & z & Hbody).
    assert (HbL : Z.of_nat (length body) = L - 1).
    { subst L. rewrite Hbody, length_app. cbn [length]. lia. }
    set (buf2 := store buf1 1 L).
    assert (H2 : domoticz_run (Client.get_reassembly g) (ctl :: L :: body)
                 = Some (passing (store_list buf2 2 body) (L + 1) 1 pb pidx
                           Client.CAPTURE_VARIABLE_HEADER_BYTE1 idx' nv')).
    { change (ctl :: L :: body) with ([ctl] ++ [L] ++ body).
      rewrite domoticz_run_app, H0. rewrite domoticz_run_app.
      cbn [domoticz_run]. rewrite step_length_single by lia.
      fold buf2.
      change {| Client.r_uip_buf := buf2;
                Client.r_mqtt_partial_buffer_length := 2;
                Client.r_pbi := 2; Client.r_current_msg_length := L;
                Client.r_remaining_length_captured_flag := 1;
                Client.r_parse_buffer := pb; Client.r_parse_index := pidx;
                Client.r_filter_step := Client.CAPTURE_VARIABLE_HEADER_BYTE1;
                Client.r_idx_string := idx'; Client.r_nvalue_string := nv' |}
        with (passing buf2 2 L pb pidx Client.CAPTURE_VARIABLE_HEADER_BYTE1
                idx' nv').
      rewrite passing_run; try lia.
      - f_equal. f_equal; lia.
      - subst buf2 buf1. rewrite store_neq by lia. now rewrite store_eq. }
    assert (Hlast : Client.domoticz_step
                      (passing (store_list buf2 2 body) (L + 1) 1 pb pidx
                         Client.CAPTURE_VARIABLE_HEADER_BYTE1 idx' nv') z
                    = Client.Complete
                        (passing (store (store (store_list buf2 2 body)
                                           (L + 1) z) 1 (L + 1 - 1))
                                 (L + 1 + 1) 0 pb pidx
                                 Client.CAPTURE_VARIABLE_HEADER_BYTE1
                                 idx' nv')).
    { rewrite passing_step; try lia; [reflexivity|].
      rewrite store_list_below by lia. subst buf2 buf1.
      rewrite store_neq by lia. now rewrite store_eq. }
    assert (Hcat' : concat chunks = (ctl :: L :: body) ++ [z]).
    { rewrite Hcat, Hbody. reflexivity. }
    destruct (feed_message mqtt_pal_sendall publish_response_callback
                slot_junk response_junk chunks c g _ z _ _
                Hne Hcat' H2 Hlast) as (Hlog & _).
    rewrite Hlog. unfold passing.
    cbn [Client.r_uip_buf Client.r_mqtt_partial_buffer_length].
    f_equal.
    replace (Z.to_nat (L + 1 + 1)) with (length (ctl :: L :: payload))
      by (cbn [length]; subst L; lia).
    apply holds_load_range.
    set (m := store _ 1 _).
    assert (Hm0 : m 0 = ctl).
    { subst m. rewrite !store_neq by lia. rewrite store_list_below by lia.
      subst buf2 buf1. rewrite store_neq by lia. apply store_eq. }
    assert (Hm1 : m 1 = L).
    { subst m. rewrite store_eq. lia. }
    cbn [holds]. split; [exact Hm0|]. split; [exact Hm1|].
    rewrite Hbody. apply holds_app. split.
    + subst m. apply holds_store_other; [lia|].
      apply holds_store_other; [lia|].
      apply store_list_holds.
    + cbn [holds]. split; [|exact I]. subst m.
      rewrite store_neq by lia.
      replace (0 + 1 + 1 + Z.of_nat (length body)) with (L + 1) by lia.
      apply store_eq.
Qed.

End OtherFrames.

(** Witness of [domoticz_passes_other_frames]: a PINGRESP that arrives one
    byte at a time. *)
Lemma domoticz_passes_other_frames_witness :
  snd (Client.feed
         (Client.mqtt_sync_domoticz (H := std_header) sample_transport
            (fun a _ _ => a) (sample_msg 0 0 MQ.MQTT_QUEUED_COMPLETE)
            sample_response true)
         [[208]; [0]]
         (sample_client (MQ.mqtt_mq_init (H := std_header) zeros 100) 1 0)
         (sample_globals zeros 0 0 0))
  = [[208; 0]].
Proof.
  apply (domoticz_passes_other_frames (H := std_header) sample_transport
           (fun a _ _ => a) (sample_msg 0 0 MQ.MQTT_QUEUED_COMPLETE)
           sample_response
           (sample_client (MQ.mqtt_mq_init (H := std_header) zeros 100) 1 0)
           (sample_globals zeros 0 0 0) 208 [] [[208]; [0]]).
  - vm_compute. discriminate.
  - simpl. lia.
  - reflexivity.
  - reflexivity.
  - repeat constructor; discriminate.
  - reflexivity.
Defined.

(** ** The receive engine: CONNACK; the publish request *)

Section Connack.
Context {H : MqttHeader} {A : Type}.
Variable publish_response_callback :
  A -> Client.globals -> Codec.mqtt_response_publish -> A.
Variable response_junk : Codec.mqtt_response.

Local Abbreviation mqtt_recv :=
  (Client.mqtt_recv publish_response_callback response_junk).

(** X23. A CONNACK releases the pending CONNECT, accepted or not:
    [mqtt_recv] marks the oldest CONNECT that is not complete as complete
    and sets [connack_received]; it returns MQTT_OK when the return code is
    "accepted", MQTT_ERROR_CONNECT_CLIENT_ID_REFUSED when the identifier was
    rejected and MQTT_ERROR_CONNECTION_REFUSED otherwise, and stores the
    error in the client. *)
Theorem recv_connack_releases_connect :
  forall g (c : Client.mqtt_client A) sp rc pre m post,
  Z.land sp 254 = 0 -> rc <= 5 ->
  holds (Client.uip_buf g) 0 [32; 2; sp; rc] ->
  Client.mqtt_partial_buffer_length g = 4 ->
  MQ.queue (Client.mq c) = pre ++ m :: post ->
  Forall (fun x => found MQTT_CONTROL_CONNECT None x = false) pre ->
  found MQTT_CONTROL_CONNECT None m = true ->
  let c' := with_queue c
              (pre ++ MQ.set_state m MQ.MQTT_QUEUED_COMPLETE :: post) in
  let g' := Client.set_connack_received g 1 in
  mqtt_recv g c
  = if rc =? MQTT_CONNACK_ACCEPTED then (c', g', MQTT_OK)
    else if rc =? MQTT_CONNACK_REFUSED_IDENTIFIER_REJECTED
    then (Client.set_error c' MQTT_ERROR_CONNECT_CLIENT_ID_REFUSED, g',
          MQTT_ERROR_CONNECT_CLIENT_ID_REFUSED)
    else (Client.set_error c' MQTT_ERROR_CONNECTION_REFUSED, g',
          MQTT_ERROR_CONNECTION_REFUSED).
Proof.
  intros g c sp rc pre m post Hsp Hrc Hbuf Hpbl Hq Hpre Hm c' g'.
  unfold Client.mqtt_recv. rewrite Hpbl.
  rewrite (unpack_response_connack_frame response_junk (Client.uip_buf g) 0 4
             sp rc ltac:(lia) Hbuf).
  cbv zeta. rewrite Hsp. cbn [Z.eqb negb].
  destruct (Z.ltb_spec 5 rc) as [E|_]; [lia|].
  cbn [Z.ltb Z.compare Codec.fixed_header Codec.set_fixed_header
       Codec.set_connack mk_fixed_header Codec.control_type Codec.connack
       Codec.return_code].
  change (2 =? MQTT_CONTROL_CONNACK) with true. cbv iota.
  unfold MQ.mqtt_mq_find. rewrite Hq.
  rewrite (find_from_app pre 0 m post _ _ Hpre Hm). cbn [Nat.add].
  unfold Client.set_msg. rewrite Hq, update_nth_app.
  destruct (rc =? MQTT_CONNACK_ACCEPTED); cbn [negb]; [reflexivity|].
  destruct (rc =? MQTT_CONNACK_REFUSED_IDENTIFIER_REJECTED); reflexivity.
Qed.

End Connack.

Section PublishRegisters.
Context {H : MqttHeader} {A : Type}.
Variable slot_junk : MQ.mqtt_queued_message.

(** X17. A publish with room in the send queue: when the frame has at
    most 32767 bytes and fits the free space of the cleaned queue, and the
    slot of its header lies behind it in the arena, [mqtt_publish] on a
    client without error returns MQTT_OK, appends one unsent PUBLISH header
    for the frame at the old [curr] of the cleaned queue, with a packet
    identifier no queued header uses, advances [curr] by the length of the
    frame, leaves the frame there and the bytes below untouched. *)
Theorem publish_registers_frame :
  forall (c : Client.mqtt_client A) fuel topic msg size flags,
  header_ok H ->
  0 <= Client.error c ->
  0 <= Client.pid_lfsr c < 65536 ->
  Z.of_nat (length (MQ.queue (Client.mq c))) < 65535 ->
  (length (MQ.queue (Client.mq c)) < fuel)%nat ->
  0 <= size ->
  let mq1 := MQ.mqtt_mq_clean (Client.mq c) in
  let rl := Z.of_nat (length topic) + 2 + size in
  let total := 1 + Z.of_nat (length (varint 5 rl)) + rl in
  total <= MQ.curr_sz mq1 <= 65535 -> total <= 32767 ->
  MQ.curr mq1 + total
  <= MQ.mem_size mq1 - msg_sz * (Z.of_nat (length (MQ.queue mq1)) + 1) ->
  exists c' pid,
    Client.mqtt_publish slot_junk fuel c topic msg size flags
    = Some (c', MQTT_OK) /\
    ~ In pid (packet_ids (MQ.queue (Client.mq c))) /\
    Client.error c' = Client.error c /\
    MQ.queue (Client.mq c')
    = MQ.queue mq1
      ++ [ {| MQ.start := MQ.curr mq1; MQ.size := total;
              MQ.state := MQ.MQTT_QUEUED_UNSENT;
              MQ.time_sent := MQ.time_sent slot_junk;
              MQ.control_type := MQTT_CONTROL_PUBLISH;
              MQ.packet_id := pid |} ] /\
    MQ.curr (Client.mq c') = MQ.curr mq1 + total /\
    load_range (MQ.mem (Client.mq c')) (MQ.curr mq1) (Z.to_nat total)
    = frame (48 + Z.land (Z.land flags (u8 (Z.lnot MQTT_PUBLISH_DUP))) 15)
            (be16 (Z.of_nat (length topic)) ++ topic
             ++ load_range msg 0 (Z.to_nat size)) /\
    forall j, j < MQ.curr mq1 ->
              MQ.mem (Client.mq c') j = MQ.mem mq1 j.
Proof.
  intros c fuel topic msg size flags Hok Herr Hl Hq Hfuel Hsize mq1 rl total
         Hroom H15 _.
  destruct (header_errors_negative Hok)
    as (_ & _ & _ & _ & _ & _ & _ & _ & _ & _ & _ & _ & Hmok).
  destruct (mqtt_next_pid_spec A c fuel Hl Hq Hfuel)
    as (p & Hnext & Hp & Hfresh).
  unfold Client.mqtt_publish. rewrite Hnext.
  set (c0 := if Client.pid_lfsr c =? 0 then Client.set_pid_lfsr c 163 else c)
    in *.
  assert (Hmq0 : Client.mq c0 = Client.mq c)
    by (subst c0; destruct (_ =? 0); reflexivity).
  assert (Herr0 : Client.error c0 = Client.error c)
    by (subst c0; destruct (_ =? 0); reflexivity).
  change (Client.error (Client.set_pid_lfsr c0 p)) with (Client.error c0).
  rewrite Herr0.
  destruct (Z.ltb_spec (Client.error c) 0) as [E|_]; [lia|].
  change (Client.mq (Client.set_pid_lfsr c0 p)) with (Client.mq c0).
  rewrite Hmq0. fold mq1.
  cbn [Client.set_mq Client.mq].
  destruct (publish_request_layout (MQ.mem mq1) (MQ.curr mq1) (MQ.curr_sz mq1)
              topic p msg size flags Hsize) as [Hrv Hm].
  { fold rl. fold total. lia. }
  { fold rl. fold total. exact H15. }
  fold rl in Hrv. fold total in Hrv.
  destruct (Codec.mqtt_pack_publish_request _ _ _ _ _ _ _ _) as [rv packed].
  cbn [fst snd] in Hrv, Hm. subst rv.
  assert (Htot : 2 <= total).
  { subst total. pose proof (varint_length_pos 5 rl ltac:(lia)). subst rl. lia. }
  destruct (Z.ltb_spec total 0) as [E|_]; [lia|].
  eexists. exists p. split; [reflexivity|]. split; [exact Hfresh|].
  unfold Client.register_as, MQ.mqtt_mq_register.
  cbn [Client.set_mq Client.mq Client.error MQ.set_mem MQ.set_queue MQ.queue
       MQ.curr MQ.mem MQ.mem_size].
  rewrite length_app. cbn [length].
  replace (length (MQ.queue mq1) + 1 - 1)%nat with (length (MQ.queue mq1))
    by lia.
  rewrite update_nth_app. rewrite (u16_small total) by lia.
  split; [exact Herr0|]. split; [reflexivity|]. split; [reflexivity|].
  assert (Hflen : Z.to_nat total
                  = length (frame (48 + Z.land (Z.land flags
                                       (u8 (Z.lnot MQTT_PUBLISH_DUP))) 15)
                              (be16 (Z.of_nat (length topic)) ++ topic
                               ++ load_range msg 0 (Z.to_nat size)))).
  { unfold frame. cbn [length].
    rewrite !length_app, load_range_length, be16_length.
    replace (Z.of_nat (2 + (length topic + Z.to_nat size))) with rl
      by (subst rl; lia).
    subst total. lia. }
  split.
  - rewrite Hflen. apply holds_load_range.
    apply (holds_mem_eq _ _ _ _ (fun j => eq_sym (Hm j))).
    apply store_list_holds.
  - intros j Hj. rewrite Hm. now apply store_list_below.
Qed.

End PublishRegisters.

(** Witness of [recv_connack_releases_connect]: an accepted connection. *)
Lemma recv_connack_releases_connect_witness :
  let g := sample_globals (store_list zeros 0 [32; 2; 0; 0]) 4 4 0 in
  let m := sample_header 1 0 MQ.MQTT_QUEUED_AWAITING_ACK in
  let c := sample_client (sample_queue1 m) 1 0 in
  Client.mqtt_recv (H := std_header) (fun a _ _ => a) sample_response g c
  = (with_queue c [MQ.set_state m MQ.MQTT_QUEUED_COMPLETE],
     Client.set_connack_received g 1, @MQTT_OK std_header).
Proof.
  intros g m c.
  apply (recv_connack_releases_connect (H := std_header) (fun a _ _ => a)
           sample_response g c 0 0 [] m []).
  - reflexivity.
  - lia.
  - vm_compute. repeat split.
  - reflexivity.
  - reflexivity.
  - constructor.
  - reflexivity.
Defined.

(** Witness of [publish_registers_frame]: topic [t] and ten bytes on a
    fresh client. *)
Lemma publish_registers_frame_witness :
  let c := sample_client (MQ.mqtt_mq_init (H := std_header) zeros 100) 1 0 in
  exists c',
    Client.mqtt_publish (H := std_header)
      (sample_msg 0 0 MQ.MQTT_QUEUED_COMPLETE) 1 c [116] ten_bytes 10 0
    = Some (c', @MQTT_OK std_header) /\
    MQ.curr (Client.mq c') = 15 /\
    load_range (MQ.mem (Client.mq c')) 0 15
    = [48; 13; 0; 1; 116; 48; 49; 50; 51; 52; 53; 54; 55; 56; 57].
Proof.
  intro c.
  destruct (publish_registers_frame (H := std_header)
              (sample_msg 0 0 MQ.MQTT_QUEUED_COMPLETE) c 1 [116] ten_bytes
              10 0)
    as (c' & pid & Hr & _ & _ & _ & Hcurr & Hmem & _).
  - std_header_ok.
  - simpl. lia.
  - simpl. lia.
  - simpl. lia.
  - simpl. lia.
  - lia.
  - vm_compute. split; discriminate.
  - simpl. lia.
  - vm_compute. discriminate.
  - exists c'. split; [exact Hr|]. split; [exact Hcurr|exact Hmem].
Defined.

(** ** The CONNECT frame *)

Lemma connect_flags_code : forall cf hu hp, 0 <= cf < 256 ->
  let f2 := u8 (Z.lor (u8 (Z.lor (u8 (Z.land cf (Z.lnot 1))) 4)) 32) in
  let f3 := if hu : bool then u8 (Z.lor f2 128)
            else Z.land f2 (u8 (Z.lnot 128)) in
  let f4 := if hp : bool then u8 (Z.lor f3 64)
            else Z.land f3 (u8 (Z.lnot 64)) in
  f4 = connect_flags_byte cf hu hp /\
  (Z.land f2 4 =? 0) = false /\
  (Z.land f4 4 =? 0) = false /\
  (Z.land f4 128 =? 0) = negb hu /\
  (Z.land f4 64 =? 0) = negb hp.
Proof.
  intros cf hu hp Hcf.
  assert (Hall : forall hu hp, all_from 256 0 (fun cf =>
            let f2 := u8 (Z.lor (u8 (Z.lor (u8 (Z.land cf (Z.lnot 1))) 4)) 32) in
            let f3 := if hu : bool then u8 (Z.lor f2 128)
                      else Z.land f2 (u8 (Z.lnot 128)) in
            let f4 := if hp : bool then u8 (Z.lor f3 64)
                      else Z.land f3 (u8 (Z.lnot 64)) in
            (f4 =? connect_flags_byte cf hu hp)
            && negb (Z.land f2 4 =? 0)
            && negb (Z.land f4 4 =? 0)
            && Bool.eqb (Z.land f4 128 =? 0) (negb hu)
            && Bool.eqb (Z.land f4 64 =? 0) (negb hp)) = true).
  { intros [|] [|]; vm_compute; reflexivity. }
  pose proof (all_from_spec _ _ _ (Hall hu hp) cf ltac:(lia)) as Hc.
  cbv beta zeta in Hc.
  repeat (apply andb_prop in Hc as [Hc ?]).
  cbv zeta.
  repeat match goal with
         | Hq : (_ =? _) = true |- _ => apply Z.eqb_eq in Hq
         | Hq : negb _ = true |- _ => apply negb_true_iff in Hq
         | Hq : Bool.eqb _ _ = true |- _ => apply Bool.eqb_prop in Hq
         end.
  repeat split; assumption.
Qed.

Section ConnectFrame.
Context {H : MqttHeader}.

Lemma connect_header_valid rl :
  Codec.mqtt_fixed_header_rule_violation (mk_fixed_header 1 0 rl) = 0.
Proof. reflexivity. Qed.

(** X9. The CONNECT frame: with the flag values of MQTT 3.1.1, for a
    frame of at most 32767 bytes that fits the buffer, 8-bit connect flags
    and a 16-bit keep-alive and will size,
    [mqtt_pack_connection_request] returns the length of the
    frame and leaves in the buffer the control byte 0x10, the Remaining
    Length, the protocol name and level, the Connect Flags (Will Flag and
    Will Retain set, User Name and Password set exactly when the strings
    are given, the reserved bit clear), the keep-alive, the client
    identifier, the will topic and message and the optional user name and
    password; every byte outside the frame keeps its value. *)
Theorem connect_request_frame :
  forall mem buf bufsz id wt wm wms un pw cf ka,
  connect_constants H ->
  0 <= cf < 256 -> 0 <= ka < 65536 -> 0 <= wms < 65536 ->
  let body := connect_body cf ka id wt wm wms un pw in
  Z.of_nat (length (frame 16 body)) <= bufsz <= 65535 ->
  Z.of_nat (length (frame 16 body)) <= 32767 ->
  let p := Codec.mqtt_pack_connection_request mem buf bufsz id wt wm wms un pw
             cf ka in
  fst p = Z.of_nat (length (frame 16 body)) /\
  load_range (snd p) buf (length (frame 16 body)) = frame 16 body /\
  forall j, j < buf \/ buf + fst p <= j -> snd p j = mem j.
Proof.
  intros mem buf bufsz id wt wm wms un pw cf ka
         (Hres & Hwill & Hret & Hpw & Hun & Hlvl) Hcf Hka Hwms body Hsz H15 p.
  set (rl := Z.of_nat (length body)) in *.
  set (hdr := 1 + Z.of_nat (length (varint 5 rl))).
  assert (Hflen : Z.of_nat (length (frame 16 body)) = hdr + rl).
  { unfold frame. cbn [length]. rewrite length_app. subst hdr rl. lia. }
  rewrite Hflen in *.
  assert (Hrl0 : 0 <= rl) by (subst rl; lia).
  assert (Hrl : 0 <= rl <= 2 ^ 28 - 1) by (subst hdr; lia).
  pose proof (varint5_length rl Hrl) as Hlen.
  assert (Hbody : rl = 10 + (Z.of_nat (length id) + 2)
                       + (Z.of_nat (length wt) + 2) + (2 + wms)
                       + Z.of_nat (length (optional_string un))
                       + Z.of_nat (length (optional_string pw))).
  { subst rl body. unfold connect_body, mqtt_string.
    rewrite !length_app, load_range_length, !be16_length. cbn [length]. lia. }
  destruct (connect_flags_code cf (present un) (present pw) Hcf)
    as (Hf4 & _ & Hw4 & Hu4 & Hp4).
  cbv zeta in Hf4, Hw4, Hu4, Hp4.
  assert (Hp : fst p = hdr + rl /\
               mem_eq (snd p) (store_list mem buf (frame 16 body))).
  { subst p.
    destruct un as [u|], pw as [q|];
      cbn [present negb optional_string] in *.
    all: unfold mqtt_string in Hbody;
      rewrite ?length_app, ?be16_length in Hbody; cbn [length] in Hbody.
    all: unfold Codec.mqtt_pack_connection_request, Codec.strlen.
    all: rewrite Hres, Hwill, Hret, Hpw, Hun, Hlvl.
    all: change {| Codec.control_type := MQTT_CONTROL_CONNECT;
              Codec.control_flags := 0; Codec.remaining_length := ?r |}
      with (mk_fixed_header 1 0 r).
    all: repeat match goal with
                | |- context [u16 ?a] => rewrite (u16_small a) by lia
                end.
    all: match goal with
         | |- context [mk_fixed_header 1 0 ?r] => replace r with rl by lia
         end.
    all: rewrite Hw4, ?Hu4, ?Hp4, Hf4; cbn [negb].
    all: destruct (pack_fixed_header_frame mem buf bufsz 1 0 rl
                     (connect_header_valid rl) ltac:(lia) Hrl
                     ltac:(subst hdr; lia)) as [Hrv Hm].
    all: destruct (Codec.mqtt_pack_fixed_header mem buf bufsz
                     (mk_fixed_header 1 0 rl)) as [rv m1].
    all: cbn [fst snd] in Hrv, Hm; subst rv; fold hdr.
    all: destruct (Z.leb_spec hdr 0) as [E|_]; [subst hdr; lia|].
    all: rewrite u16_small by (subst hdr; lia).
    all: destruct (Z.ltb_spec (bufsz - hdr) rl) as [E|_]; [lia|].
    all: unfold Codec.memcpy.
    all: repeat (first [rewrite pack_uint16_frame by lia
                       |rewrite pack_str_frame by lia]; cbn [fst snd]).
    all: split; [rewrite i16_small by lia; lia|].
    all: change (16 * 1 + Z.land 0 15) with 16 in Hm.
    all: unfold frame; fold rl.
    all: change (16 :: varint 5 rl ++ body) with ((16 :: varint 5 rl) ++ body).
    all: subst body; unfold connect_body, optional_string, mqtt_string;
         cbn [present].
    all: rewrite ?app_nil_l, ?app_nil_r, !store_list_app.
    all: same_writes ltac:(rewrite ?be16_length, ?load_range_length;
                           subst hdr; lia).
    all: exact Hm. }
  destruct Hp as [Hfst Hmem]. split; [exact Hfst|]. split.
  - apply holds_load_range.
    apply (holds_mem_eq _ _ _ _ (fun j => eq_sym (Hmem j))).
    apply store_list_holds.
  - intros j Hj. rewrite Hmem. apply store_list_outside.
    rewrite Hfst in Hj. lia.
Qed.

End ConnectFrame.

(** Witness of [connect_request_frame]: client [c], will topic [w], a will
    of ten bytes, user [u], no password, clean session, keep-alive 60. *)
Lemma connect_request_frame_witness :
  let p := Codec.mqtt_pack_connection_request (H := std_header) zeros 0 100
             [99] [119] ten_bytes 10 (Some [117]) None 2 60 in
  fst p = 33 /\
  load_range (snd p) 0 33
  = [16; 31; 0; 4; 77; 81; 84; 84; 4; 166; 0; 60; 0; 1; 99; 0; 1; 119;
     0; 10; 48; 49; 50; 51; 52; 53; 54; 55; 56; 57; 0; 1; 117] /\
  forall j, j < 0 \/ 0 + fst p <= j -> snd p j = zeros j.
Proof.
  apply (connect_request_frame (H := std_header) zeros 0 100 [99] [119]
           ten_bytes 10 (Some [117]) None 2 60).
  - repeat split; reflexivity.
  - lia.
  - lia.
  - lia.
  - simpl. lia.
  - simpl. lia.
Defined.

(** ** The ARP table *)

Lemma oldest_bound : forall now table i tmpage c,
  (c < i + length table)%nat ->
  (Arp.oldest now i table tmpage c < i + length table)%nat.
Proof.
  induction table as [|e table IH]; intros i tmpage c Hc; cbn [Arp.oldest length] in *.
  - exact Hc.
  - destruct (tmpage <? now - Arp.time e).
    + specialize (IH (S i) (u8 (now - Arp.time e)) i). lia.
    + specialize (IH (S i) tmpage c). lia.
Qed.

Lemma first_unused_bound : forall table i,
  (i <= Arp.first_unused i table <= i + length table)%nat.
Proof.
  induction table as [|e table IH]; intros i; cbn [Arp.first_unused length].
  - lia.
  - destruct ((fst (Arp.ipaddr e) =? 0) && (snd (Arp.ipaddr e) =? 0)); [lia|].
    specialize (IH (S i)). lia.
Qed.

Lemma update_nth_length {T} (f : T -> T) : forall l i,
  length (MQ.update_nth i f l) = length l.
Proof.
  induction l as [|x l IH]; intros [|i]; cbn [MQ.update_nth length];
    try reflexivity. now rewrite IH.
Qed.

Lemma update_nth_same {T} (f : T -> T) : forall l i x,
  nth_error l i = Some x -> nth_error (MQ.update_nth i f l) i = Some (f x).
Proof.
  induction l as [|y l IH]; intros [|i] x Hx; cbn in *; try discriminate.
  - now inversion Hx.
  - now apply IH.
Qed.

Lemma update_nth_other {T} (f : T -> T) : forall l i j,
  j <> i -> nth_error (MQ.update_nth i f l) j = nth_error l j.
Proof.
  induction l as [|y l IH]; intros [|i] [|j] Hj; cbn; try reflexivity;
    try congruence.
  apply IH. congruence.
Qed.

Lemma refresh_spec : forall ip eth now table table',
  Arp.refresh ip eth now table = Some table' ->
  exists i,
    (i < length table)%nat /\
    nth_error table' i
    = Some {| Arp.ipaddr := ip; Arp.ethaddr := firstn 6 eth;
              Arp.time := now |} /\
    length table' = length table /\
    forall j, j <> i -> nth_error table' j = nth_error table j.
Proof.
  intros ip eth now. induction table as [|e table IH]; intros table' Hr;
    cbn [Arp.refresh] in Hr; [discriminate|].
  destruct (negb (fst (Arp.ipaddr e) =? 0) && negb (snd (Arp.ipaddr e) =? 0)
            && ((fst ip =? fst (Arp.ipaddr e))
                && (snd ip =? snd (Arp.ipaddr e)))) eqn:Hm.
  - injection Hr as Hr; subst table'. exists O. cbn [length nth_error].
    apply andb_prop in Hm as [_ Hm]. apply andb_prop in Hm as [H0 H1].
    apply Z.eqb_eq in H0, H1.
    destruct ip as [a b], (Arp.ipaddr e) as [a' b']; cbn [fst snd] in *.
    subst. repeat split; try lia.
    intros [|j] Hj; [congruence|reflexivity].
  - destruct (Arp.refresh ip eth now table) as [t1|] eqn:Ht; [|discriminate].
    cbn [option_map] in Hr. injection Hr as Hr; subst table'.
    destruct (IH t1 eq_refl) as (i & Hi & Hn & Hl & Ho).
    exists (S i). cbn [length nth_error]. repeat split; try lia; [exact Hn|].
    intros [|j] Hj; [reflexivity|]. apply Ho. congruence.
Qed.

(** X28. [uip_arp_update] registers the mapping in one entry and leaves
    the others alone: afterwards one entry of the table holds the IP
    address, the Ethernet address and the current [arptime], every other
    entry is as before, and the size of the table and [arptime] are
    unchanged. *)
Theorem uip_arp_update_registers :
  forall (s : Arp.arp_state) ip eth,
  (0 < length (Arp.arp_table s) <= 255)%nat ->
  length eth = 6%nat ->
  let s' := Arp.uip_arp_update s ip eth in
  Arp.arptime s' = Arp.arptime s /\
  length (Arp.arp_table s') = length (Arp.arp_table s) /\
  exists i,
    (i < length (Arp.arp_table s))%nat /\
    nth_error (Arp.arp_table s') i
    = Some {| Arp.ipaddr := ip; Arp.ethaddr := eth;
              Arp.time := Arp.arptime s |} /\
    forall j, j <> i ->
      nth_error (Arp.arp_table s') j = nth_error (Arp.arp_table s) j.
Proof.
  intros s ip eth Hlen Heth s'. subst s'. unfold Arp.uip_arp_update.
  assert (Hf : firstn 6 eth = eth) by (rewrite <- Heth; apply firstn_all).
  destruct (Arp.refresh ip eth (Arp.arptime s) (Arp.arp_table s))
    as [t1|] eqn:Hr.
  - cbn [Arp.arptime Arp.arp_table].
    destruct (refresh_spec _ _ _ _ _ Hr) as (i & Hi & Hn & Hl & Ho).
    rewrite Hf in Hn. split; [reflexivity|]. split; [exact Hl|].
    exists i. auto.
  - cbn [Arp.arptime Arp.arp_table]. rewrite Hf.
    set (i := if Nat.eqb _ _ then _ else _).
    assert (Hi : (i < length (Arp.arp_table s))%nat).
    { subst i.
      pose proof (first_unused_bound (Arp.arp_table s) 0) as Hb.
      destruct (Nat.eqb_spec (Arp.first_unused 0 (Arp.arp_table s))
                             (length (Arp.arp_table s))) as [E|E].
      - apply (oldest_bound _ (Arp.arp_table s) 0%nat). lia.
      - lia. }
    split; [reflexivity|]. split; [apply update_nth_length|].
    exists i. split; [exact Hi|]. split.
    + destruct (nth_error (Arp.arp_table s) i) as [x|] eqn:Hx.
      * now rewrite (update_nth_same _ _ _ _ Hx).
      * apply nth_error_None in Hx. lia.
    + intros j Hj. now apply update_nth_other.
Qed.

Lemma uip_arp_update_registers_witness :
  let s' := Arp.uip_arp_update sample_arp_state (49320, 300)
              [1; 2; 3; 4; 5; 6] in
  Arp.arptime s' = 130 /\
  length (Arp.arp_table s') = 3%nat /\
  exists i,
    (i < 3)%nat /\
    nth_error (Arp.arp_table s') i
    = Some {| Arp.ipaddr := (49320, 300); Arp.ethaddr := [1; 2; 3; 4; 5; 6];
              Arp.time := 130 |} /\
    forall j, j <> i ->
      nth_error (Arp.arp_table s') j
      = nth_error (Arp.arp_table sample_arp_state) j.
Proof.
  apply (uip_arp_update_registers sample_arp_state (49320, 300)
           [1; 2; 3; 4; 5; 6]).
  - cbn. lia.
  - reflexivity.
Defined.

Lemma refresh_entries_for : forall ip eth now table table' q,
  Arp.refresh ip eth now table = Some table' ->
  entries_for q table' = entries_for q table.
Proof.
  intros ip eth now. unfold entries_for.
  induction table as [|e table IH]; intros table' q Hr;
    cbn [Arp.refresh] in Hr; [discriminate|].
  destruct (negb (fst (Arp.ipaddr e) =? 0) && negb (snd (Arp.ipaddr e) =? 0)
            && ((fst ip =? fst (Arp.ipaddr e))
                && (snd ip =? snd (Arp.ipaddr e)))) eqn:Hm.
  - injection Hr as Hr; subst table'. cbn [filter Arp.ipaddr].
    destruct ((fst q =? fst (Arp.ipaddr e)) && (snd q =? snd (Arp.ipaddr e)));
      reflexivity.
  - destruct (Arp.refresh ip eth now table) as [t1|] eqn:Ht; [|discriminate].
    cbn [option_map] in Hr. injection Hr as Hr; subst table'.
    cbn [filter]. specialize (IH t1 q eq_refl).
    destruct ((fst q =? fst (Arp.ipaddr e)) && (snd q =? snd (Arp.ipaddr e)));
      cbn [length]; now rewrite IH.
Qed.

Lemma refresh_none : forall ip eth now table,
  fst ip <> 0 -> snd ip <> 0 ->
  Arp.refresh ip eth now table = None -> entries_for ip table = 0%nat.
Proof.
  intros ip eth now table H0 H1. unfold entries_for.
  induction table as [|e table IH]; intro Hr; [reflexivity|].
  cbn [Arp.refresh] in Hr. cbn [filter].
  destruct (Z.eqb_spec (fst ip) (fst (Arp.ipaddr e))) as [E0|E0];
    destruct (Z.eqb_spec (snd ip) (snd (Arp.ipaddr e))) as [E1|E1];
    cbn [andb] in *.
  - rewrite <- E0, <- E1 in Hr.
    destruct (Z.eqb_spec (fst ip) 0) as [|_]; [contradiction|].
    destruct (Z.eqb_spec (snd ip) 0) as [|_]; [contradiction|].
    discriminate.
  - rewrite !andb_false_r in Hr.
    destruct (Arp.refresh ip eth now table); [discriminate|]. now apply IH.
  - rewrite !andb_false_r in Hr.
    destruct (Arp.refresh ip eth now table); [discriminate|]. now apply IH.
  - rewrite !andb_false_r in Hr.
    destruct (Arp.refresh ip eth now table); [discriminate|]. now apply IH.
Qed.

Lemma entries_for_write : forall ip eth now table i,
  (i < length table)%nat -> entries_for ip table = 0%nat ->
  entries_for ip
    (MQ.update_nth i
       (fun _ => {| Arp.ipaddr := ip; Arp.ethaddr := eth; Arp.time := now |})
       table) = 1%nat.
Proof.
  intros ip eth now. unfold entries_for.
  induction table as [|e table IH]; intros i Hi Hz; cbn [length] in Hi; [lia|].
  cbn [filter] in Hz.
  destruct ((fst ip =? fst (Arp.ipaddr e)) && (snd ip =? snd (Arp.ipaddr e)))
    eqn:He; [discriminate|].
  destruct i as [|i]; cbn [MQ.update_nth filter Arp.ipaddr].
  - rewrite !Z.eqb_refl. cbn [andb length]. now rewrite Hz.
  - rewrite He. apply IH; [lia|exact Hz].
Qed.

(** X29. [uip_arp_update] never makes a second entry for an address: for
    an IP address whose two halves are not zero, the table holds afterwards
    as many entries for the address as before, and one when it held
    none. *)
Theorem uip_arp_update_single_entry :
  forall (s : Arp.arp_state) ip eth,
  (0 < length (Arp.arp_table s) <= 255)%nat ->
  fst ip <> 0 -> snd ip <> 0 ->
  entries_for ip (Arp.arp_table (Arp.uip_arp_update s ip eth))
  = Nat.max 1 (entries_for ip (Arp.arp_table s)).
Proof.
  intros s ip eth Hlen H0 H1. unfold Arp.uip_arp_update.
  destruct (Arp.refresh ip eth (Arp.arptime s) (Arp.arp_table s))
    as [t1|] eqn:Hr.
  - cbn [Arp.arp_table]. rewrite (refresh_entries_for _ _ _ _ _ ip Hr).
    destruct (refresh_spec _ _ _ _ _ Hr) as (i & Hi & Hn & Hl & Ho).
    assert (Hpos : (0 < entries_for ip t1)%nat).
    { clear - Hn. unfold entries_for. revert i Hn.
      induction t1 as [|e t1 IH]; intros [|i] Hn; cbn in Hn; try discriminate.
      - inversion Hn. cbn [filter Arp.ipaddr]. rewrite !Z.eqb_refl.
        cbn [andb length]. lia.
      - cbn [filter]. specialize (IH i Hn).
        destruct (_ && _); cbn [length]; lia. }
    rewrite (refresh_entries_for _ _ _ _ _ ip Hr) in Hpos. lia.
  - cbn [Arp.arp_table].
    pose proof (refresh_none _ _ _ _ H0 H1 Hr) as Hz. rewrite Hz.
    apply entries_for_write; [|exact Hz].
    pose proof (first_unused_bound (Arp.arp_table s) 0) as Hb.
    destruct (Nat.eqb_spec (Arp.first_unused 0 (Arp.arp_table s))
                           (length (Arp.arp_table s))) as [E|E].
    + apply (oldest_bound _ (Arp.arp_table s) 0%nat). lia.
    + lia.
Qed.

Lemma uip_arp_update_single_entry_witness :
  entries_for (49320, 258)
    (Arp.arp_table (Arp.uip_arp_update sample_arp_state (49320, 258)
                      [1; 2; 3; 4; 5; 6]))
  = Nat.max 1 (entries_for (49320, 258) (Arp.arp_table sample_arp_state)).
Proof.
  apply (uip_arp_update_single_entry sample_arp_state (49320, 258)
           [1; 2; 3; 4; 5; 6]).
  - cbn. lia.
  - cbn. lia.
  - cbn. lia.
Defined.

(** X30. [uip_arp_timer] advances [arptime] by one modulo 256 and ages
    the table: no entry changes its Ethernet address or its time, an entry
    keeps its IP address or has it cleared, an entry below the maximum age
    is unchanged, and afterwards no entry in use has reached the maximum
    age. *)
Theorem uip_arp_timer_expires :
  forall maxage (s : Arp.arp_state),
  (length (Arp.arp_table s) <= 255)%nat ->
  let s' := Arp.uip_arp_timer maxage s in
  Arp.arptime s' = u8 (Arp.arptime s + 1) /\
  Forall2 (fun e e' =>
             Arp.ethaddr e' = Arp.ethaddr e /\ Arp.time e' = Arp.time e /\
             (Arp.ipaddr e' = Arp.ipaddr e \/ Arp.ipaddr e' = (0, 0)) /\
             (in_use e' -> Arp.arptime s' - Arp.time e' < maxage) /\
             (Arp.arptime s' - Arp.time e < maxage -> e' = e))
          (Arp.arp_table s) (Arp.arp_table s').
Proof.
  intros maxage s _ s'. subst s'. unfold Arp.uip_arp_timer.
  cbn [Arp.arptime Arp.arp_table]. split; [reflexivity|].
  induction (Arp.arp_table s) as [|e table IH]; cbn [map]; constructor;
    [|exact IH].
  unfold in_use.
  destruct (Z.eqb_spec (Z.lor (fst (Arp.ipaddr e)) (snd (Arp.ipaddr e))) 0)
    as [E|E];
    destruct (Z.leb_spec maxage (u8 (Arp.arptime s + 1) - Arp.time e))
      as [L|L]; cbn [negb andb Arp.clear_ipaddr Arp.ethaddr Arp.time Arp.ipaddr fst snd];
    repeat split; auto; try (intros; lia); try contradiction.
  all: cbn [Z.lor]; intros; try lia; try congruence.
Qed.

(** Witness of [uip_arp_timer_expires]: a table of three entries, a maximum
    age of 120 ticks. *)
Lemma uip_arp_timer_expires_witness :
  let s' := Arp.uip_arp_timer 120 sample_arp_state in
  Arp.arptime s' = 131 /\
  Forall2 (fun e e' =>
             Arp.ethaddr e' = Arp.ethaddr e /\ Arp.time e' = Arp.time e /\
             (Arp.ipaddr e' = Arp.ipaddr e \/ Arp.ipaddr e' = (0, 0)) /\
             (in_use e' -> Arp.arptime s' - Arp.time e' < 120) /\
             (Arp.arptime s' - Arp.time e < 120 -> e' = e))
          (Arp.arp_table sample_arp_state) (Arp.arp_table s').
Proof.
  apply (uip_arp_timer_expires 120 sample_arp_state).
  cbn. lia.
Defined.
